(** * wordpress-json: collector, content extractor and normaliser

    A shallow embedding of [nodriver_helper.py], [collect_news.py] and
    [normalize_news.py], and the properties of the specification that
    are settled against it.

    Conventions of the embedding.
    - A Python [str] is a Rocq [string]; its characters are the code
      points below 256.  Character-level functions work on [list ascii].
    - A value decoded from JSON is a [pyval].
    - A Python function that may raise returns a [res]: [Ok v] or
      [Raise e].  State that a function mutates before it raises is
      threaded explicitly, so a partial update stays visible.
    - The collaborators outside the repository ([json.loads], the
      browser, [markdownify], [urlparse], [dateutil], [hashlib], the
      clock) are fields of the records [helper_env], [collect_env] and
      [normalize_env]; every theorem is stated for arbitrary
      collaborators, and the reference instances at the end of the
      definitions are used to run the code on concrete inputs.
    - A file system is a map from paths to contents, or the list of the
      writes in their order.  The writes of the fetch driver and of the
      normaliser have their failure as an outcome: the driver takes the
      writing of a debug page as a parameter that may raise, and the
      normaliser asks [normalize_env] whether a directory can be made
      and a file written, and what a failed write leaves.  The
      collector is described on a file system that takes every write. *)

From Stdlib Require Import ZArith String Ascii List Bool Lia SpecFloat.
From stdpp Require Import base gmap strings list pretty.
Import ListNotations.

Local Open Scope string_scope.
Local Open Scope list_scope.
Local Open Scope Z_scope.

(** ** Characters and text *)

Definition chars (s : string) : list ascii := list_ascii_of_string s.
Definition str_of (l : list ascii) : string := string_of_list_ascii l.

Definition newline : ascii := ascii_of_nat 10.

Definition is_newline (c : ascii) : bool := Ascii.eqb c newline.

(** [str.isspace] and the class [\s] of [re] on the code points below
    256: TAB..CR, FS..US, SPACE, NEL and NBSP. *)
Definition is_space (c : ascii) : bool :=
  let n := nat_of_ascii c in
  ((9 <=? n) && (n <=? 13) || (28 <=? n) && (n <=? 32)
   || (n =? 133) || (n =? 160))%nat.

Fixpoint lstrip (s : list ascii) : list ascii :=
  match s with
  | c :: s' => if is_space c then lstrip s' else s
  | [] => []
  end.

Definition rstrip (s : list ascii) : list ascii := rev (lstrip (rev s)).

(** [s.strip()] *)
Definition strip (s : list ascii) : list ascii := rstrip (lstrip s).

(** [s.startswith(p)] *)
Fixpoint startswith (p s : list ascii) : bool :=
  match p, s with
  | [], _ => true
  | a :: p', b :: s' => Ascii.eqb a b && startswith p' s'
  | _ :: _, [] => false
  end.

(** [s.endswith(p)] *)
Definition endswith (p s : list ascii) : bool := startswith (rev p) (rev s).

Fixpoint find_from (c : ascii) (s : list ascii) (i : Z) : Z :=
  match s with
  | [] => -1
  | x :: s' => if Ascii.eqb x c then i else find_from c s' (i + 1)
  end.

(** [s.find(c)] for a one-character [c]: the lowest index, or -1. *)
Definition find (c : ascii) (s : list ascii) : Z := find_from c s 0.

Fixpoint rfind_from (c : ascii) (s : list ascii) (i last : Z) : Z :=
  match s with
  | [] => last
  | x :: s' => rfind_from c s' (i + 1) (if Ascii.eqb x c then i else last)
  end.

(** [s.rfind(c)] for a one-character [c]: the highest index, or -1. *)
Definition rfind (c : ascii) (s : list ascii) : Z := rfind_from c s 0 (-1).

(** An index of a slice, brought into [0 .. len] the way Python does. *)
Definition clamp_index (len i : Z) : Z :=
  if i <? 0 then Z.max 0 (i + len) else Z.min i len.

(** [s[a:b]] *)
Definition slice (s : list ascii) (a b : Z) : list ascii :=
  let len := Z.of_nat (length s) in
  let a' := clamp_index len a in
  let b' := clamp_index len b in
  take (Z.to_nat (b' - a')) (drop (Z.to_nat a') s).

(** [s.replace(a, b)] for one-character [a] and [b]. *)
Definition replace_char (a b : ascii) (s : list ascii) : list ascii :=
  map (fun c => if Ascii.eqb c a then b else c) s.

(** ** Values *)

#[local] Set Warnings "-register-all".

Inductive pyval : Type :=
| PNone
| PBool (b : bool)
| PInt (z : Z)
| PFloat (f : spec_float)
| PStr (s : string)
| PList (l : list pyval)
| PDict (d : list (string * pyval)).

(** Truth value of an object, as tested by [if], [and], [not], [all]. *)
Definition truthy (v : pyval) : bool :=
  match v with
  | PNone => false
  | PBool b => b
  | PInt z => negb (z =? 0)
  | PFloat (S754_zero _) => false
  | PFloat _ => true
  | PStr s => negb (String.eqb s "")
  | PList l => match l with [] => false | _ => true end
  | PDict d => match d with [] => false | _ => true end
  end.

(** A [dict] keeps its items in insertion order, one per key. *)
Fixpoint dict_lookup (k : string) (d : list (string * pyval)) : option pyval :=
  match d with
  | [] => None
  | (k', v) :: d' => if String.eqb k' k then Some v else dict_lookup k d'
  end.

(** [d[k] = v] *)
Fixpoint dict_set (k : string) (v : pyval) (d : list (string * pyval))
  : list (string * pyval) :=
  match d with
  | [] => [(k, v)]
  | (k', v') :: d' =>
      if String.eqb k' k then (k, v) :: d' else (k', v') :: dict_set k v d'
  end.

(** [type(v).__name__] *)
Definition type_name (v : pyval) : string :=
  match v with
  | PNone => "NoneType"
  | PBool _ => "bool"
  | PInt _ => "int"
  | PFloat _ => "float"
  | PStr _ => "str"
  | PList _ => "list"
  | PDict _ => "dict"
  end.

(** ** Exceptions and results *)

Record exn : Type := Exn { exn_type : string; exn_msg : string }.

Inductive res (A : Type) : Type :=
| Ok (a : A)
| Raise (e : exn).
Arguments Ok {A} a.
Arguments Raise {A} e.

Definition bind {A B : Type} (r : res A) (k : A -> res B) : res B :=
  match r with
  | Ok a => k a
  | Raise e => Raise e
  end.

Notation "'let*' x ':=' r 'in' k" := (bind r (fun x => k))
  (at level 10, x pattern, r at level 100, k at level 200).

Definition AttributeError (v : pyval) (attr : string) : exn :=
  Exn "AttributeError"
      ("'" +:+ type_name v +:+ "' object has no attribute '" +:+ attr +:+ "'").

Definition KeyError (k : string) : exn := Exn "KeyError" ("'" +:+ k +:+ "'").

Definition TypeError (msg : string) : exn := Exn "TypeError" msg.

Definition IndexError (msg : string) : exn := Exn "IndexError" msg.

Definition ValueError (msg : string) : exn := Exn "ValueError" msg.

(** [v.get(k, default)]: only a [dict] has the method. *)
Definition py_get (v : pyval) (k : string) (dflt : pyval) : res pyval :=
  match v with
  | PDict d => Ok (default dflt (dict_lookup k d))
  | _ => Raise (AttributeError v "get")
  end.

(** ** Regular expressions

    The fragment of [re] the sources use: literals, negated
    one-character classes, [\s], the anchors [^] and [$] under
    [re.MULTILINE], concatenation and greedy repetition [r{n,}].  The
    matcher backtracks in the order of [re]: a repetition tries one more
    iteration before it tries to stop.  ([re.DOTALL] only changes [.],
    which no pattern of the sources contains.) *)

Module Re.

Inductive regex : Type :=
| Chr (c : ascii)                 (* the character [c] *)
| NotChr (c : ascii)              (* [[^c]] *)
| Space                           (* [\s] *)
| Bol                             (* [^], MULTILINE *)
| Eol                             (* [$], MULTILINE *)
| Seq (r1 r2 : regex)
| Rep (r : regex) (n : nat).      (* greedy [r{n,}] *)

Definition Star (r : regex) : regex := Rep r 0.
Definition Plus (r : regex) : regex := Rep r 1.

(** A position in the subject: [bol] tells whether it is at the start
    of the subject or just after a newline, [s] is what follows. The
    continuation [k] matches the rest of the pattern and answers with
    what is left of the subject after the whole match. *)
Definition cont : Type := bool -> list ascii -> option (list ascii).

(** Greedy repetition of [step], at least [n] times: one more
    iteration is tried first, and the rest of the pattern ([k]) only
    when that fails.  An iteration has to consume a character. *)
Fixpoint rep (step : bool -> list ascii -> cont -> option (list ascii))
  (k : cont) (fuel n : nat) (bol : bool) (s : list ascii)
  : option (list ascii) :=
  let stop := match n with O => k bol s | S _ => None end in
  match fuel with
  | O => stop
  | S fuel' =>
      match step bol s (fun b' s' =>
              if (length s' <? length s)%nat
              then rep step k fuel' (pred n) b' s' else None) with
      | Some rest => Some rest
      | None => stop
      end
  end.

Fixpoint m (r : regex) (bol : bool) (s : list ascii) (k : cont)
  : option (list ascii) :=
  match r with
  | Chr c =>
      match s with
      | x :: s' => if Ascii.eqb x c then k (is_newline x) s' else None
      | [] => None
      end
  | NotChr c =>
      match s with
      | x :: s' => if Ascii.eqb x c then None else k (is_newline x) s'
      | [] => None
      end
  | Space =>
      match s with
      | x :: s' => if is_space x then k (is_newline x) s' else None
      | [] => None
      end
  | Bol => if bol then k bol s else None
  | Eol =>
      match s with
      | [] => k bol s
      | x :: _ => if is_newline x then k bol s else None
      end
  | Seq r1 r2 => m r1 bol s (fun b' s' => m r2 b' s' k)
  | Rep r' n => rep (m r') k (length s) n bol s
  end.

(** [pattern.match] at one position: what is left after the match. *)
Definition match_at (r : regex) (bol : bool) (s : list ascii)
  : option (list ascii) :=
  m r bol s (fun _ rest => Some rest).

(** [re.sub(r, repl, s)] with a replacement without group references:
    scan from the left, and at the first position where [r] matches
    replace the match, then go on after it.  [skip] counts characters
    of a match still to be dropped. *)
Fixpoint sub_from (r : regex) (repl : list ascii) (bol : bool) (skip : nat)
  (s : list ascii) : list ascii :=
  match skip with
  | S skip' =>
      match s with
      | [] => []
      | c :: s' => sub_from r repl (is_newline c) skip' s'
      end
  | O =>
      match match_at r bol s with
      | Some rest =>
          match (length s - length rest)%nat, s with
          | S n, c :: s' => repl ++ sub_from r repl (is_newline c) n s'
          | O, c :: s' => repl ++ c :: sub_from r repl (is_newline c) 0 s'
          | _, [] => repl
          end
      | None =>
          match s with
          | [] => []
          | c :: s' => c :: sub_from r repl (is_newline c) 0 s'
          end
      end
  end.

Definition sub (r : regex) (repl s : list ascii) : list ascii :=
  sub_from r repl true 0 s.

End Re.

(** ** A reference JSON decoder

    [json.loads] is a collaborator: the code below takes it as a field
    of [helper_env].  [Json.loads] is a decoder to run the code with:
    it follows [json.decoder] on the JSON texts whose numbers are
    integer literals and whose [\u] escapes stay below 256, and answers
    [None] (for [JSONDecodeError]) on every other text. *)

Module Json.

Definition dquote : ascii := ascii_of_nat 34.
Definition backslash : ascii := ascii_of_nat 92.

Definition ch (c : ascii) (s : string) : bool :=
  match s with
  | String x EmptyString => Ascii.eqb c x
  | _ => false
  end.

(** The whitespace of [json.decoder]: space, TAB, LF, CR. *)
Definition is_ws (c : ascii) : bool :=
  let n := nat_of_ascii c in ((n =? 32) || (n =? 9) || (n =? 10) || (n =? 13))%nat.

Fixpoint skip_ws (s : list ascii) : list ascii :=
  match s with
  | c :: s' => if is_ws c then skip_ws s' else s
  | [] => []
  end.

Definition digit_of (c : ascii) : option Z :=
  let n := nat_of_ascii c in
  if ((48 <=? n) && (n <=? 57))%nat then Some (Z.of_nat n - 48) else None.

Definition hex_of (c : ascii) : option nat :=
  let n := nat_of_ascii c in
  if ((48 <=? n) && (n <=? 57))%nat then Some (n - 48)%nat
  else if ((65 <=? n) && (n <=? 70))%nat then Some (n - 55)%nat
  else if ((97 <=? n) && (n <=? 102))%nat then Some (n - 87)%nat
  else None.

Fixpoint digits (s : list ascii) (acc : Z) : Z * list ascii :=
  match s with
  | c :: s' =>
      match digit_of c with
      | Some d => digits s' (10 * acc + d)
      | None => (acc, s)
      end
  | [] => (acc, [])
  end.

Definition starts_digit (s : list ascii) : bool :=
  match s with
  | c :: _ => match digit_of c with Some _ => true | None => false end
  | [] => false
  end.

(** The text after an integer part continues a number with a fraction
    or an exponent: the literal is a float, outside the fragment. *)
Definition float_tail (s : list ascii) : bool :=
  match s with
  | c :: s' =>
      if ch c "." then starts_digit s'
      else if ch c "e" || ch c "E" then
        match s' with
        | d :: s'' => if ch d "+" || ch d "-" then starts_digit s''
                      else starts_digit s'
        | [] => false
        end
      else false
  | [] => false
  end.

(** An integer literal: an optional minus, then 0 or a digit string
    that does not start with 0. *)
Definition parse_int (s : list ascii) : option (pyval * list ascii) :=
  let '(neg, s1) :=
    match s with
    | c :: s' => if ch c "-" then (true, s') else (false, s)
    | [] => (false, s)
    end in
  match s1 with
  | c :: s2 =>
      match digit_of c with
      | Some 0 =>
          if float_tail s2 then None else Some (PInt 0, s2)
      | Some d =>
          let '(n, rest) := digits s2 d in
          if float_tail rest then None
          else Some (PInt (if neg then - n else n), rest)
      | None => None
      end
  | [] => None
  end.

Definition escape_of (c : ascii) : option ascii :=
  if Ascii.eqb c dquote then Some dquote
  else if Ascii.eqb c backslash then Some backslash
  else if ch c "/" then Some c
  else if ch c "b" then Some (ascii_of_nat 8)
  else if ch c "f" then Some (ascii_of_nat 12)
  else if ch c "n" then Some (ascii_of_nat 10)
  else if ch c "r" then Some (ascii_of_nat 13)
  else if ch c "t" then Some (ascii_of_nat 9)
  else None.

(** The body of a string literal, after the opening quote. *)
Fixpoint parse_string (s : list ascii) (acc : list ascii)
  : option (string * list ascii) :=
  match s with
  | [] => None
  | c :: s' =>
      if Ascii.eqb c dquote then Some (str_of (rev acc), s')
      else if Ascii.eqb c backslash then
        match s' with
        | e :: s'' =>
            if ch e "u" then
              match s'' with
              | h1 :: h2 :: h3 :: h4 :: s3 =>
                  match hex_of h1, hex_of h2, hex_of h3, hex_of h4 with
                  | Some 0%nat, Some 0%nat, Some a, Some b =>
                      parse_string s3 (ascii_of_nat (16 * a + b) :: acc)
                  | _, _, _, _ => None
                  end
              | _ => None
              end
            else
              match escape_of e with
              | Some x => parse_string s'' (x :: acc)
              | None => None
              end
        | [] => None
        end
      else if (nat_of_ascii c <? 32)%nat then None
      else parse_string s' (c :: acc)
  end.

Fixpoint parse_value (fuel : nat) (s : list ascii) {struct fuel}
  : option (pyval * list ascii) :=
  match fuel with
  | O => None
  | S fuel' =>
      match s with
      | [] => None
      | c :: s' =>
          if Ascii.eqb c dquote then
            match parse_string s' [] with
            | Some (x, rest) => Some (PStr x, rest)
            | None => None
            end
          else if ch c "{" then
            match skip_ws s' with
            | d :: rest =>
                if ch d "}" then Some (PDict [], rest)
                else parse_members fuel' (d :: rest) []
            | [] => None
            end
          else if ch c "[" then
            match skip_ws s' with
            | d :: rest =>
                if ch d "]" then Some (PList [], rest)
                else parse_items fuel' (d :: rest) []
            | [] => None
            end
          else if startswith (chars "null") s then Some (PNone, drop 4 s)
          else if startswith (chars "true") s then Some (PBool true, drop 4 s)
          else if startswith (chars "false") s then Some (PBool false, drop 5 s)
          else
            match parse_int s with
            | Some r => Some r
            | None =>
                if startswith (chars "NaN") s
                then Some (PFloat S754_nan, drop 3 s)
                else if startswith (chars "Infinity") s
                then Some (PFloat (S754_infinity false), drop 8 s)
                else if startswith (chars "-Infinity") s
                then Some (PFloat (S754_infinity true), drop 9 s)
                else None
            end
      end
  end

(** The items of an array, from the start of an item to the [']']. *)
with parse_items (fuel : nat) (s : list ascii) (acc : list pyval)
  {struct fuel} : option (pyval * list ascii) :=
  match fuel with
  | O => None
  | S fuel' =>
      match parse_value fuel' s with
      | Some (v, rest) =>
          match skip_ws rest with
          | c :: rest' =>
              if ch c "]" then Some (PList (rev (v :: acc)), rest')
              else if ch c "," then parse_items fuel' (skip_ws rest') (v :: acc)
              else None
          | [] => None
          end
      | None => None
      end
  end

(** The members of an object, from the quote of a key to the ['}']. *)
with parse_members (fuel : nat) (s : list ascii) (acc : list (string * pyval))
  {struct fuel} : option (pyval * list ascii) :=
  match fuel with
  | O => None
  | S fuel' =>
      match s with
      | q :: s' =>
          if Ascii.eqb q dquote then
            match parse_string s' [] with
            | Some (k, rest) =>
                match skip_ws rest with
                | c :: rest1 =>
                    if ch c ":" then
                      match parse_value fuel' (skip_ws rest1) with
                      | Some (v, rest2) =>
                          let acc' := dict_set k v acc in
                          match skip_ws rest2 with
                          | e :: rest3 =>
                              if ch e "}" then Some (PDict acc', rest3)
                              else if ch e "," then
                                parse_members fuel' (skip_ws rest3) acc'
                              else None
                          | [] => None
                          end
                      | None => None
                      end
                    else None
                | [] => None
                end
            | None => None
            end
          else None
      | [] => None
      end
  end.

Definition loads (text : string) : option pyval :=
  let s := skip_ws (chars text) in
  match parse_value (S (length s)) s with
  | Some (v, rest) =>
      match skip_ws rest with
      | [] => Some v
      | _ :: _ => None
      end
  | None => None
  end.

End Json.

(** ** The file system

    A run is observed through the files it writes.  [Write p d] is
    [open(p, 'w')] followed by a complete write of [d]: it creates or
    replaces the file [p].  A log lists the writes in the order they
    happen, the latest last. *)

Inductive file_data : Type :=
| FText (s : string)          (* [f.write(s)] *)
| FJson (v : pyval).          (* [json.dump(v, f, indent=2)] *)

Inductive fs_event : Type :=
| Write (path : string) (data : file_data).

Definition event_path (e : fs_event) : string :=
  match e with Write p _ => p end.

Definition apply_event (fs : gmap string file_data) (e : fs_event)
  : gmap string file_data :=
  match e with Write p d => <[p := d]> fs end.

(** The files after the writes of a log, starting from [fs]. *)
Definition replay (fs : gmap string file_data) (log : list fs_event)
  : gmap string file_data :=
  foldl apply_event fs log.

(** [os.path.join(a, b)] for a relative [b] and an [a] without a
    trailing separator. *)
Definition path_join (a b : string) : string := a +:+ "/" +:+ b.

(** * nodriver_helper.py *)

(** [json.loads]: [None] stands for [json.JSONDecodeError], whose text
    is [json_error]. *)
Record helper_env : Type := {
  json_loads : string -> option pyval;
  json_error : string -> string;
}.

Definition JSONDecodeError (env : helper_env) (text : string) : exn :=
  Exn "JSONDecodeError" (json_error env text).

Definition sanitize_filename (text : string) : string :=
  str_of (replace_char ":" "_" (replace_char "/" "_"
            (replace_char "." "_" (chars text)))).

(** The pattern [^(<[^>]+>)+]. *)
Definition opening_tags : Re.regex :=
  Re.Seq Re.Bol
    (Re.Plus (Re.Seq (Re.Chr "<") (Re.Seq (Re.Plus (Re.NotChr ">")) (Re.Chr ">")))).

(** The pattern [(</[^>]+>)+\s*$]. *)
Definition closing_tags : Re.regex :=
  Re.Seq
    (Re.Plus (Re.Seq (Re.Chr "<") (Re.Seq (Re.Chr "/")
                (Re.Seq (Re.Plus (Re.NotChr ">")) (Re.Chr ">")))))
    (Re.Seq (Re.Star Re.Space) Re.Eol).

(** [content.strip().startswith('<html') or
     content.strip().startswith('<!DOCTYPE')] *)
Definition looks_like_html (content : list ascii) : bool :=
  startswith (chars "<html") (strip content)
  || startswith (chars "<!DOCTYPE") (strip content).

(** The text handed to the second [json.loads]. *)
Definition strip_html_tags (content : list ascii) : list ascii :=
  let cleaned := Re.sub opening_tags [] content in
  let cleaned := Re.sub closing_tags [] cleaned in
  strip cleaned.

Section Extract.

Variable env : helper_env.

Definition loads_or_raise (text : list ascii) : res pyval :=
  match json_loads env (str_of text) with
  | Some v => Ok v
  | None => Raise (JSONDecodeError env (str_of text))
  end.

(** The final fallback: from the first opener to the last closer. *)
Definition extract_span (content : list ascii) : res pyval :=
  let array_start := find "[" content in
  let array_end := rfind "]" content + 1 in
  let obj_start := find "{" content in
  let obj_end := rfind "}" content + 1 in
  if negb (array_start =? -1)
     && ((obj_start =? -1) || (array_start <? obj_start)) then
    if array_end >? array_start
    then loads_or_raise (slice content array_start array_end)
    else Raise (ValueError "Could not extract JSON from page content.")
  else if negb (obj_start =? -1) && (obj_end >? obj_start) then
    loads_or_raise (slice content obj_start obj_end)
  else Raise (ValueError "Could not extract JSON from page content.").

Definition extract_json_from_content (content : string) : res pyval :=
  match json_loads env content with
  | Some v => Ok v
  | None =>
      let retry :=
        if looks_like_html (chars content)
        then json_loads env (str_of (strip_html_tags (chars content)))
        else None in
      match retry with
      | Some v => Ok v
      | None => extract_span (chars content)
      end
  end.

End Extract.

(** ** The fetch driver

    [fetch_json_from_urls] runs over a list that its callbacks may
    extend.  The list and everything else the callbacks mutate live in
    the caller's state [St]; [urls] reads the list.  [emit] is the
    writing of one debug page (make the directory, open the file, write
    the text): it ends in the exception the file system raises, or
    normally, and leaves the state the attempt has reached either way.
    [browse i url] is the whole browser exchange for the [i]-th request
    (open the tab, wait, probe, read the content): the page text, or the
    exception it ends with.  Sleeps and the closing of the tab leave no
    trace in the state and are not represented. *)

Inductive fetch_result : Type :=
| RSuccess (url : string) (data : pyval)
| RError (url : string) (error : string) (content : option string).

Section Driver.

Context {St : Type}.
Variable env : helper_env.
Variable browse : nat -> string -> res string.
Variable urls : St -> list string.
Variable emit : fs_event -> St -> res unit * St.
Variable debug_dir : option string.
Variable debug_mode : bool.
Variable on_success : option (string -> pyval -> nat -> St -> res unit * St).
Variable on_error :
  option (string -> string -> option string -> nat -> St -> res unit * St).

(** [debug_dir and content] *)
Definition debug_target (content : option string) : option (string * string) :=
  match debug_dir, content with
  | Some dir, Some text =>
      if negb (String.eqb dir "") && negb (String.eqb text "")
      then Some (dir, text) else None
  | _, _ => None
  end.

Definition save_debug (suffix : string) (url : string)
  (content : option string) (s : St) : res unit * St :=
  match debug_target content with
  | Some (dir, text) =>
      emit (Write (path_join dir (sanitize_filename url +:+ suffix))
                  (FText text)) s
  | None => (Ok tt, s)
  end.

(** The [except Exception as e] branch.  Nothing catches what the
    debug write or [on_error] raises here: it leaves the function. *)
Definition handle_failure (i : nat) (url : string) (e : exn)
  (content : option string) (s : St) : res fetch_result * St :=
  match save_debug "_error.html" url content s with
  | (Raise e', s1) => (Raise e', s1)
  | (Ok _, s1) =>
      let kept := match content with
                  | Some text => if String.eqb text "" then None else Some text
                  | None => None
                  end in
      match on_error with
      | Some f =>
          match f url (exn_msg e) content i s1 with
          | (Ok _, s2) => (Ok (RError url (exn_msg e) kept), s2)
          | (Raise e', s2) => (Raise e', s2)
          end
      | None => (Ok (RError url (exn_msg e) kept), s1)
      end
  end.

(** One turn of the loop body.  The [try] block: the browser, the
    extractor, the debug write of a successful page and [on_success];
    an exception of any of them is handled by [handle_failure]. *)
Definition fetch_one (i : nat) (url : string) (s : St) : res fetch_result * St :=
  match browse i url with
  | Raise e => handle_failure i url e None s
  | Ok content =>
      match extract_json_from_content env content with
      | Raise e => handle_failure i url e (Some content) s
      | Ok data =>
          match (if debug_mode
                 then save_debug "_success.html" url (Some content) s
                 else (Ok tt, s)) with
          | (Raise e, s1) => handle_failure i url e (Some content) s1
          | (Ok _, s1) =>
              match on_success with
              | Some f =>
                  match f url data i s1 with
                  | (Ok _, s2) => (Ok (RSuccess url data), s2)
                  | (Raise e, s2) => handle_failure i url e (Some content) s2
                  end
              | None => (Ok (RSuccess url data), s1)
              end
          end
      end
  end.

(** [for i, url in enumerate(urls)]: the iterator reads the live list,
    so it ends when [i] reaches the current length.  [None] means that
    [fuel] turns were not enough. *)
Fixpoint fetch_loop (fuel : nat) (i : nat) (results : list fetch_result)
  (s : St) : option (res (list fetch_result) * St) :=
  match fuel with
  | O => None
  | S fuel' =>
      match urls s !! i with
      | None => Some (Ok results, s)
      | Some url =>
          match fetch_one i url s with
          | (Ok r, s') => fetch_loop fuel' (S i) (results ++ [r]) s'
          | (Raise e, s') => Some (Raise e, s')
          end
      end
  end.

Definition fetch_json_from_urls (fuel : nat) (s : St)
  : option (res (list fetch_result) * St) :=
  fetch_loop fuel 0 [] s.

End Driver.

(** A file system that takes every write: the write is recorded by
    [record] and nothing is raised. *)
Definition writes_ok {St : Type} (record : fs_event -> St -> St)
  (e : fs_event) (s : St) : res unit * St :=
  (Ok tt, record e s).

(** * collect_news.py *)

(** ** Members of a [set]

    A [set] compares its members with [==] after hashing: [True], [1]
    and [1.0] are one member.  [hash_key] maps a value to the member it
    is; a [list] or a [dict] has no hash. *)

Inductive pykey : Type :=
| KNone
| KInt (z : Z)
| KFrac (neg : bool) (m : positive) (e : Z)   (* (-1)^neg * m * 2^e, not an integer *)
| KInf (neg : bool)
| KNan
| KStr (s : string).

Fixpoint odd_part (m : positive) (e : Z) : positive * Z :=
  match m with
  | xO m' => if e <? 0 then odd_part m' (e + 1) else (m, e)
  | _ => (m, e)
  end.

Definition float_key (f : spec_float) : pykey :=
  match f with
  | S754_zero _ => KInt 0
  | S754_infinity neg => KInf neg
  | S754_nan => KNan
  | S754_finite neg m e =>
      let '(m', e') := odd_part m e in
      if e' <? 0 then KFrac neg m' e'
      else KInt ((if neg then -1 else 1) * Z.pos m' * 2 ^ e')
  end.

Definition hash_key (v : pyval) : option pykey :=
  match v with
  | PNone => Some KNone
  | PBool b => Some (KInt (if b then 1 else 0))
  | PInt z => Some (KInt z)
  | PFloat f => Some (float_key f)
  | PStr s => Some (KStr s)
  | PList _ | PDict _ => None
  end.

#[global] Instance pykey_eq_dec : EqDecision pykey.
Proof. solve_decision. Defined.

Definition pykey_encode (k : pykey)
  : unit + Z + (bool * positive * Z) + bool + unit + string :=
  match k with
  | KNone => inl (inl (inl (inl (inl tt))))
  | KInt z => inl (inl (inl (inl (inr z))))
  | KFrac n m e => inl (inl (inl (inr (n, m, e))))
  | KInf n => inl (inl (inr n))
  | KNan => inl (inr tt)
  | KStr s => inr s
  end.

Definition pykey_decode
  (x : unit + Z + (bool * positive * Z) + bool + unit + string) : pykey :=
  match x with
  | inl (inl (inl (inl (inl _)))) => KNone
  | inl (inl (inl (inl (inr z)))) => KInt z
  | inl (inl (inl (inr (n, m, e)))) => KFrac n m e
  | inl (inl (inr n)) => KInf n
  | inl (inr _) => KNan
  | inr s => KStr s
  end.

#[global] Instance pykey_countable : Countable pykey.
Proof.
  apply (inj_countable' pykey_encode pykey_decode).
  intros []; reflexivity.
Defined.

(** [for x in v]: the items a loop over [v] sees. *)
Definition py_iter (v : pyval) : res (list pyval) :=
  match v with
  | PList l => Ok l
  | PDict d => Ok (map (fun kv => PStr (fst kv)) d)
  | PStr s => Ok (map (fun c => PStr (String c EmptyString)) (chars s))
  | _ => Raise (TypeError ("'" +:+ type_name v +:+ "' object is not iterable"))
  end.

(** [urllib.parse.quote_plus] of one character. *)
Definition quote_char (c : ascii) : list ascii :=
  let n := nat_of_ascii c in
  let hex (d : nat) : ascii :=
    ascii_of_nat (if (d <? 10)%nat then 48 + d else 55 + d) in
  let pct (b : nat) : list ascii :=
    ["%"%char; hex (b / 16)%nat; hex (b mod 16)%nat] in
  if ((48 <=? n) && (n <=? 57) || (65 <=? n) && (n <=? 90)
      || (97 <=? n) && (n <=? 122)
      || (n =? 95) || (n =? 46) || (n =? 45) || (n =? 126))%nat then [c]
  else if (n =? 32)%nat then ["+"%char]
  else if (n <? 128)%nat then pct n
  else pct (192 + n / 64)%nat ++ pct (128 + n mod 64)%nat.

Definition quote_plus (s : string) : string :=
  str_of (concat (map quote_char (chars s))).

(** [urllib.parse.urlencode] of a dict of strings and integers. *)
Fixpoint urlencode (params : list (string * string)) : string :=
  match params with
  | [] => ""
  | [(k, v)] => quote_plus k +:+ "=" +:+ quote_plus v
  | (k, v) :: rest => quote_plus k +:+ "=" +:+ quote_plus v +:+ "&" +:+ urlencode rest
  end.

Definition str_strip (s : string) : string := str_of (strip (chars s)).

(** ** The orchestrator *)

(** The browser of the two passes and the clock.  [after_date_iso t h]
    is [datetime.now(timezone.utc) - timedelta(hours=h)] in ISO format
    with a [Z] suffix, read at the [t]-th reading of the clock. *)
Record collect_env : Type := {
  helper : helper_env;
  browse_main : nat -> string -> res string;
  browse_test : nat -> string -> res string;
  after_date_iso : nat -> Z -> string;
  date_str : string;
  timestamp_str : string;
}.

(** One entry of [domain_data].  [error] is the key ["error"], absent
    until [on_error] sets it. *)
Record domain_state : Type := {
  posts : list pyval;
  pages_fetched : Z;
  status : string;
  error : option string;
  post_ids : gset pykey;
}.

(** What the closures [on_success] and [on_error] share with the body
    of [collect_wordpress_posts]. *)
Record collect_state : Type := {
  urls : list string;
  url_metadata : list (string * string * Z);
  domain_data : gmap string domain_state;
  fs_log : list fs_event;
}.

Definition set_domain (domain : string) (ds : domain_state) (s : collect_state)
  : collect_state :=
  {| urls := urls s; url_metadata := url_metadata s;
     domain_data := <[domain := ds]> (domain_data s); fs_log := fs_log s |}.

Definition emit_write (e : fs_event) (s : collect_state) : collect_state :=
  {| urls := urls s; url_metadata := url_metadata s;
     domain_data := domain_data s; fs_log := fs_log s ++ [e] |}.

Definition enqueue (item : string * string * Z) (s : collect_state)
  : collect_state :=
  {| urls := urls s ++ [item.1.1]; url_metadata := url_metadata s ++ [item];
     domain_data := domain_data s; fs_log := fs_log s |}.

Definition MAX_PAGES_PER_DOMAIN : Z := 20.

(** Stop if: no new posts, hit max pages, or got less than full page. *)
Definition should_paginate (new_count duplicate_count page_num : Z) : bool :=
  (new_count =? 100) && (duplicate_count =? 0)
  && (page_num <? MAX_PAGES_PER_DOMAIN).

Definition posts_url (domain : string) : string :=
  "https://" +:+ str_strip domain +:+ "/wp-json/wp/v2/posts".

(** The URL of one page of the dated query. *)
Definition page_url (domain after : string) (page : Z) : string :=
  posts_url domain +:+ "?" +:+
  urlencode [("after", after); ("page", pretty page); ("per_page", "100");
             ("orderby", "date"); ("order", "asc")].

(** The URL of the unfiltered probe. *)
Definition test_url (domain : string) : string :=
  posts_url domain +:+ "?" +:+
  urlencode [("page", "1"); ("per_page", "10");
             ("orderby", "date"); ("order", "desc")].

Definition domain_file (timestamp_dir domain : string) : string :=
  path_join timestamp_dir (sanitize_filename domain +:+ ".json").

(** The loop over the posts of a page.  It adds to the set as it goes,
    so the set is returned also when a post makes the loop raise. *)
Fixpoint scan_posts (items : list pyval) (ids : gset pykey)
  (new_posts : list pyval) (duplicate_count : Z)
  : res (list pyval * Z) * gset pykey :=
  match items with
  | [] => (Ok (new_posts, duplicate_count), ids)
  | post :: rest =>
      match py_get post "id" PNone with
      | Raise e => (Raise e, ids)
      | Ok post_id =>
          if truthy post_id then
            match hash_key post_id with
            | None =>
                (Raise (TypeError ("unhashable type: '" +:+ type_name post_id +:+ "'")),
                 ids)
            | Some k =>
                if decide (k ∈ ids)
                then scan_posts rest ids new_posts (duplicate_count + 1)
                else scan_posts rest ({[k]} ∪ ids) (new_posts ++ [post])
                       duplicate_count
            end
          else scan_posts rest ids new_posts duplicate_count
      end
  end.

Section Collect.

Variable env : collect_env.
Variable hours_ago : Z.
Variable debug_mode : bool.

Definition timestamp_dir : string :=
  path_join (path_join "wordpress_posts" (date_str env)) (timestamp_str env).

Definition build_domain_urls (domains : list string)
  : list (string * string * Z) :=
  let after_date_iso := after_date_iso env 0 hours_ago in
  map (fun domain => (page_url domain after_date_iso 1, domain, 1)) domains.

(** The callback of the main pass.  [domain_data] has an entry for
    every domain of [url_metadata]; the entry is looked up once, before
    the loop over the posts.  Printing is not represented. *)
Definition on_success (url : string) (data : pyval) (index : nat)
  (s : collect_state) : res unit * collect_state :=
  match url_metadata s !! index with
  | None => (Raise (IndexError "list index out of range"), s)
  | Some (_, domain, page_num) =>
      match py_iter data with
      | Raise e => (Raise e, s)
      | Ok items =>
          match domain_data s !! domain with
          | None => (Raise (KeyError domain), s)
          | Some ds =>
              match scan_posts items (post_ids ds) [] 0 with
              | (Raise e, ids) =>
                  (Raise e,
                   set_domain domain
                     {| posts := posts ds; pages_fetched := pages_fetched ds;
                        status := status ds; error := error ds;
                        post_ids := ids |} s)
              | (Ok (new_posts, duplicate_count), ids) =>
                  (* Store only new posts *)
                  let ds' :=
                    {| posts := posts ds ++ new_posts; pages_fetched := page_num;
                       status := status ds; error := error ds;
                       post_ids := ids |} in
                  let s1 := set_domain domain ds' s in
                  (* Save to file immediately *)
                  let s2 :=
                    match posts ds' with
                    | [] => s1
                    | _ :: _ =>
                        emit_write (Write (domain_file timestamp_dir domain)
                                          (FJson (PList (posts ds')))) s1
                    end in
                  if should_paginate (Z.of_nat (length new_posts))
                       duplicate_count page_num then
                    let after_date_iso := after_date_iso env (S index) hours_ago in
                    let next_page := page_num + 1 in
                    let next_url := page_url domain after_date_iso next_page in
                    (Ok tt, enqueue (next_url, domain, next_page) s2)
                  else (Ok tt, s2)
              end
          end
      end
  end.

Definition on_error (url error_text : string) (content : option string)
  (index : nat) (s : collect_state) : res unit * collect_state :=
  match url_metadata s !! index with
  | None => (Raise (IndexError "list index out of range"), s)
  | Some (_, domain, page_num) =>
      match domain_data s !! domain with
      | None => (Raise (KeyError domain), s)
      | Some ds =>
          (Ok tt,
           set_domain domain
             {| posts := posts ds; pages_fetched := pages_fetched ds;
                status := "error"; error := Some error_text;
                post_ids := post_ids ds |} s)
      end
  end.

(** The lines of the domains file that name a domain. *)
Definition read_domains (lines : list string) : list string :=
  omap (fun line =>
          let d := strip (chars line) in
          if negb (String.eqb (str_of d) "") && negb (startswith (chars "#") d)
          then Some (str_of d) else None) lines.

Definition initial_state (domains : list string) : collect_state :=
  let url_metadata := build_domain_urls domains in
  {| urls := map (fun item => item.1.1) url_metadata;
     url_metadata := url_metadata;
     domain_data :=
       list_to_map
         (map (fun domain =>
                 (domain, {| posts := []; pages_fetched := 0;
                             status := "pending"; error := None;
                             post_ids := ∅ |})) domains);
     fs_log := [] |}.

(** The main pass: every page of the dated query.  A domain adds at
    most [MAX_PAGES_PER_DOMAIN] items to the list.  The collector is
    described on a file system that takes every write ([writes_ok]):
    its directories can be made and its files written. *)
Definition main_pass (domains : list string)
  : option (res (list fetch_result) * collect_state) :=
  fetch_json_from_urls (helper env) (browse_main env) urls
    (writes_ok emit_write) (Some "debug_pages") debug_mode (Some on_success) (Some on_error)
    (S (Z.to_nat MAX_PAGES_PER_DOMAIN * length domains))
    (initial_state domains).

(** ** Results, diagnostics and summary *)

Definition option_str (o : option string) : pyval :=
  match o with Some x => PStr x | None => PNone end.

(** The record of one domain in the summary, before its file is saved. *)
Definition result_of (domain : string) (data : domain_state) : list (string * pyval) :=
  [("domain", PStr domain);
   ("status", PStr (match posts data with
                    | [] => status data
                    | _ :: _ => "success"
                    end));
   ("article_count", PInt (Z.of_nat (length (posts data))));
   ("pages_fetched", PInt (pages_fetched data));
   ("error_message", option_str (error data));
   ("file_path", PNone)].

Record final_state : Type := {
  results : list pyval;
  sites_needing_testing : list string;
  final_log : list fs_event;
}.

(** The body of the loop that saves the posts and builds the summary. *)
Definition finalize_domain (dd : gmap string domain_state) (domain : string)
  (acc : res final_state) : res final_state :=
  let* f := acc in
  match dd !! domain with
  | None => Raise (KeyError domain)
  | Some data =>
      let result := result_of domain data in
      match posts data with
      | _ :: _ =>
          let filepath := domain_file timestamp_dir domain in
          Ok {| results :=
                  results f ++
                  [PDict (dict_set "status" (PStr "success")
                            (dict_set "file_path" (PStr filepath) result))];
                sites_needing_testing := sites_needing_testing f;
                final_log :=
                  final_log f ++ [Write filepath (FJson (PList (posts data)))] |}
      | [] =>
          if negb (truthy (option_str (error data))) then
            Ok {| results :=
                    results f ++
                    [PDict (dict_set "error_message"
                              (PStr "No articles found in timeframe") result)];
                  sites_needing_testing := sites_needing_testing f ++ [domain];
                  final_log := final_log f |}
          else
            Ok {| results := results f ++ [PDict result];
                  sites_needing_testing := sites_needing_testing f;
                  final_log := final_log f |}
      end
  end.

Definition finalize (domains : list string) (s : collect_state) : res final_state :=
  foldl (fun acc domain => finalize_domain (domain_data s) domain acc)
        (Ok {| results := []; sites_needing_testing := [];
               final_log := fs_log s |})
        domains.

(** What the closures of the diagnostic pass share. *)
Record test_state : Type := {
  test_urls : list string;
  test_metadata : list (string * string);
  test_results : list (string * pyval);
  test_log : list fs_event;
}.

Definition test_emit (e : fs_event) (t : test_state) : test_state :=
  {| test_urls := test_urls t; test_metadata := test_metadata t;
     test_results := test_results t; test_log := test_log t ++ [e] |}.

Definition set_test_result (domain : string) (r : pyval) (t : test_state)
  : test_state :=
  {| test_urls := test_urls t; test_metadata := test_metadata t;
     test_results := dict_set domain r (test_results t);
     test_log := test_log t |}.

Definition on_test_success (url : string) (data : pyval) (index : nat)
  (t : test_state) : res unit * test_state :=
  match test_metadata t !! index with
  | None => (Raise (IndexError "list index out of range"), t)
  | Some (_, domain) =>
      let article_count :=
        match data with
        | PList l => Z.of_nat (length l)
        | _ => 0
        end in
      (Ok tt,
       set_test_result domain
         (PDict [("has_json_api", PBool true);
                 ("articles_found", PInt article_count);
                 ("note", PStr ("Site has JSON API but returned no articles in the "
                                +:+ pretty hours_ago +:+ "h timeframe"))]) t)
  end.

Definition on_test_error (url error_text : string) (content : option string)
  (index : nat) (t : test_state) : res unit * test_state :=
  match test_metadata t !! index with
  | None => (Raise (IndexError "list index out of range"), t)
  | Some (_, domain) =>
      (Ok tt,
       set_test_result domain
         (PDict [("has_json_api", PBool false);
                 ("articles_found", PInt 0);
                 ("error", PStr error_text);
                 ("note", PStr "Site does not provide JSON API or has access restrictions")])
         t)
  end.

Definition test_state_of (sites : list string) (log : list fs_event) : test_state :=
  {| test_urls := map test_url sites;
     test_metadata := map (fun domain => (test_url domain, domain)) sites;
     test_results := [];
     test_log := log |}.

Definition test_pass (sites : list string) (log : list fs_event)
  : option (res (list fetch_result) * test_state) :=
  fetch_json_from_urls (helper env) (browse_test env) test_urls
    (writes_ok test_emit) (Some "debug_pages") debug_mode (Some on_test_success) (Some on_test_error)
    (S (length sites)) (test_state_of sites log).

Definition untested_note : pyval :=
  PDict [("has_json_api", PNone); ("articles_found", PInt 0);
         ("note", PStr "Test was not completed")].

(** [site_notes], built from [test_results]. *)
Definition build_site_notes (sites : list string) (results : list (string * pyval))
  : list (string * pyval) :=
  foldl (fun notes domain =>
           dict_set domain (default untested_note (dict_lookup domain results)) notes)
        [] sites.

(** What a run leaves behind. *)
Record collect_report : Type := {
  report_state : collect_state;          (* after the main pass *)
  report_tested : list string;           (* [sites_needing_testing] *)
  report_test_urls : list string;        (* the requests of the diagnostic pass *)
  report_site_notes : list (string * pyval);
  report_summary : pyval;
  report_log : list fs_event;            (* every file written, in order *)
}.

Inductive collect_outcome : Type :=
| DomainsFileMissing
| Collected (r : collect_report).

Definition summary_path : string := path_join timestamp_dir "_collection_summary.json".
Definition notes_path : string := path_join timestamp_dir "wordpress-site-notes.json".

(** The run, given the lines of the domains file.  [None] only if a
    pass ran out of turns. *)
Definition collect_wordpress_posts (domains_file : option (list string))
  : option (res collect_outcome) :=
  match domains_file with
  | None => Some (Ok DomainsFileMissing)
  | Some lines =>
      let domains := read_domains lines in
      match main_pass domains with
      | None => None
      | Some (Raise e, _) => Some (Raise e)
      | Some (Ok _, s) =>
          match finalize domains s with
          | Raise e => Some (Raise e)
          | Ok f =>
              let sites := sites_needing_testing f in
              let tested :=
                match sites with
                | [] => Some (Ok [], final_log f)
                | _ :: _ =>
                    match test_pass sites (final_log f) with
                    | None => None
                    | Some (Raise e, t) => Some (Raise e, test_log t)
                    | Some (Ok _, t) =>
                        Some (Ok (build_site_notes sites (test_results t)),
                              test_log t)
                    end
                end in
              match tested with
              | None => None
              | Some (Raise e, _) => Some (Raise e)
              | Some (Ok site_notes, log) =>
                  let log1 :=
                    match site_notes with
                    | [] => log
                    | _ :: _ => log ++ [Write notes_path (FJson (PDict site_notes))]
                    end in
                  let summary :=
                    PDict [("collection_timestamp", PStr (timestamp_str env));
                           ("collection_date", PStr (date_str env));
                           ("hours_ago", PInt hours_ago);
                           ("results", PList (results f))] in
                  Some (Ok (Collected
                    {| report_state := s;
                       report_tested := sites;
                       report_test_urls := map test_url sites;
                       report_site_notes := site_notes;
                       report_summary := summary;
                       report_log := log1 ++ [Write summary_path (FJson summary)] |}))
              end
          end
      end
  end.

End Collect.

(** * normalize_news.py *)

(** The collaborators of the normaliser.  [markdownify] is called with
    [heading_style="ATX"]; [netloc url] is [urlparse(url).netloc];
    [date_timestamp s] is [int(parse_date(s).timestamp())]; [int_of_str]
    is [int] on a [str] ([None]: [ValueError]); [repr_of] is [str] on
    the values that are not rendered below; [makedirs p] is
    [os.makedirs(p, exist_ok=True)], which returns or raises;
    [can_write p] tells whether the file [p] can be opened and written
    in this run, [write_error p] is the text of the exception when it
    cannot, and [write_leaves p] is what the failed attempt leaves at
    [p]: nothing when the file could not be opened, and else the part
    written before [json.dump] raised; [now_iso] is the time of the
    summary. *)
Record normalize_env : Type := {
  load_json : string -> option pyval;
  markdownify : pyval -> res string;
  netloc : pyval -> res string;
  date_timestamp : string -> res Z;
  int_of_str : string -> option Z;
  md5_hex : string -> string;
  repr_of : pyval -> string;
  makedirs : string -> res unit;
  can_write : string -> bool;
  write_error : string -> string;
  write_leaves : string -> option file_data;
  now_iso : string;
}.

(** [isinstance(e, cls)] on the classes the handlers of the sources
    name. *)
Definition exn_is (e : exn) (cls : string) : bool :=
  String.eqb (exn_type e) cls
  || (String.eqb cls "ValueError" && String.eqb (exn_type e) "JSONDecodeError").

(** [v[k]] on a value used as a [dict]. *)
Definition py_getitem_str (v : pyval) (k : string) : res pyval :=
  match v with
  | PDict d =>
      match dict_lookup k d with
      | Some x => Ok x
      | None => Raise (KeyError k)
      end
  | PStr _ => Raise (TypeError "string indices must be integers, not 'str'")
  | PList _ => Raise (TypeError "list indices must be integers or slices, not str")
  | _ => Raise (TypeError ("'" +:+ type_name v +:+ "' object is not subscriptable"))
  end.

(** [v[0]] *)
Definition py_getitem_0 (v : pyval) : res pyval :=
  match v with
  | PList (x :: _) => Ok x
  | PList [] => Raise (IndexError "list index out of range")
  | PStr (String c _) => Ok (PStr (String c EmptyString))
  | PStr EmptyString => Raise (IndexError "string index out of range")
  | PDict _ => Raise (Exn "KeyError" "0")
  | _ => Raise (TypeError ("'" +:+ type_name v +:+ "' object is not subscriptable"))
  end.

(** The integer part of a finite float, towards zero. *)
Definition float_trunc (neg : bool) (m : positive) (e : Z) : Z :=
  let a := if e <? 0 then Z.pos m / 2 ^ (- e) else Z.pos m * 2 ^ e in
  if neg then - a else a.

(** The pattern [\s*\n{2,}\s*]. *)
Definition blank_lines : Re.regex :=
  Re.Seq (Re.Star Re.Space)
    (Re.Seq (Re.Rep (Re.Chr newline) 2) (Re.Star Re.Space)).

(** [re.sub(r'\s*\n{2,}\s*', '\n\n', text).strip()] *)
Definition tidy (text : string) : string :=
  str_of (strip (Re.sub blank_lines [newline; newline] (chars text))).

Section Normalize.

Variable env : normalize_env.

(** [str(v)], as an f-string renders [v]. *)
Definition py_str (v : pyval) : string :=
  match v with
  | PNone => "None"
  | PBool true => "True"
  | PBool false => "False"
  | PInt z => pretty z
  | PStr s => s
  | _ => repr_of env v
  end.

(** [int(v)] *)
Definition py_int (v : pyval) : res Z :=
  match v with
  | PInt z => Ok z
  | PBool b => Ok (if b then 1 else 0)
  | PFloat (S754_zero _) => Ok 0
  | PFloat (S754_finite neg m e) => Ok (float_trunc neg m e)
  | PFloat (S754_infinity _) =>
      Raise (Exn "OverflowError" "cannot convert float infinity to integer")
  | PFloat S754_nan => Raise (ValueError "cannot convert float NaN to integer")
  | PStr s =>
      match int_of_str env s with
      | Some z => Ok z
      | None =>
          Raise (ValueError ("invalid literal for int() with base 10: "
                             +:+ repr_of env v))
      end
  | _ =>
      Raise (TypeError ("int() argument must be a string, a bytes-like object "
                        +:+ "or a real number, not '" +:+ type_name v +:+ "'"))
  end.

(** [obj['rendered'] if isinstance(obj, dict) else obj] *)
Definition rendered (obj : pyval) : res pyval :=
  match obj with
  | PDict _ => py_getitem_str obj "rendered"
  | _ => Ok obj
  end.

(** The body of the [try] of [normalize_article]: the required fields,
    or the message of the validation. *)
Definition required_fields (article : list (string * pyval))
  (article_identifier : pyval) (collection_timestamp : pyval)
  : res (pyval * pyval * string * string * Z + string) :=
  let* url := py_getitem_str (PDict article) "link" in
  let title_obj := default (PDict []) (dict_lookup "title" article) in
  let* title := rendered title_obj in
  let content_obj := default (PDict []) (dict_lookup "content" article) in
  let* html_content := rendered content_obj in
  let* article_text := markdownify env html_content in
  let article_text := tidy article_text in
  let* source_domain := netloc env url in
  let* first_seen_timestamp_gmt := py_int collection_timestamp in
  if truthy url && truthy title && truthy (PStr article_text)
     && truthy (PStr source_domain) && truthy (PInt first_seen_timestamp_gmt)
  then Ok (inl (url, title, article_text, source_domain, first_seen_timestamp_gmt))
  else Ok (inr ("Missing required field for article: " +:+ py_str article_identifier)).

(** [article.get('date_gmt', '') + 'Z' if article.get('date_gmt') else None] *)
Definition publication_date_of (article : list (string * pyval))
  : res (option string) :=
  let date_gmt := default PNone (dict_lookup "date_gmt" article) in
  if truthy date_gmt then
    match date_gmt with
    | PStr s => Ok (Some (s +:+ "Z"))
    | _ =>
        Raise (TypeError ("unsupported operand type(s) for +: '"
                          +:+ type_name date_gmt +:+ "' and 'str'"))
    end
  else Ok None.

(** [article.get('_links', {}).get('wp:featuredmedia', [{}])[0].get('href')] *)
Definition image_url_of (article : list (string * pyval)) : res pyval :=
  let links := default (PDict []) (dict_lookup "_links" article) in
  let* media := py_get links "wp:featuredmedia" (PList [PDict []]) in
  let* first := py_getitem_0 media in
  py_get first "href" PNone.

Definition excerpt_of (article : list (string * pyval)) : res string :=
  let excerpt_obj := default (PDict []) (dict_lookup "excerpt" article) in
  let raw_excerpt :=
    match excerpt_obj with
    | PDict d => default PNone (dict_lookup "rendered" d)
    | _ => excerpt_obj
    end in
  if truthy raw_excerpt then
    let* excerpt := markdownify env raw_excerpt in
    Ok (tidy excerpt)
  else Ok "".

(** A post and the collection timestamp to the pair
    [(normalized_data, error_message)]. *)
Definition normalize_article (article : list (string * pyval))
  (collection_timestamp : pyval) : res (option pyval * option string) :=
  let article_identifier :=
    default (PStr ("ID: " +:+ py_str (default (PStr "N/A") (dict_lookup "id" article))))
            (dict_lookup "link" article) in
  match required_fields article article_identifier collection_timestamp with
  | Raise e =>
      if exn_is e "KeyError" || exn_is e "TypeError" then
        Ok (None,
            Some ("Error processing required fields for article "
                  +:+ py_str article_identifier +:+ ": " +:+ exn_type e
                  +:+ " - " +:+ exn_msg e))
      else Raise e
  | Ok (inr error_msg) => Ok (None, Some error_msg)
  | Ok (inl (url, title, article_text, source_domain, first_seen_timestamp_gmt)) =>
      let* publication_date := publication_date_of article in
      let* publication_timestamp_gmt :=
        match publication_date with
        | Some d =>
            match date_timestamp env d with
            | Ok t => Ok (PInt t)
            | Raise e =>
                if exn_is e "ValueError" || exn_is e "TypeError"
                then Ok PNone else Raise e
            end
        | None => Ok PNone
        end in
      let* image_url := image_url_of article in
      let* excerpt := excerpt_of article in
      Ok (Some (PDict
            [("url", url);
             ("title", title);
             ("article_text", PStr article_text);
             ("source_domain", PStr source_domain);
             ("first_seen_timestamp_gmt", PInt first_seen_timestamp_gmt);
             ("publication_date", option_str publication_date);
             ("publication_timestamp_gmt", publication_timestamp_gmt);
             ("author", PNone);
             ("keywords", PList []);
             ("image_url", image_url);
             ("excerpt", PStr excerpt);
             ("metadata",
              PDict [("wp_post_id", default PNone (dict_lookup "id" article));
                     ("wp_post_type", default PNone (dict_lookup "type" article))])]),
          None)
  end.

(** ** The batch *)

Record stats : Type := {
  files_processed : Z;
  articles_new : Z;
  articles_skipped : Z;
  errors : Z;
  errors_list : list string;
}.

Definition add_error (msg : string) (st : stats) : stats :=
  {| files_processed := files_processed st; articles_new := articles_new st;
     articles_skipped := articles_skipped st; errors := errors st + 1;
     errors_list := errors_list st ++ [msg] |}.

Definition add_skipped (st : stats) : stats :=
  {| files_processed := files_processed st; articles_new := articles_new st;
     articles_skipped := articles_skipped st + 1; errors := errors st;
     errors_list := errors_list st |}.

Definition add_new (st : stats) : stats :=
  {| files_processed := files_processed st; articles_new := articles_new st + 1;
     articles_skipped := articles_skipped st; errors := errors st;
     errors_list := errors_list st |}.

Definition add_file (st : stats) : stats :=
  {| files_processed := files_processed st + 1; articles_new := articles_new st;
     articles_skipped := articles_skipped st; errors := errors st;
     errors_list := errors_list st |}.

(** [output_dir/source_domain/md5(url).json] *)
Definition article_path (output_dir source_domain url : string) : string :=
  path_join (path_join output_dir source_domain) (md5_hex env url +:+ ".json").

(** The files after [open(p, 'w')] and a [json.dump] that raised. *)
Definition failed_write (p : string) (out : gmap string file_data)
  : gmap string file_data :=
  match write_leaves env p with
  | Some part => <[p := part]> out
  | None => out
  end.

(** The body of [for article in articles].  The statistics and the
    output files are the state; an exception leaves the loop. *)
Definition process_article (filename output_dir : string)
  (collection_timestamp : pyval) (article : pyval)
  (acc : stats * gmap string file_data) : res (stats * gmap string file_data) :=
  let '(st, out) := acc in
  match article with
  | PDict d =>
      let* (normalized_article, error) := normalize_article d collection_timestamp in
      match error, normalized_article with
      | Some msg, _ => Ok (add_error msg st, out)
      | None, Some (PDict fields) =>
          match dict_lookup "url" fields, dict_lookup "source_domain" fields with
          | Some (PStr url), Some (PStr source_domain) =>
              let domain_dir := path_join output_dir source_domain in
              let* _ := makedirs env domain_dir in
              let output_filepath := article_path output_dir source_domain url in
              (* Deduplication: skip if file already exists *)
              match out !! output_filepath with
              | Some _ => Ok (add_skipped st, out)
              | None =>
                  if can_write env output_filepath
                  then Ok (add_new st,
                           <[output_filepath := FJson (PDict fields)]> out)
                  else Ok (add_error ("Error writing file for article " +:+ url
                                      +:+ ": " +:+ write_error env output_filepath)
                                     st,
                           failed_write output_filepath out)
              end
          | Some url, _ => Raise (AttributeError url "encode")
          | None, _ => Raise (KeyError "url")
          end
      | None, _ => Raise (TypeError "'NoneType' object is not subscriptable")
      end
  | _ =>
      Ok (add_error ("Skipping item in " +:+ filename
                     +:+ " because it's not a dictionary. Item: "
                     +:+ str_of (slice (chars (py_str article)) 0 150)) st,
          out)
  end.

Fixpoint process_articles (filename output_dir : string)
  (collection_timestamp : pyval) (articles : list pyval)
  (acc : stats * gmap string file_data) : res (stats * gmap string file_data) :=
  match articles with
  | [] => Ok acc
  | article :: rest =>
      let* acc' := process_article filename output_dir collection_timestamp article acc in
      process_articles filename output_dir collection_timestamp rest acc'
  end.

(** The files of the source directory the batch reads. *)
Definition is_raw_file (filename : string) : bool :=
  endswith (chars ".json") (chars filename)
  && negb (String.eqb filename "_collection_summary.json")
  && negb (String.eqb filename "_normalization_summary.json").

(** The body of [for filename in os.listdir(source_dir)]. *)
Definition process_file (output_dir : string) (collection_timestamp : pyval)
  (entry : string * string) (acc : stats * gmap string file_data)
  : res (stats * gmap string file_data) :=
  let '(filename, text) := entry in
  if negb (is_raw_file filename) then Ok acc
  else
    let '(st, out) := acc in
    let st := add_file st in
    match load_json env text with
    | Some (PList articles) =>
        process_articles filename output_dir collection_timestamp articles (st, out)
    | _ =>
        Ok (add_error ("Error decoding JSON or file is not a list of articles: "
                       +:+ filename) st, out)
    end.

Fixpoint process_files (output_dir : string) (collection_timestamp : pyval)
  (listing : list (string * string)) (acc : stats * gmap string file_data)
  : res (stats * gmap string file_data) :=
  match listing with
  | [] => Ok acc
  | entry :: rest =>
      let* acc' := process_file output_dir collection_timestamp entry acc in
      process_files output_dir collection_timestamp rest acc'
  end.

Definition stats_value (st : stats) : pyval :=
  PDict [("files_processed", PInt (files_processed st));
         ("articles_new", PInt (articles_new st));
         ("articles_skipped", PInt (articles_skipped st));
         ("errors", PInt (errors st));
         ("errors_list", PList (map PStr (errors_list st)))].

Inductive normalize_outcome : Type :=
| SourceDirMissing
| SummaryMissing
| Normalized (st : stats) (out : gmap string file_data) (summary : pyval).

(** [source_dir] is [None] when it is not a directory, and else its
    entries with their texts, in the order of [os.listdir]; [out] holds
    the files under [output_dir].  The summary of the run is written
    into the source directory and is returned as [summary]. *)
Definition process_collection_directory
  (source_dir : option (list (string * string))) (output_dir : string)
  (out : gmap string file_data) : res normalize_outcome :=
  match source_dir with
  | None => Ok SourceDirMissing
  | Some listing =>
      match list_find (fun e => e.1 = "_collection_summary.json") listing with
      | None => Ok SummaryMissing
      | Some (_, (_, text)) =>
          match load_json env text with
          | None => Raise (Exn "JSONDecodeError" "")
          | Some collection_summary =>
              let* collection_timestamp :=
                py_getitem_str collection_summary "collection_timestamp" in
              let* (st, out') :=
                process_files output_dir collection_timestamp listing
                  ({| files_processed := 0; articles_new := 0;
                      articles_skipped := 0; errors := 0; errors_list := [] |},
                   out) in
              Ok (Normalized st out'
                    (PDict [("timestamp", PStr (now_iso env));
                            ("source", PStr "wordpress");
                            ("statistics", stats_value st)]))
          end
      end
  end.

End Normalize.

(** * Vocabulary of the specification *)

(** ** Extractor *)

(** Splitting off a tag body and its ['>']: at least one character
    other than ['>'], then ['>']. *)
Fixpoint skip_to_gt (s : list ascii) : option (list ascii) :=
  match s with
  | [] => None
  | c :: s' => if Ascii.eqb c ">" then Some s' else skip_to_gt s'
  end.

Definition body_split (s : list ascii) : option (list ascii) :=
  match s with
  | c :: s' => if Ascii.eqb c ">" then None else skip_to_gt s'
  | [] => None
  end.

(** What follows a tag at the start of [s], if there is one. *)
Definition tag_split (s : list ascii) : option (list ascii) :=
  match s with
  | c :: s' => if Ascii.eqb c "<" then body_split s' else None
  | [] => None
  end.

(** What follows a closing tag at the start of [s], if there is one. *)
Definition close_split (s : list ascii) : option (list ascii) :=
  match s with
  | c :: d :: s' =>
      if Ascii.eqb c "<" && Ascii.eqb d "/" then body_split s' else None
  | _ => None
  end.

(** [s] without the tags it starts with. *)
Fixpoint drop_tags (fuel : nat) (s : list ascii) : list ascii :=
  match fuel with
  | O => s
  | S fuel' =>
      match tag_split s with
      | Some s' => drop_tags fuel' s'
      | None => s
      end
  end.

(** [s] is one closing tag or more, then nothing but whitespace. *)
Fixpoint closing_tail (fuel : nat) (s : list ascii) : bool :=
  match fuel with
  | O => false
  | S fuel' =>
      match close_split s with
      | Some s' => forallb is_space s' || closing_tail fuel' s'
      | None => false
      end
  end.

(** [s] without the closing tags (and the whitespace after them) it
    ends with. *)
Fixpoint drop_closing_tail (s : list ascii) : list ascii :=
  if closing_tail (length s) s then []
  else match s with
       | c :: s' => c :: drop_closing_tail s'
       | [] => []
       end.

(** The extractor as the specification words it: the marker is looked
    for at the start of the content, and the tags are stripped from the
    start and from the end of the content. *)
Definition extract_as_specified (env : helper_env) (content : string) : res pyval :=
  match json_loads env content with
  | Some v => Ok v
  | None =>
      let c := chars content in
      let retry :=
        if startswith (chars "<html") c || startswith (chars "<!DOCTYPE") c
        then json_loads env
               (str_of (strip (drop_closing_tail (drop_tags (length c) c))))
        else None in
      match retry with
      | Some v => Ok v
      | None => extract_span env c
      end
  end.

Definition open_tag (body : list ascii) : list ascii := "<"%char :: body ++ [">"%char].

Definition close_tag (body : list ascii) : list ascii :=
  "<"%char :: "/"%char :: body ++ [">"%char].

(** A JSON text between opening tags and closing tags. *)
Definition wrap (opens closes : list (list ascii)) (json_text : list ascii)
  : list ascii :=
  concat (map open_tag opens) ++ json_text ++ concat (map close_tag closes).

(** A tag body as the patterns see it: not empty, without ['>']. *)
Definition tag_body (b : list ascii) : bool :=
  match b with
  | [] => false
  | _ :: _ => forallb (fun c => negb (Ascii.eqb c ">")) b
  end.

(** A character of a plain tag body: no angle bracket, square bracket,
    brace or newline. *)
Definition is_plain (c : ascii) : bool :=
  negb (Ascii.eqb c "<" || Ascii.eqb c ">" || Ascii.eqb c "[" || Ascii.eqb c "]"
        || Ascii.eqb c "{" || Ascii.eqb c "}" || is_newline c).

Definition plain_body (b : list ascii) : bool :=
  match b with
  | [] => false
  | _ :: _ => forallb is_plain b
  end.

(** ["</"] occurs in [s]. *)
Fixpoint has_closer (s : list ascii) : bool :=
  match s with
  | a :: s' =>
      match s' with
      | b :: _ => Ascii.eqb a "<" && Ascii.eqb b "/" || has_closer s'
      | [] => false
      end
  | [] => false
  end.

(** A ['<'] stands at the start of a line of [s]; [bol] tells whether
    [s] itself starts a line. *)
Fixpoint tag_at_line_start (bol : bool) (s : list ascii) : bool :=
  match s with
  | c :: s' => bol && Ascii.eqb c "<" || tag_at_line_start (is_newline c) s'
  | [] => false
  end.

(** The continuation that ends a match. *)
Definition accept : Re.cont := fun _ rest => Some rest.

(** The parts of the two tag patterns: [[^>]+>], [<[^>]+>] and
    [</[^>]+>], and what follows the closing tags. *)
Definition body_then_gt : Re.regex :=
  Re.Seq (Re.Plus (Re.NotChr ">")) (Re.Chr ">").

Definition one_tag : Re.regex := Re.Seq (Re.Chr "<") body_then_gt.

Definition one_closing_tag : Re.regex :=
  Re.Seq (Re.Chr "<") (Re.Seq (Re.Chr "/") body_then_gt).

Definition space_to_eol : Re.cont :=
  fun b s => Re.m (Re.Seq (Re.Star Re.Space) Re.Eol) b s accept.

(** Whether the position after [pre] starts a line, when the position
    before it does according to [bol]. *)
Fixpoint bol_after (bol : bool) (pre : list ascii) : bool :=
  match pre with
  | [] => bol
  | c :: pre' => bol_after (is_newline c) pre'
  end.

(** A character of a plain tag, its angle brackets and slash included. *)
Definition wrapper_char (c : ascii) : bool :=
  negb (Ascii.eqb c "[" || Ascii.eqb c "]" || Ascii.eqb c "{" || Ascii.eqb c "}"
        || is_newline c).

(** A page whose array runs over two lines, the second one starting
    with a tag. *)
Definition page_in_lines : string :=
  String.append "<html><body>[1,"
    (String newline "<br>2]</body></html>").



(** ** Collector *)

(** The identifier [on_success] recognises in a post: the value under
    ["id"] when it is truthy, as the member of [post_ids] it is. *)
Definition post_key (post : pyval) : option pykey :=
  match post with
  | PDict d =>
      let post_id := default PNone (dict_lookup "id" d) in
      if truthy post_id then hash_key post_id else None
  | _ => None
  end.

(** A post without identifier: a [dict] whose ["id"] is missing or
    falsy. *)
Definition lacks_id (post : pyval) : Prop :=
  exists d, post = PDict d /\ truthy (default PNone (dict_lookup "id" d)) = false.

(** The members of [post_ids] a page contributes. *)
Definition page_keys (items : list pyval) : gset pykey :=
  list_to_set (omap post_key items).

(** Every value under ["id"] in a page, truthy or not, as a member of
    a set. *)
Definition page_id_values (items : list pyval) : gset pykey :=
  list_to_set
    (omap (fun post =>
             match post with
             | PDict d => mbind hash_key (dict_lookup "id" d)
             | _ => None
             end) items).

(** The batch against the identifiers seen before it.  A post with an
    identifier is new when the identifier was not seen and no earlier
    post of the batch has it, so the new posts are as many as the
    identifiers of the batch that were not seen; every other post with
    an identifier is a duplicate. *)
Definition batch_new_count (items : list pyval) (seen : gset pykey) : Z :=
  Z.of_nat (size (page_keys items ∖ seen)).

Definition batch_duplicate_count (items : list pyval) (seen : gset pykey) : Z :=
  Z.of_nat (length (omap post_key items)) - batch_new_count items seen.

(** The item [item] is added at the end of the work list. *)
Definition enqueued (s s' : collect_state) (item : string * string * Z) : Prop :=
  url_metadata s' = url_metadata s ++ [item] /\ urls s' = urls s ++ [item.1.1].

(** The work list is left as it is. *)
Definition same_worklist (s s' : collect_state) : Prop :=
  url_metadata s' = url_metadata s /\ urls s' = urls s.

(** The state a successful scan leads to, before the decision on the
    next page. *)
Definition stored (env : collect_env) (s : collect_state) (domain : string)
  (ds : domain_state) (page_num : Z) (new_posts : list pyval)
  (ids : gset pykey) : collect_state :=
  let ds' := {| posts := posts ds ++ new_posts; pages_fetched := page_num;
                status := status ds; error := error ds; post_ids := ids |} in
  let s1 := set_domain domain ds' s in
  match posts ds' with
  | [] => s1
  | _ :: _ =>
      emit_write (Write (domain_file (timestamp_dir env) domain)
                        (FJson (PList (posts ds')))) s1
  end.

(** ** The main pass *)

(** The turns an item of the work list can still cause: page 20 one
    turn, page 19 two, and so on. *)
Definition item_weight (item : string * string * Z) : nat :=
  Z.to_nat (MAX_PAGES_PER_DOMAIN + 1 - item.2).

(** The work left when the loop is at item [i]. *)
Definition work_left (i : nat) (s : collect_state) : nat :=
  sum_list_with item_weight (drop i (url_metadata s)).

(** The two lists of the work list go together, no item is beyond the
    page cap, and every domain has its entry. *)
Definition well_formed (domains : list string) (s : collect_state) : Prop :=
  urls s = map (fun item => item.1.1) (url_metadata s)
  /\ Forall (fun item => item.2 <= MAX_PAGES_PER_DOMAIN /\ item.1.2 ∈ domains)
            (url_metadata s)
  /\ forall d, d ∈ domains -> is_Some (domain_data s !! d).

(** Every stored post is in a list written to the file of its domain. *)
Definition logged (env : collect_env) (s : collect_state) : Prop :=
  forall d ds p,
    domain_data s !! d = Some ds -> p ∈ posts ds ->
    exists l, Write (domain_file (timestamp_dir env) d) (FJson (PList l)) ∈ fs_log s
              /\ p ∈ l.

(** ** Results and diagnostics *)

(** A domain goes to the diagnostic pass: it has no stored post and the
    error message recorded for it, if any, is empty. *)
Definition needs_testing (dd : gmap string domain_state) (domain : string) : bool :=
  match dd !! domain with
  | Some data =>
      match posts data with
      | [] => negb (truthy (option_str (error data)))
      | _ :: _ => false
      end
  | None => false
  end.

(** The file the final loop writes for a domain with stored posts. *)
Definition final_write (env : collect_env) (dd : gmap string domain_state)
  (domain : string) : option fs_event :=
  match dd !! domain with
  | Some data =>
      match posts data with
      | [] => None
      | _ :: _ =>
          Some (Write (domain_file (timestamp_dir env) domain)
                      (FJson (PList (posts data))))
      end
  | None => None
  end.

(** The [i]-th request of the diagnostic pass: the parsed page, or the
    exception of the browser or of the extractor. *)
Definition probe (env : collect_env) (i : nat) (domain : string) : res pyval :=
  let* content := browse_test env i (test_url domain) in
  extract_json_from_content (helper env) content.

(** The record of [test_results] after that request. *)
Definition probe_note (env : collect_env) (hours_ago : Z) (i : nat)
  (domain : string) : pyval :=
  match probe env i domain with
  | Ok data =>
      PDict [("has_json_api", PBool true);
             ("articles_found",
              PInt (match data with PList l => Z.of_nat (length l) | _ => 0 end));
             ("note", PStr ("Site has JSON API but returned no articles in the "
                            +:+ pretty hours_ago +:+ "h timeframe"))]
  | Raise e =>
      PDict [("has_json_api", PBool false);
             ("articles_found", PInt 0);
             ("error", PStr (exn_msg e));
             ("note", PStr "Site does not provide JSON API or has access restrictions")]
  end.

(** [test_results] after the first [n] requests. *)
Definition probe_results (env : collect_env) (hours_ago : Z)
  (sites : list string) (n : nat) : list (string * pyval) :=
  foldl (fun acc id => dict_set id.2 (probe_note env hours_ago id.1 id.2) acc)
        [] (take n (imap pair sites)).

(** * Reference collaborators and scenarios *)

Definition ref_helper : helper_env :=
  {| json_loads := Json.loads; json_error := fun _ => "Expecting value" |}.

(** A field of a diagnostics record. *)
Definition note_field (k : string) (note : pyval) : option pyval :=
  match note with
  | PDict d => dict_lookup k d
  | _ => None
  end.

(** A collector whose browser answers every request of the main pass
    with [main] and every request of the diagnostic pass with [test]. *)
Definition two_pass_env (main test : res string) : collect_env :=
  {| helper := ref_helper;
     browse_main := fun _ _ => main;
     browse_test := fun _ _ => test;
     after_date_iso := fun _ _ => "2024-01-01T00:00:00Z";
     date_str := "2024-01-03";
     timestamp_str := "1704240000" |}.

(** A collector whose browser answers every request with [page]. *)
Definition const_env (page : res string) : collect_env :=
  {| helper := ref_helper;
     browse_main := fun _ _ => page;
     browse_test := fun _ _ => page;
     after_date_iso := fun _ _ => "2024-01-01T00:00:00Z";
     date_str := "2024-01-03";
     timestamp_str := "1704240000" |}.

(** Posts with the identifiers [a], [a+1], ..., [a+n-1]. *)
Definition numbered_posts (a n : nat) : list pyval :=
  map (fun i => PDict [("id", PInt (Z.of_nat i))]) (seq a n).

(** The set of the identifiers [seen]. *)
Definition post_ids_of (seen : list Z) : gset pykey :=
  list_to_set (map KInt seen).

(** The state in which page [page] of ["a.com"] is item 0 of the work
    list and the identifiers [seen] are known. *)
Definition state_at (page : Z) (seen : list Z) : collect_state :=
  {| urls := ["u"];
     url_metadata := [("u", "a.com", page)];
     domain_data :=
       {[ "a.com" := {| posts := map (fun z => PDict [("id", PInt z)]) seen;
                        pages_fetched := page - 1; status := "pending";
                        error := None;
                        post_ids := post_ids_of seen |} ]};
     fs_log := [] |}.

(** ** Normaliser *)

(** The run of a later time on the same machine: the collaborators of
    [env] with another clock and another answer of the file system to
    the opening of a file for writing.  [os.makedirs(p, exist_ok=True)]
    answers as before: the directories it made are there. *)
Definition with_io (env : normalize_env) (cw : string -> bool)
  (we : string -> string) (now : string) : normalize_env :=
  {| load_json := load_json env; markdownify := markdownify env;
     netloc := netloc env; date_timestamp := date_timestamp env;
     int_of_str := int_of_str env; md5_hex := md5_hex env;
     repr_of := repr_of env; makedirs := makedirs env;
     can_write := cw; write_error := we; write_leaves := write_leaves env;
     now_iso := now |}.

(** The entries of a source directory a batch looks at: the raw files
    and the collection summary. *)
Definition raw_view (listing : list (string * string)) : list (string * string) :=
  filter (fun e => is_raw_file e.1 = true \/ e.1 = "_collection_summary.json")
         listing.

(** JSON text written with apostrophes for the quotes. *)
Definition dq (s : string) : string :=
  str_of (replace_char "'" Json.dquote (chars s)).

(** The host of an absolute URL: what lies between the two slashes and
    the next slash. *)
Fixpoint until_slash (s : list ascii) : list ascii :=
  match s with
  | c :: s' => if Ascii.eqb c "/" then [] else c :: until_slash s'
  | [] => []
  end.

Fixpoint host_of (s : list ascii) : list ascii :=
  match s with
  | a :: s' =>
      match s' with
      | b :: s'' =>
          if Ascii.eqb a "/" && Ascii.eqb b "/" then until_slash s''
          else host_of s'
      | [] => []
      end
  | [] => []
  end.

(** Collaborators to run the normaliser with: [markdownify] returns
    text as it is, [netloc] is [host_of], no date parses, [int] reads an
    integer literal, and the digest of a URL is the URL with its
    separators replaced. *)
Definition ref_normalize : normalize_env :=
  {| load_json := Json.loads;
     markdownify := fun v =>
       match v with
       | PStr s => Ok s
       | _ => Raise (TypeError "expected string or bytes-like object")
       end;
     netloc := fun v =>
       match v with
       | PStr s => Ok (str_of (host_of (chars s)))
       | PNone => Ok ""
       | _ => Raise (AttributeError v "decode")
       end;
     date_timestamp := fun _ => Raise (ValueError "Unknown string format");
     int_of_str := fun s =>
       match Json.parse_int (chars s) with
       | Some (PInt z, []) => Some z
       | _ => None
       end;
     md5_hex := sanitize_filename;
     repr_of := fun _ => "...";
     makedirs := fun _ => Ok tt;
     can_write := fun _ => true;
     write_error := fun _ => "";
     write_leaves := fun _ => None;
     now_iso := "2024-01-03T00:00:00+00:00" |}.

Definition summary_text : string :=
  dq "{'collection_timestamp': '1704240000', 'collection_date': '2024-01-03'}".

(** A post without ["link"]. *)
Definition post_without_link : list (string * pyval) :=
  [("id", PInt 5); ("title", PDict [("rendered", PStr "T")]);
   ("content", PDict [("rendered", PStr "<p>text</p>")])].

(** A post whose featured-media link list is empty. *)
Definition post_empty_media : string :=
  dq ("{'id': 7, 'link': 'https://a.com/p7', 'title': {'rendered': 'T'}, "
      +:+ "'content': {'rendered': 'text'}, "
      +:+ "'_links': {'wp:featuredmedia': []}}").

Definition post_plain (n : string) : string :=
  dq ("{'id': " +:+ n +:+ ", 'link': 'https://a.com/p" +:+ n
      +:+ "', 'title': 'T', 'content': 'text'}").

(** How the statistics of a second run ([st2] to [st2']) move along
    with those of the first run ([st] to [st']) over the same items:
    what the first run wrote or skipped the second run skips, and the
    errors are the same. *)
Definition rerun_rel (st st' st2 st2' : stats) : Prop :=
  files_processed st2' - files_processed st2
  = files_processed st' - files_processed st
  /\ articles_new st2' = articles_new st2
  /\ articles_skipped st2' - articles_skipped st2
     = (articles_new st' - articles_new st)
       + (articles_skipped st' - articles_skipped st)
  /\ errors st2' - errors st2 = errors st' - errors st
  /\ exists msgs, errors_list st' = errors_list st ++ msgs
                  /\ errors_list st2' = errors_list st2 ++ msgs.

(** A source directory with one raw file of two posts. *)
Definition two_posts (first second : string) : list (string * string) :=
  [("_collection_summary.json", summary_text);
   ("a_com.json", "[" +:+ first +:+ ", " +:+ second +:+ "]")].
(** * The rest of the sources *)

(** ** normalize_news.py: the latest collection directory *)

(** [os.listdir] and [os.path.isdir]. *)
Record dir_env : Type := {
  listdir : string -> res (list string);
  isdir : string -> bool;
}.

(** [os.path.join(a, b)] on POSIX. *)
Definition os_path_join (a b : string) : string :=
  if startswith (chars "/") (chars b) then b
  else if String.eqb a "" || endswith (chars "/") (chars a) then a +:+ b
  else a +:+ "/" +:+ b.

(** [a < b] on [str]: by code points, a proper prefix first. *)
Fixpoint str_lt (a b : list ascii) : bool :=
  match a, b with
  | _, [] => false
  | [], _ :: _ => true
  | x :: a', y :: b' =>
      (nat_of_ascii x <? nat_of_ascii y)%nat
      || Ascii.eqb x y && str_lt a' b'
  end.

(** [max] of a list of [str] that starts with [best]: an item takes
    the place of the best one so far only when it is greater. *)
Fixpoint max_from (best : string) (l : list string) : string :=
  match l with
  | [] => best
  | x :: l' => max_from (if str_lt (chars best) (chars x) then x else best) l'
  end.

Section Latest.

Variable dirs : dir_env.

(** [[d for d in os.listdir(p) if os.path.isdir(os.path.join(p, d))]] *)
Definition subdirs (p : string) : res (list string) :=
  let* names := listdir dirs p in
  Ok (filter (fun d => isdir dirs (os_path_join p d) = true) names).

Definition find_latest_collection_dir (base_dir : string) : res (option string) :=
  let found :=
    let* date_dirs := subdirs base_dir in
    match date_dirs with
    | [] => Ok None
    | d :: rest =>
        let latest_date_dir := max_from d rest in
        let timestamp_base_path := os_path_join base_dir latest_date_dir in
        let* timestamp_dirs := subdirs timestamp_base_path in
        match timestamp_dirs with
        | [] => Ok None
        | t :: rest' =>
            let latest_timestamp_dir := max_from t rest' in
            Ok (Some (os_path_join timestamp_base_path latest_timestamp_dir))
        end
    end in
  match found with
  | Raise e => if exn_is e "FileNotFoundError" then Ok None else Raise e
  | Ok r => Ok r
  end.

End Latest.

(** ** normalize_news.py: the fallback of [markdownify]

    Without the library, [markdownify(html)] is
    [re.sub('<[^<]+?>', '', html)].  The pattern has a lazy repetition,
    which stops as soon as the rest of the pattern matches. *)

(** Lazy repetition of [step], at least [n] times: the rest of the
    pattern ([k]) is tried first, and one more iteration only when that
    fails. *)
Fixpoint rep_lazy (step : bool -> list ascii -> Re.cont -> option (list ascii))
  (k : Re.cont) (fuel n : nat) (bol : bool) (s : list ascii)
  : option (list ascii) :=
  let more :=
    match fuel with
    | O => None
    | S fuel' =>
        step bol s (fun b' s' =>
          if (length s' <? length s)%nat
          then rep_lazy step k fuel' (pred n) b' s' else None)
    end in
  match n with
  | O => match k bol s with
         | Some rest => Some rest
         | None => more
         end
  | S _ => more
  end.

(** The pattern [<[^<]+?>] at one position: what is left after the
    match. *)
Definition match_tag (bol : bool) (s : list ascii) : option (list ascii) :=
  Re.m (Re.Chr "<") bol s (fun b1 s1 =>
    rep_lazy (Re.m (Re.NotChr "<"))
      (fun b2 s2 => Re.m (Re.Chr ">") b2 s2 (fun _ rest => Some rest))
      (length s1) 1 b1 s1).

(** [re.sub] for a pattern given by its matcher, as [Re.sub_from] is
    for a pattern of the fragment. *)
Fixpoint sub_by (mt : bool -> list ascii -> option (list ascii))
  (repl : list ascii) (bol : bool) (skip : nat) (s : list ascii)
  : list ascii :=
  match skip with
  | S skip' =>
      match s with
      | [] => []
      | c :: s' => sub_by mt repl (is_newline c) skip' s'
      end
  | O =>
      match mt bol s with
      | Some rest =>
          match (length s - length rest)%nat, s with
          | S n, c :: s' => repl ++ sub_by mt repl (is_newline c) n s'
          | O, c :: s' => repl ++ c :: sub_by mt repl (is_newline c) 0 s'
          | _, [] => repl
          end
      | None =>
          match s with
          | [] => []
          | c :: s' => c :: sub_by mt repl (is_newline c) 0 s'
          end
      end
  end.

(** The fallback, on a [str]. *)
Definition fallback_markdownify (html : string) : string :=
  str_of (sub_by match_tag [] true 0 (chars html)).

(** * Vocabulary of the further properties *)

(** A piece of marked-up text: text, or a tag with its body. *)
Inductive piece : Type :=
| Text (p : list ascii)
| Tag (body : list ascii).

Definition render_piece (x : piece) : list ascii :=
  match x with
  | Text p => p
  | Tag body => "<"%char :: body ++ [">"%char]
  end.

Definition render (pieces : list piece) : list ascii :=
  concat (map render_piece pieces).

(** The text of the pieces, without the tags. *)
Definition text_of (pieces : list piece) : list ascii :=
  concat (map (fun x => match x with Text p => p | Tag _ => [] end) pieces).

(** Text has no ['<']; the body of a tag is not empty and has no angle
    bracket. *)
Definition well_marked (x : piece) : Prop :=
  match x with
  | Text p => "<"%char ∉ p
  | Tag body => body <> [] /\ ("<"%char ∉ body) /\ (">"%char ∉ body)
  end.

(** The URL a result of the fetch driver is for. *)
Definition result_url (r : fetch_result) : string :=
  match r with
  | RSuccess url _ => url
  | RError url _ _ => url
  end.

(** [content if content else None] *)
Definition kept_content (content : option string) : option string :=
  match content with
  | Some text => if String.eqb text "" then None else Some text
  | None => None
  end.

(** The [try] block of a turn of the fetch driver, up to the entry in
    [results]: the parsed page when the browser, the extractor, the
    debug write of the page and the success callback returned, and else
    the exception of the first of them that raised; with it the content
    read so far and the state reached. *)
Definition try_block {St : Type} (env : helper_env)
  (browse : nat -> string -> res string)
  (emit : fs_event -> St -> res unit * St)
  (debug_dir : option string) (debug_mode : bool)
  (on_success : option (string -> pyval -> nat -> St -> res unit * St))
  (i : nat) (url : string) (s : St) : res pyval * option string * St :=
  match browse i url with
  | Raise e => (Raise e, None, s)
  | Ok content =>
      match extract_json_from_content env content with
      | Raise e => (Raise e, Some content, s)
      | Ok data =>
          match (if debug_mode
                 then save_debug emit debug_dir "_success.html" url
                        (Some content) s
                 else (Ok tt, s)) with
          | (Raise e, s1) => (Raise e, Some content, s1)
          | (Ok _, s1) =>
              match on_success with
              | Some f =>
                  match f url data i s1 with
                  | (Ok _, s2) => (Ok data, Some content, s2)
                  | (Raise e, s2) => (Raise e, Some content, s2)
                  end
              | None => (Ok data, Some content, s1)
              end
          end
      end
  end.

(** The callbacks and the writes leave the entries of the URL list in
    place: they can only add entries at its end. *)
Definition urls_only_grow {St : Type} (urls : St -> list string)
  (emit : fs_event -> St -> res unit * St)
  (on_success : option (string -> pyval -> nat -> St -> res unit * St))
  (on_error :
     option (string -> string -> option string -> nat -> St -> res unit * St))
  : Prop :=
  (forall e s, urls (emit e s).2 = urls s)
  /\ (forall f url data i s,
        on_success = Some f ->
        exists more, urls (f url data i s).2 = urls s ++ more)
  /\ (forall f url msg content i s,
        on_error = Some f ->
        exists more, urls (f url msg content i s).2 = urls s ++ more).

(** ** The main pass *)

(** The pages an item of the work list can still add after itself. *)
Definition item_slack (item : string * string * Z) : nat :=
  Z.to_nat (MAX_PAGES_PER_DOMAIN - item.2).

(** The pages the items from [i] on can still add. *)
Definition slack (i : nat) (s : collect_state) : nat :=
  sum_list_with item_slack (drop i (url_metadata s)).

(** A write of the main pass: a page saved for debugging, or the
    posts stored for a listed domain, of which there is at least one. *)
Definition main_pass_write (env : collect_env) (domains : list string)
  (e : fs_event) : Prop :=
  (exists name text,
     e = Write (path_join "debug_pages" name) (FText text) /\ text <> "")
  \/ (exists d post more,
        d ∈ domains
        /\ e = Write (domain_file (timestamp_dir env) d)
                  (FJson (PList (post :: more)))).

(** The status of a domain goes with its error: ["pending"] without
    one, ["error"] with one. *)
Definition status_recorded (ds : domain_state) : Prop :=
  status ds = "pending" /\ error ds = None
  \/ status ds = "error" /\ is_Some (error ds).

(** The stored posts have identifiers, all different and all seen. *)
Definition posts_distinct (ds : domain_state) : Prop :=
  NoDup (omap post_key (posts ds))
  /\ Forall (fun p => exists k, post_key p = Some k /\ k ∈ post_ids ds)
            (posts ds).

(** ** The summary *)

(** The record of the summary for [domain], whose entry of
    [domain_data] is [data] when the final loop runs: the file of the
    domain when it has posts, and else the message that says why it has
    none. *)
Definition entry_of (env : collect_env) (domain : string) (data : domain_state)
  (r : pyval) : Prop :=
  note_field "domain" r = Some (PStr domain)
  /\ note_field "article_count" r = Some (PInt (Z.of_nat (length (posts data))))
  /\ note_field "pages_fetched" r = Some (PInt (pages_fetched data))
  /\ match posts data with
     | _ :: _ =>
         note_field "status" r = Some (PStr "success")
         /\ note_field "file_path" r
            = Some (PStr (domain_file (timestamp_dir env) domain))
         /\ note_field "error_message" r = Some (option_str (error data))
     | [] =>
         note_field "status" r = Some (PStr (status data))
         /\ note_field "file_path" r = Some PNone
         /\ note_field "error_message" r
            = Some (PStr (match error data with
                          | Some msg =>
                              if String.eqb msg "" then
                                "No articles found in timeframe"
                              else msg
                          | None => "No articles found in timeframe"
                          end))
     end.

(** ** The batch of the normaliser *)

(** The articles that were written, skipped or refused. *)
Definition counted (st : stats) : Z :=
  articles_new st + articles_skipped st + errors st.

(** What an entry of the source directory adds to that number: the
    items of a raw file that holds a list, and one error for any other
    raw file. *)
Definition file_items (env : normalize_env) (entry : string * string) : Z :=
  if is_raw_file entry.1 then
    match load_json env entry.2 with
    | Some (PList articles) => Z.of_nat (length articles)
    | _ => 1
    end
  else 0.

(** The raw files of a source directory, and the items they hold. *)
Definition raw_files (listing : list (string * string))
  : list (string * string) :=
  filter (fun e => is_raw_file e.1 = true) listing.

Definition total_items (env : normalize_env) (listing : list (string * string))
  : Z :=
  foldr (fun e n => file_items env e + n) 0 listing.

(** A file that a batch has added at [p] for the article of [url] from
    [source_domain]: the normalised article when the file could be
    written, and else what the failed write has left. *)
Definition added_file (env : normalize_env) (output_dir p : string)
  (v : file_data) : Prop :=
  exists url source_domain,
    p = article_path env output_dir source_domain url
    /\ (can_write env p = true
        /\ (exists fields,
              v = FJson (PDict fields)
              /\ dict_lookup "url" fields = Some (PStr url)
              /\ dict_lookup "source_domain" fields = Some (PStr source_domain))
        \/ can_write env p = false /\ write_leaves env p = Some v).

(** A failed write leaves no file. *)
Definition failed_writes_leave_nothing (env : normalize_env) : Prop :=
  forall p, can_write env p = false -> write_leaves env p = None.

(** A part of a batch that goes from [acc] to [acc'] over [files] raw
    files and [n] items has counted every item once, has recorded a
    message for every error, and has only added files: one per new
    article, and [left] more that failed writes have left, each at the
    path of an article. *)
Definition batch_rel (env : normalize_env) (output_dir : string) (files n : Z)
  (acc acc' : stats * gmap string file_data) : Prop :=
  files_processed acc'.1 = files_processed acc.1 + files
  /\ counted acc'.1 = counted acc.1 + n
  /\ errors acc'.1 - Z.of_nat (length (errors_list acc'.1))
     = errors acc.1 - Z.of_nat (length (errors_list acc.1))
  /\ acc.2 ⊆ acc'.2
  /\ (exists left,
        Z.of_nat (size acc'.2)
        = Z.of_nat (size acc.2) + (articles_new acc'.1 - articles_new acc.1) + left
        /\ 0 <= left <= errors acc'.1 - errors acc.1
        /\ (failed_writes_leave_nothing env -> left = 0))
  /\ articles_new acc.1 <= articles_new acc'.1
  /\ (forall p v, acc.2 !! p = None -> acc'.2 !! p = Some v ->
        added_file env output_dir p v)
  /\ exists msgs, errors_list acc'.1 = errors_list acc.1 ++ msgs.

(** ** Text *)

(** Two newlines in a row occur in [s]. *)
Fixpoint has_blank_line (s : list ascii) : bool :=
  match s with
  | a :: s' =>
      match s' with
      | b :: _ => is_newline a && is_newline b || has_blank_line s'
      | [] => false
      end
  | [] => false
  end.

(** Three newlines in a row occur in [s]. *)
Fixpoint has_long_break (s : list ascii) : bool :=
  match s with
  | a :: s' =>
      match s' with
      | b :: c :: _ =>
          is_newline a && is_newline b && is_newline c || has_long_break s'
      | _ => false
      end
  | [] => false
  end.

(** The whitespace [s] starts with, and what follows it. *)
Fixpoint span_space (s : list ascii) : list ascii * list ascii :=
  match s with
  | c :: s' =>
      if is_space c then (c :: (span_space s').1, (span_space s').2)
      else ([], s)
  | [] => ([], [])
  end.

(** [s] is empty or starts with a character that is not whitespace. *)
Definition starts_solid (s : list ascii) : Prop :=
  match s with
  | c :: _ => is_space c = false
  | [] => True
  end.

(** [s] starts with [n] newlines. *)
Fixpoint leading_newlines (n : nat) (s : list ascii) : bool :=
  match n with
  | O => true
  | S n' =>
      match s with
      | c :: s' => is_newline c && leading_newlines n' s'
      | [] => false
      end
  end.

(** ** Scenarios *)

(** A source directory as a run with diagnostics leaves it: the
    summary, the posts of one domain and the site notes. *)
Definition noted_listing : list (string * string) :=
  ("wordpress-site-notes.json", dq "{'b.com': {'articles_found': 0}}")
  :: two_posts (post_plain "1") (post_plain "2").

(** A post with a date that [ref_normalize] cannot parse. *)
Definition post_dated : list (string * pyval) :=
  [("link", PStr "https://a.com/p"); ("title", PStr "T");
   ("content", PStr "text"); ("date_gmt", PStr "2024-01-02T03:04:05")].

(** A tree of collections: two days, the later one with two runs, and
    a file beside them. *)
Definition ref_dirs : dir_env :=
  {| listdir := fun p =>
       if String.eqb p "wordpress_posts"
       then Ok ["2024-01-02"; "2024-01-03"; "notes.txt"]
       else if String.eqb p "wordpress_posts/2024-01-03"
       then Ok ["999"; "1000"]
       else if String.eqb p "wordpress_posts/2024-01-02"
       then Ok ["1704153600"]
       else Raise (Exn "FileNotFoundError" p);
     isdir := fun p => negb (String.eqb p "wordpress_posts/notes.txt") |}.


(** * The page scan of [on_success] *)

Section ScanFacts.

Implicit Types (items fresh : list pyval) (ids : gset pykey).

Lemma post_key_get post k :
  post_key post = Some k ->
  exists post_id, py_get post "id" PNone = Ok post_id
                  /\ truthy post_id = true /\ hash_key post_id = Some k.
Proof.
  destruct post; simpl; try discriminate.
  destruct (truthy _) eqn:Ht; [|discriminate]. eauto.
Qed.

(** A successful scan: the set gets the keys of the page, the new posts
    are the first occurrences of the keys not yet in the set, and every
    other post with a key counts as a duplicate. *)
Lemma scan_posts_ok items : forall ids acc dup new_posts d ids',
  scan_posts items ids acc dup = (Ok (new_posts, d), ids') ->
  ids' = ids ∪ page_keys items
  /\ exists fresh,
       new_posts = acc ++ fresh
       /\ sublist fresh items
       /\ NoDup (omap post_key fresh)
       /\ Forall (fun p => exists k, post_key p = Some k /\ k ∉ ids) fresh
       /\ list_to_set (omap post_key fresh) = page_keys items ∖ ids
       /\ d = dup + Z.of_nat (length (omap post_key items))
              - Z.of_nat (length fresh).
Proof.
  unfold page_keys, omap.
  induction items as [|post rest IH]; intros ids acc dup new_posts d ids' H;
    simpl in H.
  - injection H as <- <- <-. split; [set_solver|].
    exists []. rewrite app_nil_r. simpl.
    repeat split; try constructor; try set_solver. lia.
  - destruct post as [| | | | | |dd]; simpl in H; try discriminate.
    simpl. destruct (truthy (default PNone (dict_lookup "id" dd))) eqn:Ht.
    + destruct (hash_key (default PNone (dict_lookup "id" dd))) as [k|] eqn:Hk;
        [|discriminate].
      simpl. destruct (decide (k ∈ ids)) as [Hin|Hnin].
      * apply IH in H as (-> & fresh & -> & Hsub & Hnd & Hall & Hset & ->).
        split; [set_solver|]. exists fresh.
        repeat split; auto.
        -- by apply sublist_cons.
        -- set_solver.
        -- lia.
      * apply IH in H as (-> & fresh & -> & Hsub & Hnd & Hall & Hset & ->).
        split; [set_solver|]. exists (PDict dd :: fresh).
        assert (Hk' : post_key (PDict dd) = Some k) by (simpl; by rewrite Ht).
        repeat split.
        -- by rewrite <- app_assoc.
        -- by apply sublist_skip.
        -- cbn [list_omap]. rewrite Hk'. constructor; [|done].
           intros Hin.
           assert (k ∈ (list_to_set (list_omap _ _ post_key fresh) : gset pykey))
             by (apply elem_of_list_to_set; exact Hin).
           set_solver.
        -- constructor; [by exists k|].
           eapply Forall_impl; [exact Hall|]. simpl.
           intros p (k' & Hp & Hn). exists k'. split; [done|set_solver].
        -- cbn [list_omap]. rewrite Hk'. simpl.
           apply set_eq. intros x. rewrite Hset.
           destruct (decide (x = k)); set_solver.
        -- simpl. lia.
    + apply IH in H as (-> & fresh & -> & Hsub & Hnd & Hall & Hset & ->).
      split; [done|]. exists fresh. repeat split; auto.
      by apply sublist_cons.
Qed.

(** Whatever the outcome, the scan only adds to the set. *)
Lemma scan_posts_grows items : forall ids acc dup,
  ids ⊆ (scan_posts items ids acc dup).2.
Proof.
  induction items as [|post rest IH]; intros ids acc dup; simpl; [done|].
  destruct (py_get post "id" PNone) as [post_id|e]; simpl; [|done].
  destruct (truthy post_id); [|apply IH].
  destruct (hash_key post_id) as [k|]; simpl; [|done].
  destruct (decide (k ∈ ids)); [apply IH|].
  etrans; [|apply IH]. set_solver.
Qed.

Lemma keyed_length (fresh : list pyval) :
  Forall (fun p => is_Some (post_key p)) fresh ->
  length (omap post_key fresh) = length fresh.
Proof.
  unfold omap. induction 1 as [|p l [k Hk] _ IH]; [done|].
  cbn [list_omap]. rewrite Hk. simpl. by rewrite IH.
Qed.

(** The counts of a successful scan are those of the batch: the new
    posts are as many as the identifiers of the page that were not
    seen, and every other post with an identifier is a duplicate. *)
Lemma scan_posts_counts items ids new_posts d ids' :
  scan_posts items ids [] 0 = (Ok (new_posts, d), ids') ->
  Z.of_nat (length new_posts) = batch_new_count items ids
  /\ d = batch_duplicate_count items ids.
Proof.
  intros H.
  apply scan_posts_ok in H as (_ & fresh & Hf & _ & Hnd & Hall & Hset & Hd).
  simpl in Hf. subst fresh.
  assert (Hlen : length new_posts = size (page_keys items ∖ ids)).
  { rewrite <- Hset, size_list_to_set by done.
    symmetry. apply keyed_length.
    eapply Forall_impl; [exact Hall|]. simpl. intros p (k & -> & _). by eexists. }
  unfold batch_duplicate_count, batch_new_count. rewrite <- Hlen. lia.
Qed.

End ScanFacts.

(** * The success callback of the main pass *)

Section OnSuccessFacts.

Variable env : collect_env.
Variable hours_ago : Z.

Lemma should_paginate_iff new_count duplicate_count page_num :
  should_paginate new_count duplicate_count page_num = true
  <-> new_count = 100 /\ duplicate_count = 0 /\ page_num < MAX_PAGES_PER_DOMAIN.
Proof. unfold should_paginate. rewrite !andb_true_iff. lia. Qed.

Lemma not_enqueued_same s item : ~ enqueued s s item.
Proof.
  intros [H _]. apply (f_equal length) in H. rewrite length_app in H.
  simpl in H. lia.
Qed.

Lemma stored_worklist s domain ds page_num new_posts ids :
  same_worklist s (stored env s domain ds page_num new_posts ids).
Proof. unfold stored, same_worklist. simpl. by destruct (posts ds ++ new_posts). Qed.

(** [on_success] on a page it can scan to the end. *)
Lemma on_success_scanned url data index s u domain page_num ds items
  new_posts dup ids :
  url_metadata s !! index = Some (u, domain, page_num) ->
  domain_data s !! domain = Some ds ->
  py_iter data = Ok items ->
  scan_posts items (post_ids ds) [] 0 = (Ok (new_posts, dup), ids) ->
  on_success env hours_ago url data index s =
  (Ok tt,
   if should_paginate (Z.of_nat (length new_posts)) dup page_num
   then enqueue (page_url domain (after_date_iso env (S index) hours_ago)
                   (page_num + 1), domain, page_num + 1)
                (stored env s domain ds page_num new_posts ids)
   else stored env s domain ds page_num new_posts ids).
Proof.
  intros Hm Hd Hi Hs. unfold on_success, stored.
  rewrite Hm, Hi, Hd, Hs. simpl.
  by destruct (should_paginate _ _ _).
Qed.

(** [on_success] on a page with a post it cannot handle: the exception
    leaves the callback with the set as far as the scan got. *)
Lemma on_success_raised url data index s u domain page_num ds items e ids :
  url_metadata s !! index = Some (u, domain, page_num) ->
  domain_data s !! domain = Some ds ->
  py_iter data = Ok items ->
  scan_posts items (post_ids ds) [] 0 = (Raise e, ids) ->
  on_success env hours_ago url data index s =
  (Raise e,
   set_domain domain
     {| posts := posts ds; pages_fetched := pages_fetched ds;
        status := status ds; error := error ds; post_ids := ids |} s).
Proof.
  intros Hm Hd Hi Hs. unfold on_success. by rewrite Hm, Hi, Hd, Hs.
Qed.

(** An exception of [on_success] leaves the work list as it is. *)
Lemma on_success_raise_worklist url data index s e s' :
  on_success env hours_ago url data index s = (Raise e, s') ->
  same_worklist s s'.
Proof.
  unfold on_success.
  destruct (url_metadata s !! index) as [[[u domain] page_num]|];
    [|intros [= _ <-]; done].
  destruct (py_iter data) as [items|e0]; [|intros [= _ <-]; done].
  destruct (domain_data s !! domain) as [ds|]; [|intros [= _ <-]; done].
  destruct (scan_posts items (post_ids ds) [] 0) as [[[new_posts dup]|e0] ids].
  - destruct (should_paginate _ _ _); discriminate.
  - intros [= _ <-]. done.
Qed.

End OnSuccessFacts.

Section Pagination.

Variable env : collect_env.
Variable hours_ago : Z.

(** What the success callback does to the work list. *)
Lemma on_success_worklist url data index s u domain page_num ds items :
  url_metadata s !! index = Some (u, domain, page_num) ->
  domain_data s !! domain = Some ds ->
  py_iter data = Ok items ->
  let next := (page_url domain (after_date_iso env (S index) hours_ago)
                 (page_num + 1), domain, page_num + 1) in
  let '(r, s') := on_success env hours_ago url data index s in
  match (scan_posts items (post_ids ds) [] 0).1 with
  | Ok (new_posts, duplicate_count) =>
      r = Ok tt
      /\ (enqueued s s' next
          <-> Z.of_nat (length new_posts) = 100 /\ duplicate_count = 0
              /\ page_num < 20)
      /\ (~ enqueued s s' next -> same_worklist s s')
  | Raise e => r = Raise e /\ same_worklist s s'
  end.
Proof.
  intros Hm Hd Hi next.
  destruct (on_success env hours_ago url data index s) as [r s'] eqn:Hon.
  destruct (scan_posts items (post_ids ds) [] 0)
    as [[[new_posts dup]|e] ids] eqn:Hs; simpl.
  - rewrite (on_success_scanned env hours_ago _ _ _ _ _ _ _ _ _ _ _ _ Hm Hd Hi Hs)
      in Hon.
    injection Hon as <- <-. split; [done|].
    pose proof (stored_worklist env s domain ds page_num new_posts ids)
      as [Hw1 Hw2].
    destruct (should_paginate _ _ _) eqn:Hp.
    + apply should_paginate_iff in Hp.
      assert (He : enqueued s
                (enqueue next (stored env s domain ds page_num new_posts ids))
                next)
        by (unfold enqueued; simpl; by rewrite Hw1, Hw2).
      split; [|intros Hn; by destruct Hn].
      split; [intros _; exact Hp|intros _; exact He].
    + split; [|intros _; by split].
      split.
      * intros [He _]. rewrite Hw1 in He.
        apply (f_equal length) in He. rewrite length_app in He.
        simpl in He. lia.
      * intros Hc. apply should_paginate_iff in Hc. congruence.
  - rewrite (on_success_raised env hours_ago _ _ _ _ _ _ _ _ _ _ _ Hm Hd Hi Hs)
      in Hon.
    injection Hon as <- <-. by split.
Qed.

(** C1. For the batch of page [page_num] of [domain] that the success
    callback handles, the item of page [page_num + 1] of that domain is
    added to the work list if and only if the callback returns and the
    batch has exactly 100 new posts, no duplicate, and [page_num] is
    under the cap of 20; in every other case, and when a post makes the
    callback raise, the work list is left as it is.  The counts are
    those of the batch against the identifiers of the domain seen so
    far.  The boundary cases, on batches of numbered posts: 100 new and
    0 duplicates at page 19 continue; 100 new and 1 duplicate, 99 new
    and 0 duplicates, and page 20 with 100 new and 0 duplicates stop. *)
Theorem on_success_paginates url data index s u domain page_num ds items :
  url_metadata s !! index = Some (u, domain, page_num) ->
  domain_data s !! domain = Some ds ->
  py_iter data = Ok items ->
  let next := (page_url domain (after_date_iso env (S index) hours_ago)
                 (page_num + 1), domain, page_num + 1) in
  let '(r, s') := on_success env hours_ago url data index s in
  (enqueued s s' next
   <-> r = Ok tt
       /\ batch_new_count items (post_ids ds) = 100
       /\ batch_duplicate_count items (post_ids ds) = 0
       /\ page_num < 20)
  /\ (~ enqueued s s' next -> same_worklist s s')
  /\ (let after s batch :=
        (on_success (const_env (Ok "[]")) 48 "u" (PList batch) 0 s).2 in
      enqueued (state_at 19 []) (after (state_at 19 []) (numbered_posts 1 100))
        (page_url "a.com" "2024-01-01T00:00:00Z" 20, "a.com", 20)
      /\ batch_new_count (numbered_posts 1 101) (post_ids_of [1]) = 100
      /\ batch_duplicate_count (numbered_posts 1 101) (post_ids_of [1]) = 1
      /\ same_worklist (state_at 1 [1])
           (after (state_at 1 [1]) (numbered_posts 1 101))
      /\ batch_new_count (numbered_posts 1 99) ∅ = 99
      /\ batch_duplicate_count (numbered_posts 1 99) ∅ = 0
      /\ same_worklist (state_at 1 [])
           (after (state_at 1 []) (numbered_posts 1 99))
      /\ same_worklist (state_at 20 [])
           (after (state_at 20 []) (numbered_posts 1 100))).
Proof.
  intros Hm Hd Hi next.
  pose proof (on_success_worklist url data index s u domain page_num ds items
                Hm Hd Hi) as H.
  cbv zeta in H. fold next in H.
  destruct (on_success env hours_ago url data index s) as [r s'] eqn:Hon.
  split; [|split].
  - destruct (scan_posts items (post_ids ds) [] 0)
      as [[[new_posts dup]|e] ids] eqn:Hs; simpl in H.
    + destruct H as (-> & H & _).
      apply scan_posts_counts in Hs as [Hn ->]. rewrite Hn in H.
      rewrite H. tauto.
    + destruct H as [-> Hw]. split; [|by intros [? _]].
      intros [He _]. destruct Hw as [Hw _]. rewrite Hw in He.
      apply (f_equal length) in He. rewrite length_app in He. simpl in He. lia.
  - destruct (scan_posts items (post_ids ds) [] 0).1 as [[new_posts dup]|e].
    + by destruct H as (_ & _ & H).
    + by destruct H as [_ H].
  - cbv zeta. unfold enqueued, same_worklist.
    repeat split; vm_compute; reflexivity.
Qed.

End Pagination.

(** Page 19 of a domain with two posts seen before, and a full page of
    posts that are all new: page 20 is put on the work list.  The same
    page after two of its posts were seen has 98 new posts and two
    duplicates, and the work list stays as it is. *)
Lemma on_success_paginates_witness :
  enqueued (state_at 19 [201; 202])
    (on_success (const_env (Ok "[]")) 48 "u" (PList (numbered_posts 1 100)) 0
       (state_at 19 [201; 202])).2
    (page_url "a.com" "2024-01-01T00:00:00Z" 20, "a.com", 20)
  /\ same_worklist (state_at 19 [1; 2])
       (on_success (const_env (Ok "[]")) 48 "u" (PList (numbered_posts 1 100)) 0
          (state_at 19 [1; 2])).2.
Proof.
  split.
  - pose proof (on_success_paginates (const_env (Ok "[]")) 48 "u"
                  (PList (numbered_posts 1 100)) 0 (state_at 19 [201; 202])
                  "u" "a.com" 19
                  {| posts := map (fun z => PDict [("id", PInt z)]) [201; 202];
                     pages_fetched := 18; status := "pending";
                     error := None; post_ids := post_ids_of [201; 202] |}
                  (numbered_posts 1 100)) as H.
    destruct (on_success (const_env (Ok "[]")) 48 "u"
                (PList (numbered_posts 1 100)) 0 (state_at 19 [201; 202]))
      as [r s'] eqn:Hon.
    destruct H as (H & _); [reflexivity..|].
    apply H. split; [|by vm_compute].
    change r with (r, s').1. rewrite <- Hon. vm_compute. reflexivity.
  - pose proof (on_success_paginates (const_env (Ok "[]")) 48 "u"
                  (PList (numbered_posts 1 100)) 0 (state_at 19 [1; 2])
                  "u" "a.com" 19
                  {| posts := map (fun z => PDict [("id", PInt z)]) [1; 2];
                     pages_fetched := 18; status := "pending";
                     error := None; post_ids := post_ids_of [1; 2] |}
                  (numbered_posts 1 100)) as H.
    destruct (on_success (const_env (Ok "[]")) 48 "u"
                (PList (numbered_posts 1 100)) 0 (state_at 19 [1; 2]))
      as [r s'].
    destruct H as (H & Hstop & _); [reflexivity..|].
    apply Hstop. intros He. apply H in He as (_ & Hn & _).
    vm_compute in Hn. discriminate Hn.
Defined.

(** * Seen identifiers and stored posts *)

Section SeenIds.

Variable env : collect_env.
Variable hours_ago : Z.

Lemma stored_domain_data s domain ds page_num new_posts ids :
  domain_data (stored env s domain ds page_num new_posts ids)
  = <[domain := {| posts := posts ds ++ new_posts; pages_fetched := page_num;
                   status := status ds; error := error ds; post_ids := ids |}]>
      (domain_data s).
Proof. unfold stored. simpl. by destruct (posts ds ++ new_posts). Qed.

Lemma stored_log s domain ds page_num new_posts ids :
  fs_log (stored env s domain ds page_num new_posts ids)
  = fs_log s ++
    match posts ds ++ new_posts with
    | [] => []
    | _ :: _ => [Write (domain_file (timestamp_dir env) domain)
                       (FJson (PList (posts ds ++ new_posts)))]
    end.
Proof.
  unfold stored. simpl. destruct (posts ds ++ new_posts); simpl; [|done].
  by rewrite app_nil_r.
Qed.

(** What [on_success] does to the entry of its domain. *)
Lemma on_success_domain url data index s u domain page_num ds items :
  url_metadata s !! index = Some (u, domain, page_num) ->
  domain_data s !! domain = Some ds ->
  py_iter data = Ok items ->
  let '(r, s') := on_success env hours_ago url data index s in
  exists ds',
    domain_data s' = <[domain := ds']> (domain_data s)
    /\ post_ids ds' = (scan_posts items (post_ids ds) [] 0).2
    /\ match (scan_posts items (post_ids ds) [] 0).1 with
       | Ok (new_posts, _) =>
           r = Ok tt /\ posts ds' = posts ds ++ new_posts
           /\ fs_log s' = fs_log s ++
                match posts ds' with
                | [] => []
                | _ :: _ => [Write (domain_file (timestamp_dir env) domain)
                                   (FJson (PList (posts ds')))]
                end
       | Raise e => r = Raise e /\ posts ds' = posts ds /\ fs_log s' = fs_log s
       end.
Proof.
  intros Hm Hd Hi.
  destruct (scan_posts items (post_ids ds) [] 0)
    as [[[new_posts dup]|e] ids] eqn:Hs.
  - rewrite (on_success_scanned env hours_ago _ _ _ _ _ _ _ _ _ _ _ _ Hm Hd Hi Hs).
    eexists {| posts := posts ds ++ new_posts; post_ids := ids |}. simpl.
    destruct (should_paginate _ _ _); simpl;
      rewrite stored_domain_data, stored_log; done.
  - rewrite (on_success_raised env hours_ago _ _ _ _ _ _ _ _ _ _ _ Hm Hd Hi Hs).
    eexists {| posts := posts ds; post_ids := ids |}. simpl. done.
Qed.

(** C3 (amended). After the success callback has handled a page of a
    domain, the domain's [post_ids] contains its previous value; when
    the callback returns, it is the union of the previous value and the
    truthy identifiers of the posts of the page, the posts appended are
    posts of the page in their order, each with an identifier that was
    not in the set, no two with the same identifier, and as many as the
    set has grown by; when the callback raises, no post is appended. *)
Theorem on_success_seen_post_ids url data index s u domain page_num ds items :
  url_metadata s !! index = Some (u, domain, page_num) ->
  domain_data s !! domain = Some ds ->
  py_iter data = Ok items ->
  let '(r, s') := on_success env hours_ago url data index s in
  exists ds',
    domain_data s' !! domain = Some ds'
    /\ post_ids ds ⊆ post_ids ds'
    /\ match r with
       | Ok _ =>
           post_ids ds' = post_ids ds ∪ page_keys items
           /\ exists fresh,
                posts ds' = posts ds ++ fresh
                /\ sublist fresh items
                /\ NoDup (omap post_key fresh)
                /\ Forall (fun p => exists k, post_key p = Some k
                                              /\ k ∉ post_ids ds) fresh
                /\ length fresh = size (post_ids ds' ∖ post_ids ds)
       | Raise _ => posts ds' = posts ds
       end.
Proof.
  intros Hm Hd Hi.
  pose proof (on_success_domain url data index s u domain page_num ds items
                Hm Hd Hi) as H.
  destruct (on_success env hours_ago url data index s) as [r s'].
  destruct H as (ds' & Hdd & Hids & H). exists ds'.
  split; [rewrite Hdd; apply lookup_insert_eq|].
  split; [rewrite Hids; apply scan_posts_grows|].
  destruct (scan_posts items (post_ids ds) [] 0)
    as [[[new_posts dup]|e] ids] eqn:Hs; simpl in *.
  - destruct H as (-> & Hp & _).
    apply scan_posts_ok in Hs as (-> & fresh & -> & Hsub & Hnd & Hall & Hset & _).
    split; [done|]. exists fresh. repeat split; auto.
    rewrite Hids.
    replace ((post_ids ds ∪ page_keys items) ∖ post_ids ds)
      with (page_keys items ∖ post_ids ds) by set_solver.
    rewrite <- Hset, size_list_to_set by done.
    symmetry. apply keyed_length.
    eapply Forall_impl; [exact Hall|]. intros p (k & Hk & _). by exists k.
  - by destruct H as (-> & Hp & _).
Qed.

End SeenIds.

(** A page with the identifiers 2 and 3, of which 2 is known. *)
Lemma on_success_seen_post_ids_witness :
  exists ds',
    domain_data (on_success (const_env (Ok "[]")) 48 "u"
                   (PList (numbered_posts 2 2)) 0 (state_at 1 [1; 2])).2
      !! "a.com" = Some ds'
    /\ post_ids ds' = list_to_set [KInt 1; KInt 2] ∪ page_keys (numbered_posts 2 2).
Proof.
  pose proof (on_success_seen_post_ids (const_env (Ok "[]")) 48 "u"
                (PList (numbered_posts 2 2)) 0 (state_at 1 [1; 2]) "u" "a.com" 1
                {| posts := map (fun z => PDict [("id", PInt z)]) [1; 2];
                   pages_fetched := 0; status := "pending"; error := None;
                   post_ids := list_to_set (map KInt [1; 2]) |}
                (numbered_posts 2 2)) as H.
  destruct (on_success (const_env (Ok "[]")) 48 "u"
              (PList (numbered_posts 2 2)) 0 (state_at 1 [1; 2])) as [r s'] eqn:Hon.
  destruct H as (ds' & Hd & _ & H); [reflexivity..|].
  exists ds'. split; [exact Hd|].
  destruct r as [[]|e]; [by destruct H|].
  vm_compute in Hon. discriminate.
Defined.

(** The claim as the specification words it fails on an identifier the
    callback does not recognise: the post with identifier 0 occurs in
    the page, the callback returns, and 0 is not in the set. *)
Lemma seen_post_ids_counterexample :
  let page := [PDict [("id", PInt 0)]] in
  let '(r, s') := on_success (const_env (Ok "[]")) 48 "u" (PList page) 0
                    (state_at 1 []) in
  r = Ok tt
  /\ exists ds', domain_data s' !! "a.com" = Some ds'
                 /\ KInt 0 ∈ page_id_values page
                 /\ post_ids ds' ≠ ∅ ∪ page_id_values page.
Proof.
  simpl.
  destruct (on_success _ _ _ _ _ _) as [r s'] eqn:Hon.
  vm_compute in Hon. injection Hon as <- <-.
  split; [done|]. eexists. split; [reflexivity|].
  assert (Hin : KInt 0 ∈ page_id_values [PDict [("id", PInt 0)]])
    by (unfold page_id_values; simpl; set_solver).
  split; [exact Hin|].
  intros Heq.
  assert (Hin' : KInt 0 ∈ (∅ ∪ page_id_values [PDict [("id", PInt 0)]] : gset pykey))
    by set_solver.
  rewrite <- Heq in Hin'. simpl in Hin'.
  by apply not_elem_of_empty in Hin'.
Qed.

(** * Posts without identifier *)

Section WithoutId.

Variable env : collect_env.
Variable hours_ago : Z.

Lemma lacks_id_no_key post : lacks_id post -> post_key post = None.
Proof. intros (d & -> & Hf). simpl. by rewrite Hf. Qed.

(** The scan passes over a post without identifier. *)
Lemma scan_posts_skip pre post suf : lacks_id post -> forall ids acc dup,
  scan_posts (pre ++ post :: suf) ids acc dup = scan_posts (pre ++ suf) ids acc dup.
Proof.
  intros (d & -> & Hf).
  induction pre as [|p pre IH]; intros ids acc dup; simpl.
  - by rewrite Hf.
  - destruct (py_get p "id" PNone) as [post_id|e]; simpl; [|done].
    destruct (truthy post_id); [|apply IH].
    destruct (hash_key post_id) as [k|]; [|done].
    destruct (decide (k ∈ ids)); apply IH.
Qed.

(** C10. A post of a page whose ["id"] is missing or falsy leaves no
    trace: the callback ends in the same result and the same state
    (stored posts, seen identifiers, pages fetched, work list and files
    written, hence the same counts of new posts and of duplicates) as on
    the page without that post; and whenever the callback handles a page
    with such a post, the post is in the stored posts of the domain
    afterwards only if it was there before, and every file the callback
    writes is the list of the stored posts of the domain. *)
Theorem on_success_ignores_posts_without_id url index s pre post suf :
  lacks_id post ->
  on_success env hours_ago url (PList (pre ++ post :: suf)) index s
  = on_success env hours_ago url (PList (pre ++ suf)) index s
  /\ forall u domain page_num ds,
       url_metadata s !! index = Some (u, domain, page_num) ->
       domain_data s !! domain = Some ds ->
       let '(r, s') :=
         on_success env hours_ago url (PList (pre ++ post :: suf)) index s in
       exists ds' evs,
         domain_data s' !! domain = Some ds'
         /\ (post ∈ posts ds' -> post ∈ posts ds)
         /\ fs_log s' = fs_log s ++ evs
         /\ Forall (fun e => e = Write (domain_file (timestamp_dir env) domain)
                                     (FJson (PList (posts ds')))) evs.
Proof.
  intros Hl. split.
  - unfold on_success.
    destruct (url_metadata s !! index) as [[[u domain] page_num]|]; [|done].
    simpl. destruct (domain_data s !! domain) as [ds|]; [|done].
    by rewrite scan_posts_skip.
  - intros u domain page_num ds Hm Hd.
    pose proof (on_success_domain env hours_ago url (PList (pre ++ post :: suf))
                  index s u domain page_num ds _ Hm Hd eq_refl) as H.
    destruct (on_success env hours_ago url (PList (pre ++ post :: suf)) index s)
      as [r s'].
    destruct H as (ds' & Hdd & Hids & H).
    destruct (scan_posts (pre ++ post :: suf) (post_ids ds) [] 0)
      as [[[new_posts dup]|e] ids] eqn:Hs; simpl in H.
    + destruct H as (_ & Hp & Hlog).
      eexists ds', _. split; [rewrite Hdd; apply lookup_insert_eq|].
      split; [|split; [exact Hlog|]].
      * rewrite Hp. intros [Hin|Hin]%elem_of_app; [done|].
        apply scan_posts_ok in Hs as (_ & fresh & Hf & _ & _ & Hall & _).
        simpl in Hf. subst fresh.
        rewrite Forall_forall in Hall.
        destruct (Hall _ Hin) as (k & Hk & _).
        rewrite (lacks_id_no_key _ Hl) in Hk. discriminate.
      * destruct (posts ds'); repeat constructor.
    + destruct H as (_ & Hp & Hlog).
      exists ds', []. split; [rewrite Hdd; apply lookup_insert_eq|].
      rewrite Hp, app_nil_r. by repeat split.
Qed.

End WithoutId.

(** A page of three posts, the second without ["id"]. *)
Lemma on_success_ignores_posts_without_id_witness :
  on_success (const_env (Ok "[]")) 48 "u"
    (PList ([PDict [("id", PInt 7)]] ++ PDict [("title", PStr "x")]
            :: [PDict [("id", PInt 8)]])) 0 (state_at 1 [])
  = on_success (const_env (Ok "[]")) 48 "u"
      (PList ([PDict [("id", PInt 7)]] ++ [PDict [("id", PInt 8)]])) 0
      (state_at 1 []).
Proof.
  apply (on_success_ignores_posts_without_id (const_env (Ok "[]")) 48 "u" 0
           (state_at 1 []) [PDict [("id", PInt 7)]] (PDict [("title", PStr "x")])
           [PDict [("id", PInt 8)]]).
  exists [("title", PStr "x")]. split; reflexivity.
Defined.

(** * The normaliser *)

Section NormalizeFacts.

Variable env : normalize_env.

(** C9. [normalize_article] on a post without ["link"] returns no
    article and a message that names the post by its ["id"] (in decimal
    for an integer, ["N/A"] when there is none); in the batch the post
    adds one to [errors] and the message to [errors_list], and leaves
    [articles_new], [articles_skipped] and the output files as they
    are. *)
Theorem normalize_article_missing_link article collection_timestamp :
  dict_lookup "link" article = None ->
  let ident := py_str env (default (PStr "N/A") (dict_lookup "id" article)) in
  let msg := "Error processing required fields for article ID: " +:+ ident
             +:+ ": KeyError - 'link'" in
  normalize_article env article collection_timestamp = Ok (None, Some msg)
  /\ (forall z, dict_lookup "id" article = Some (PInt z) -> ident = pretty z)
  /\ forall filename output_dir st out,
       process_article env filename output_dir collection_timestamp
         (PDict article) (st, out)
       = Ok ({| files_processed := files_processed st;
                articles_new := articles_new st;
                articles_skipped := articles_skipped st;
                errors := errors st + 1;
                errors_list := errors_list st ++ [msg] |}, out).
Proof.
  intros Hl ident msg.
  assert (Hn : normalize_article env article collection_timestamp
               = Ok (None, Some msg)).
  { unfold normalize_article, required_fields. simpl. rewrite Hl. reflexivity. }
  split; [exact Hn|]. split.
  - intros z Hz. unfold ident. by rewrite Hz.
  - intros. unfold process_article. by rewrite Hn.
Qed.

End NormalizeFacts.

(** The post with ["id"] 5 and no ["link"]. *)
Lemma normalize_article_missing_link_witness :
  normalize_article ref_normalize post_without_link (PStr "1704240000")
  = Ok (None,
        Some "Error processing required fields for article ID: 5: KeyError - 'link'").
Proof.
  apply (normalize_article_missing_link ref_normalize post_without_link
           (PStr "1704240000")).
  reflexivity.
Defined.

Section Rerun.

Variable env : normalize_env.
Variables (cw : string -> bool) (we : string -> string) (now : string).
Hypothesis writes_succeed : forall p, can_write env p = true.

Let env2 := with_io env cw we now.

Lemma rerun_rel_refl st st2 : rerun_rel st st st2 st2.
Proof.
  unfold rerun_rel. repeat split; try lia.
  exists []. by rewrite !app_nil_r.
Qed.

Lemma rerun_rel_trans a b c a2 b2 c2 :
  rerun_rel a b a2 b2 -> rerun_rel b c b2 c2 -> rerun_rel a c a2 c2.
Proof.
  intros (H1 & H2 & H3 & H4 & m1 & H5 & H6) (G1 & G2 & G3 & G4 & m2 & G5 & G6).
  unfold rerun_rel. repeat split; try lia.
  exists (m1 ++ m2). rewrite G5, G6, H5, H6, <- !app_assoc. done.
Qed.

Lemma py_str_with_io v : py_str env2 v = py_str env v.
Proof. by destruct v as [|[]| | | | |]. Qed.

Lemma normalize_article_with_io article ts :
  normalize_article env2 article ts = normalize_article env article ts.
Proof. reflexivity. Qed.

(** An article only adds files. *)
Lemma process_article_mono filename output_dir ts article st out st' out' :
  process_article env filename output_dir ts article (st, out) = Ok (st', out') ->
  out ⊆ out'.
Proof.
  unfold process_article.
  destruct article as [| | | | | |d]; try (intros [= _ <-]; done).
  destruct (normalize_article env d ts) as [[na err]|e]; simpl; [|done].
  destruct err as [msg|]; [intros [= _ <-]; done|].
  destruct na as [[| | | | | |fields]|]; try done.
  destruct (dict_lookup "url" fields) as [[| | | |url| |]|]; try done.
  destruct (dict_lookup "source_domain" fields) as [[| | | |sd| |]|]; try done.
  destruct (makedirs env _) as [[]|e]; simpl; [|done].
  destruct (out !! _) eqn:Hout; [intros [= _ <-]; done|].
  rewrite writes_succeed. intros [= _ <-]. by apply insert_subseteq.
Qed.

(** What the first run did with an article decides what a later run,
    which finds the files of the first, does with it. *)
Lemma process_article_rerun filename output_dir ts article st out st' out' :
  process_article env filename output_dir ts article (st, out) = Ok (st', out') ->
  forall outF st2, out' ⊆ outF ->
    exists st2',
      process_article env2 filename output_dir ts article (st2, outF)
      = Ok (st2', outF)
      /\ rerun_rel st st' st2 st2'.
Proof.
  unfold process_article.
  destruct article as [| | | | | |d];
    try (intros [= <- <-] outF st2 _; rewrite py_str_with_io; eexists;
         split; [reflexivity|];
         unfold rerun_rel; simpl; repeat split; try lia; by eexists).
  rewrite normalize_article_with_io.
  destruct (normalize_article env d ts) as [[na err]|e]; simpl; [|done].
  destruct err as [msg|].
  { intros [= <- <-] outF st2 _. eexists. split; [reflexivity|].
    unfold rerun_rel; simpl; repeat split; try lia; by eexists. }
  destruct na as [[| | | | | |fields]|]; try done.
  destruct (dict_lookup "url" fields) as [[| | | |url| |]|]; try done.
  destruct (dict_lookup "source_domain" fields) as [[| | | |sd| |]|]; try done.
  change (article_path env2 output_dir sd url)
    with (article_path env output_dir sd url).
  change (makedirs env2) with (makedirs env).
  destruct (makedirs env _) as [[]|e]; simpl; [|done].
  destruct (out !! _) as [old|] eqn:Hout.
  - intros [= <- <-] outF st2 Hsub.
    rewrite (lookup_weaken _ _ _ _ Hout Hsub).
    eexists. split; [reflexivity|].
    unfold rerun_rel; simpl; repeat split; try lia.
    exists []. by rewrite !app_nil_r.
  - rewrite writes_succeed. intros [= <- <-] outF st2 Hsub.
    erewrite (lookup_weaken _ outF); [|apply lookup_insert_eq|exact Hsub].
    eexists. split; [reflexivity|].
    unfold rerun_rel; simpl; repeat split; try lia.
    exists []. by rewrite !app_nil_r.
Qed.

Lemma process_articles_cons (e0 : normalize_env) filename output_dir ts a rest acc :
  process_articles e0 filename output_dir ts (a :: rest) acc
  = match process_article e0 filename output_dir ts a acc with
    | Ok acc' => process_articles e0 filename output_dir ts rest acc'
    | Raise e => Raise e
    end.
Proof. reflexivity. Qed.

Lemma process_articles_mono filename output_dir ts articles :
  forall st out st' out',
    process_articles env filename output_dir ts articles (st, out) = Ok (st', out') ->
    out ⊆ out'.
Proof.
  induction articles as [|a rest IH]; intros st out st' out' H.
  - by injection H as <- <-.
  - rewrite process_articles_cons in H.
    destruct (process_article env filename output_dir ts a (st, out))
      as [[st1 out1]|e] eqn:Ha; [|done].
    etrans; [eapply process_article_mono; exact Ha|eapply IH; exact H].
Qed.

Lemma process_articles_rerun filename output_dir ts articles :
  forall st out st' out',
    process_articles env filename output_dir ts articles (st, out) = Ok (st', out') ->
    forall outF st2, out' ⊆ outF ->
      exists st2',
        process_articles env2 filename output_dir ts articles (st2, outF)
        = Ok (st2', outF)
        /\ rerun_rel st st' st2 st2'.
Proof.
  induction articles as [|a rest IH]; intros st out st' out' H outF st2 Hsub.
  - injection H as <- <-. exists st2. split; [done|apply rerun_rel_refl].
  - rewrite process_articles_cons in H.
    destruct (process_article env filename output_dir ts a (st, out))
      as [[st1 out1]|e] eqn:Ha; [|done].
    assert (Hsub1 : out1 ⊆ outF)
      by (etrans; [eapply process_articles_mono; exact H|exact Hsub]).
    destruct (process_article_rerun _ _ _ _ _ _ _ _ Ha outF st2 Hsub1)
      as (st2a & Ha2 & Hr1).
    destruct (IH _ _ _ _ H outF st2a Hsub) as (st2' & Hr & Hr2).
    exists st2'. split; [|eapply rerun_rel_trans; eauto].
    rewrite process_articles_cons, Ha2. exact Hr.
Qed.

Lemma process_file_mono output_dir ts entry st out st' out' :
  process_file env output_dir ts entry (st, out) = Ok (st', out') -> out ⊆ out'.
Proof.
  unfold process_file. destruct entry as [filename text].
  destruct (is_raw_file filename); simpl; [|by intros [= _ <-]].
  destruct (load_json env text) as [[| | | | |articles|]|];
    try (intros [= _ <-]; done).
  apply process_articles_mono.
Qed.

Lemma process_file_rerun output_dir ts entry st out st' out' :
  process_file env output_dir ts entry (st, out) = Ok (st', out') ->
  forall outF st2, out' ⊆ outF ->
    exists st2',
      process_file env2 output_dir ts entry (st2, outF) = Ok (st2', outF)
      /\ rerun_rel st st' st2 st2'.
Proof.
  unfold process_file. destruct entry as [filename text].
  destruct (is_raw_file filename); simpl;
    [|intros [= <- <-] outF st2 _; exists st2; split;
      [done|apply rerun_rel_refl]].
  assert (Hfile : forall a b, rerun_rel a (add_file a) b (add_file b)).
  { intros a b. unfold rerun_rel; simpl; repeat split; try lia.
    exists []. by rewrite !app_nil_r. }
  assert (Herr : forall m a b, rerun_rel a (add_error m (add_file a))
                                 b (add_error m (add_file b))).
  { intros m a b. unfold rerun_rel; simpl; repeat split; try lia. by eexists. }
  destruct (load_json env text) as [[| | | | |articles|]|];
    try (intros [= <- <-] outF st2 _; eexists; split; [reflexivity|apply Herr]).
  intros H outF st2 Hsub.
  destruct (process_articles_rerun _ _ _ _ _ _ _ _ H outF (add_file st2) Hsub)
    as (st2' & Hr & Hrel).
  exists st2'. split; [exact Hr|].
  eapply rerun_rel_trans; [apply Hfile|exact Hrel].
Qed.

Lemma process_files_cons (e0 : normalize_env) output_dir ts entry rest acc :
  process_files e0 output_dir ts (entry :: rest) acc
  = match process_file e0 output_dir ts entry acc with
    | Ok acc' => process_files e0 output_dir ts rest acc'
    | Raise e => Raise e
    end.
Proof. reflexivity. Qed.

Lemma process_files_mono output_dir ts listing :
  forall st out st' out',
    process_files env output_dir ts listing (st, out) = Ok (st', out') ->
    out ⊆ out'.
Proof.
  induction listing as [|entry rest IH]; intros st out st' out' H.
  - by injection H as <- <-.
  - rewrite process_files_cons in H.
    destruct (process_file env output_dir ts entry (st, out))
      as [[st1 out1]|e] eqn:Ha; [|done].
    etrans; [eapply process_file_mono; exact Ha|eapply IH; exact H].
Qed.

Lemma process_files_rerun output_dir ts listing :
  forall st out st' out',
    process_files env output_dir ts listing (st, out) = Ok (st', out') ->
    forall outF st2, out' ⊆ outF ->
      exists st2',
        process_files env2 output_dir ts listing (st2, outF) = Ok (st2', outF)
        /\ rerun_rel st st' st2 st2'.
Proof.
  induction listing as [|entry rest IH]; intros st out st' out' H outF st2 Hsub.
  - injection H as <- <-. exists st2. split; [done|apply rerun_rel_refl].
  - rewrite process_files_cons in H.
    destruct (process_file env output_dir ts entry (st, out))
      as [[st1 out1]|e] eqn:Ha; [|done].
    assert (Hsub1 : out1 ⊆ outF)
      by (etrans; [eapply process_files_mono; exact H|exact Hsub]).
    destruct (process_file_rerun _ _ _ _ _ _ _ Ha outF st2 Hsub1)
      as (st2a & Ha2 & Hr1).
    destruct (IH _ _ _ _ H outF st2a Hsub) as (st2' & Hr & Hr2).
    exists st2'. split; [|eapply rerun_rel_trans; eauto].
    rewrite process_files_cons, Ha2. exact Hr.
Qed.

(** The batch reads nothing but the raw files. *)
Lemma process_files_view (e0 : normalize_env) output_dir ts listing : forall acc,
  process_files e0 output_dir ts listing acc
  = process_files e0 output_dir ts (raw_view listing) acc.
Proof.
  unfold raw_view.
  induction listing as [|[filename text] rest IH]; intros acc; [done|].
  rewrite filter_cons. destruct (decide _) as [Hyes|Hno].
  - rewrite !process_files_cons.
    destruct (process_file e0 output_dir ts (filename, text) acc); [apply IH|done].
  - rewrite process_files_cons. unfold process_file at 1.
    simpl in Hno. destruct (is_raw_file filename); [tauto|]. simpl. apply IH.
Qed.

Lemma find_summary_view (listing : list (string * string)) :
  snd <$> list_find (fun e => e.1 = "_collection_summary.json") listing
  = snd <$> list_find (fun e => e.1 = "_collection_summary.json") (raw_view listing).
Proof.
  unfold raw_view.
  induction listing as [|[filename text] rest IH]; [done|].
  rewrite filter_cons. simpl.
  destruct (decide (filename = "_collection_summary.json")) as [->|Hne].
  - simpl. done.
  - destruct (decide _) as [Hyes|Hno]; simpl.
    + rewrite decide_False by done.
      destruct (list_find _ rest) as [[i e]|], (list_find _ (filter _ rest))
        as [[j e']|]; simpl in *; congruence.
    + rewrite <- IH. by destruct (list_find _ rest) as [[i e]|].
Qed.

End Rerun.

(** C6 (amended). An article whose file exists is skipped and the file
    is left as it is, so a run only adds files.  When a run whose writes
    all succeed has completed, a second run over the same raw files and
    the output directory the first run left (whatever the summary the
    first run wrote into the source directory) completes, writes no file
    and counts no new article; it skips what the first run wrote and
    what the first run skipped: its [articles_skipped] is the first
    run's [articles_new] plus the first run's [articles_skipped], which
    is the first run's [articles_new] when the first run skipped
    nothing.  Its errors are those of the first run. *)
Theorem normalization_rerun env cw we now listing1 listing2 output_dir out
  st1 out1 summary1 :
  (forall p, can_write env p = true) ->
  raw_view listing2 = raw_view listing1 ->
  process_collection_directory env (Some listing1) output_dir out
  = Ok (Normalized st1 out1 summary1) ->
  out ⊆ out1
  /\ exists st2 summary2,
       process_collection_directory (with_io env cw we now) (Some listing2)
         output_dir out1
       = Ok (Normalized st2 out1 summary2)
       /\ articles_new st2 = 0
       /\ articles_skipped st2 = articles_new st1 + articles_skipped st1
       /\ (articles_skipped st1 = 0 -> articles_skipped st2 = articles_new st1)
       /\ files_processed st2 = files_processed st1
       /\ errors st2 = errors st1
       /\ errors_list st2 = errors_list st1.
Proof.
  intros Hw Hview H. unfold process_collection_directory in *.
  pose proof (find_summary_view listing1) as F1.
  pose proof (find_summary_view listing2) as F2.
  rewrite Hview, <- F1 in F2. clear F1.
  destruct (list_find _ listing1) as [[i [name text]]|]; [|done].
  destruct (list_find _ listing2) as [[j [name' text']]|]; [|done].
  simpl in F2. injection F2 as -> ->.
  change (load_json (with_io env cw we now)) with (load_json env).
  destruct (load_json env text) as [collection_summary|]; [|done].
  destruct (py_getitem_str collection_summary "collection_timestamp")
    as [ts|e]; simpl in *; [|done].
  destruct (process_files env output_dir ts listing1 _) as [[st out']|e] eqn:Hp;
    simpl in H; [|done].
  injection H as -> -> <-.
  split; [eapply (process_files_mono env Hw); exact Hp|].
  rewrite process_files_view, Hview.
  rewrite process_files_view in Hp.
  destruct (process_files_rerun env cw we now Hw _ _ _ _ _ _ _ Hp out1
              {| files_processed := 0; articles_new := 0; articles_skipped := 0;
                 errors := 0; errors_list := [] |})
    as (st2 & -> & R1 & R2 & R3 & R4 & msgs & R5 & R6); [done|].
  simpl in *. eexists st2, _. split; [reflexivity|].
  subst msgs. repeat split; try lia. done.
Qed.

(** Two different posts, run twice from an empty output directory. *)
Lemma normalization_rerun_witness :
  exists st2 out1 summary2,
    process_collection_directory
      (with_io ref_normalize (fun _ => false) (fun _ => "read-only") "later")
      (Some (("_normalization_summary.json", "{}")
             :: two_posts (post_plain "1") (post_plain "2")))
      "out" out1
    = Ok (Normalized st2 out1 summary2)
    /\ articles_new st2 = 0 /\ articles_skipped st2 = 2.
Proof.
  destruct (process_collection_directory ref_normalize
              (Some (two_posts (post_plain "1") (post_plain "2"))) "out" ∅)
    as [[| |st1 out1 summary1]|e] eqn:H1;
    try (vm_compute in H1; discriminate).
  destruct (normalization_rerun ref_normalize (fun _ => false)
              (fun _ => "read-only") "later"
              (two_posts (post_plain "1") (post_plain "2"))
              (("_normalization_summary.json", "{}")
               :: two_posts (post_plain "1") (post_plain "2"))
              "out" ∅ st1 out1 summary1)
    as (_ & st2 & summary2 & H2 & Hn & Hs & _); [reflexivity|reflexivity|exact H1|].
  exists st2, out1, summary2. split; [exact H2|]. split; [exact Hn|].
  rewrite Hs. vm_compute in H1. injection H1 as <- _ _. reflexivity.
Defined.

(** The claim as the specification words it fails when the raw input
    holds a URL twice: the first run writes the article once and skips
    its second occurrence, and the second run skips both. *)
Lemma normalization_rerun_counterexample :
  let listing := two_posts (post_plain "1") (post_plain "1") in
  exists st1 out1 summary1 st2 summary2,
    process_collection_directory ref_normalize (Some listing) "out" ∅
    = Ok (Normalized st1 out1 summary1)
    /\ process_collection_directory ref_normalize
         (Some (("_normalization_summary.json", "{}") :: listing)) "out" out1
       = Ok (Normalized st2 out1 summary2)
    /\ articles_new st1 = 1
    /\ articles_new st2 = 0
    /\ articles_skipped st2 = 2
    /\ articles_skipped st2 <> articles_new st1.
Proof.
  cbv zeta. eexists _, _, _, _, _.
  split; [vm_compute; reflexivity|].
  split; [vm_compute; reflexivity|].
  vm_compute. repeat split; discriminate.
Qed.

(** An empty list under ["wp:featuredmedia"] makes the featured-media
    lookup raise, whatever the collaborators. *)
Lemma image_url_of_empty_media article links :
  dict_lookup "_links" article = Some (PDict links) ->
  dict_lookup "wp:featuredmedia" links = Some (PList []) ->
  image_url_of article = Raise (IndexError "list index out of range").
Proof. intros H1 H2. unfold image_url_of. rewrite H1. simpl. by rewrite H2. Qed.

(** C7 (the code at the failing input).  A post that has every required
    field and an empty list under [_links."wp:featuredmedia"] makes
    [normalize_article] raise [IndexError], and the batch over a file
    with this post and a second, sound post ends with that exception:
    no statistics, no summary, and the second post is not reached. *)
Theorem empty_featured_media_aborts_batch :
  Json.loads post_empty_media
  = Some (PDict [("id", PInt 7); ("link", PStr "https://a.com/p7");
                 ("title", PDict [("rendered", PStr "T")]);
                 ("content", PDict [("rendered", PStr "text")]);
                 ("_links", PDict [("wp:featuredmedia", PList [])])])
  /\ normalize_article ref_normalize
       [("id", PInt 7); ("link", PStr "https://a.com/p7");
        ("title", PDict [("rendered", PStr "T")]);
        ("content", PDict [("rendered", PStr "text")]);
        ("_links", PDict [("wp:featuredmedia", PList [])])]
       (PStr "1704240000")
     = Raise (IndexError "list index out of range")
  /\ process_collection_directory ref_normalize
       (Some (two_posts post_empty_media (post_plain "2"))) "out" ∅
     = Raise (IndexError "list index out of range").
Proof. repeat split; vm_compute; reflexivity. Qed.

(** * The fetch driver *)

Section DriverFacts.

Context {St : Type}.
Variable env : helper_env.
Variable browse : nat -> string -> res string.
Variable urls : St -> list string.
Variable emit : fs_event -> St -> res unit * St.
Variable debug_dir : option string.
Variable debug_mode : bool.
Variable on_success : option (string -> pyval -> nat -> St -> res unit * St).
Variable on_error :
  option (string -> string -> option string -> nat -> St -> res unit * St).

Let one := fetch_one env browse emit debug_dir debug_mode on_success on_error.
Let loop := fetch_loop env browse urls emit debug_dir debug_mode on_success on_error.

(** The loop ends, and ends without exception, when every turn keeps an
    invariant and lowers a measure of the work left; the invariant then
    holds at the index where the list is exhausted. *)
Lemma fetch_loop_total (P : nat -> St -> Prop) (mu : nat -> St -> nat) :
  (forall i s url, P i s -> urls s !! i = Some url ->
     exists r s', one i url s = (Ok r, s')
                  /\ P (S i) s' /\ (mu (S i) s' < mu i s)%nat) ->
  forall fuel i results s, P i s -> (mu i s < fuel)%nat ->
    exists results' i' s',
      loop fuel i results s = Some (Ok results', s')
      /\ P i' s' /\ urls s' !! i' = None.
Proof.
  intros Hstep. induction fuel as [|fuel IH]; intros i results s HP Hmu; [lia|].
  simpl. destruct (urls s !! i) as [url|] eqn:Hu.
  - destruct (Hstep i s url HP Hu) as (r & s' & Hone & HP' & Hlt).
    fold one. rewrite Hone. apply IH; [done|lia].
  - by exists results, i, s.
Qed.

End DriverFacts.

(** * The main pass *)

Section MainPass.

Variable env : collect_env.
Variable hours_ago : Z.
Variable debug_mode : bool.
Variable domains : list string.

Implicit Types (s : collect_state).

Lemma emit_write_well_formed e s :
  well_formed domains s -> well_formed domains (emit_write e s).
Proof. done. Qed.

Lemma emit_write_logged e s : logged env s -> logged env (emit_write e s).
Proof.
  intros H d ds p Hd Hp. destruct (H d ds p Hd Hp) as (l & Hin & Hl).
  exists l. split; [|done]. simpl. apply elem_of_app. by left.
Qed.

Lemma save_debug_keeps suffix url content s :
  exists s',
    save_debug (writes_ok emit_write) (Some "debug_pages") suffix url content s
    = (Ok tt, s')
    /\ url_metadata s' = url_metadata s /\ urls s' = urls s
    /\ domain_data s' = domain_data s
    /\ exists evs, fs_log s' = fs_log s ++ evs.
Proof.
  unfold save_debug, writes_ok.
  destruct (debug_target _ _) as [[dir text]|]; eexists; (split; [reflexivity|]);
    simpl.
  - repeat split. by eexists.
  - repeat split. exists []. by rewrite app_nil_r.
Qed.

(** What [on_success] does to the state, whatever the page. *)
Lemma on_success_effect url data index s u domain page_num ds :
  url_metadata s !! index = Some (u, domain, page_num) ->
  domain_data s !! domain = Some ds ->
  exists r s' ds',
    on_success env hours_ago url data index s = (r, s')
    /\ domain_data s' = <[domain := ds']> (domain_data s)
    /\ (exists new_posts, posts ds' = posts ds ++ new_posts)
    /\ (posts ds' = posts ds /\ fs_log s' = fs_log s
        \/ posts ds' <> []
           /\ fs_log s' = fs_log s ++
                [Write (domain_file (timestamp_dir env) domain)
                       (FJson (PList (posts ds')))])
    /\ (same_worklist s s'
        \/ exists next_url,
             page_num < MAX_PAGES_PER_DOMAIN
             /\ enqueued s s' (next_url, domain, page_num + 1)).
Proof.
  intros Hm Hd.
  destruct (py_iter data) as [items|e] eqn:Hi.
  - pose proof (on_success_domain env hours_ago url data index s u domain
                  page_num ds items Hm Hd Hi) as H.
    pose proof (on_success_worklist env hours_ago url data index s u domain
                  page_num ds items Hm Hd Hi) as G.
    cbv zeta in G.
    destruct (on_success env hours_ago url data index s) as [r s'].
    destruct H as (ds' & Hdd & _ & H).
    exists r, s', ds'. split; [done|]. split; [done|].
    destruct (scan_posts items (post_ids ds) [] 0).1 as [[new_posts dup]|e].
    + destruct H as (_ & Hp & Hlog). destruct G as (_ & G1 & G2).
      split; [by exists new_posts|]. split.
      * destruct (posts ds') as [|p l] eqn:Hpd.
        -- left. rewrite app_nil_r in Hlog. split; [|done].
           symmetry in Hp. apply app_eq_nil in Hp as [-> _]. done.
        -- right. by split.
      * destruct (decide (Z.of_nat (length new_posts) = 100 /\ dup = 0
                          /\ page_num < 20)) as [Hc|Hc].
        -- right. eexists. split; [by destruct Hc as (_ & _ & ?)|].
           by apply G1.
        -- left. apply G2. intros He. by apply G1 in He.
    + destruct H as (_ & Hp & Hlog). destruct G as [_ G].
      split; [exists []; by rewrite app_nil_r|]. split; [by left|by left].
  - exists (Raise e), s, ds. unfold on_success. rewrite Hm, Hi.
    split; [done|]. split; [by rewrite insert_id|].
    split; [exists []; by rewrite app_nil_r|]. split; by left.
Qed.

Lemma on_error_effect url error_text content index s u domain page_num ds :
  url_metadata s !! index = Some (u, domain, page_num) ->
  domain_data s !! domain = Some ds ->
  on_error url error_text content index s
  = (Ok tt,
     set_domain domain
       {| posts := posts ds; pages_fetched := pages_fetched ds;
          status := "error"; error := Some error_text;
          post_ids := post_ids ds |} s).
Proof. intros Hm Hd. unfold on_error. by rewrite Hm, Hd. Qed.

(** A change of one entry that keeps or extends its posts, with the
    matching writes, keeps the invariants. *)
Lemma well_formed_update s s' domain ds' :
  well_formed domains s ->
  urls s' = map (fun item => item.1.1) (url_metadata s') ->
  Forall (fun item => item.2 <= MAX_PAGES_PER_DOMAIN /\ item.1.2 ∈ domains)
         (url_metadata s') ->
  domain_data s' = <[domain := ds']> (domain_data s) ->
  well_formed domains s'.
Proof.
  intros (_ & _ & H3) Hu Hf Hdd. repeat split; [done..|].
  intros d Hd. rewrite Hdd. destruct (decide (domain = d)) as [->|Hne].
  - rewrite lookup_insert_eq. by eexists.
  - rewrite lookup_insert_ne by done. by apply H3.
Qed.

Lemma logged_update s s' domain ds ds' :
  logged env s ->
  domain_data s !! domain = Some ds ->
  domain_data s' = <[domain := ds']> (domain_data s) ->
  (posts ds' = posts ds /\ (exists evs, fs_log s' = fs_log s ++ evs)
   \/ exists evs, fs_log s' = fs_log s ++
        Write (domain_file (timestamp_dir env) domain) (FJson (PList (posts ds')))
        :: evs) ->
  logged env s'.
Proof.
  intros Hl Hd Hdd Hcase d ds0 p Hd0 Hp. rewrite Hdd in Hd0.
  assert (Hold : forall d1 ds1, domain_data s !! d1 = Some ds1 -> p ∈ posts ds1 ->
            forall evs, fs_log s' = fs_log s ++ evs ->
            exists l, Write (domain_file (timestamp_dir env) d1) (FJson (PList l))
                        ∈ fs_log s' /\ p ∈ l).
  { intros d1 ds1 H1 H2 evs ->. destruct (Hl d1 ds1 p H1 H2) as (l & Hin & Hpl).
    exists l. split; [|done]. apply elem_of_app. by left. }
  destruct (decide (domain = d)) as [->|Hne].
  - rewrite lookup_insert_eq in Hd0. injection Hd0 as <-.
    destruct Hcase as [[Hsame [evs Hlog]]|[evs Hlog]].
    + rewrite Hsame in Hp. by eapply Hold.
    + exists (posts ds'). split; [|done]. rewrite Hlog.
      apply elem_of_app. right. by left.
  - rewrite lookup_insert_ne in Hd0 by done.
    destruct Hcase as [[_ [evs Hlog]]|[evs Hlog]]; by eapply Hold.
Qed.

Lemma work_left_step i s s' item :
  url_metadata s !! i = Some item ->
  item.2 <= MAX_PAGES_PER_DOMAIN ->
  (url_metadata s' = url_metadata s
   \/ exists next_url,
        item.2 < MAX_PAGES_PER_DOMAIN
        /\ url_metadata s' = url_metadata s ++ [(next_url, item.1.2, item.2 + 1)]) ->
  (work_left (S i) s' < work_left i s)%nat.
Proof.
  intros Hi Hle Hcase. unfold work_left.
  rewrite (drop_S _ _ _ Hi). simpl.
  assert (Hw : (1 <= item_weight item)%nat)
    by (unfold item_weight, MAX_PAGES_PER_DOMAIN in *; lia).
  destruct Hcase as [->|(next_url & Hlt & ->)]; [lia|].
  rewrite drop_app_le by (apply lookup_lt_Some in Hi; lia).
  rewrite sum_list_with_app. simpl.
  unfold item_weight, MAX_PAGES_PER_DOMAIN in *. simpl. lia.
Qed.

(** The invariant of the main pass. *)
Let inv s : Prop := well_formed domains s /\ logged env s.

Lemma inv_lookup s i url :
  inv s -> urls s !! i = Some url ->
  exists domain page_num ds,
    url_metadata s !! i = Some (url, domain, page_num)
    /\ page_num <= MAX_PAGES_PER_DOMAIN
    /\ domain_data s !! domain = Some ds.
Proof.
  intros [(Hu & Hf & Hd) _] Hi. rewrite Hu in Hi.
  change (map ?f ?l) with (f <$> l) in Hi.
  rewrite list_lookup_fmap in Hi.
  destruct (url_metadata s !! i) as [[[u domain] page_num]|] eqn:Hm;
    [|discriminate].
  simpl in Hi. injection Hi as ->.
  rewrite Forall_forall in Hf.
  destruct (Hf _ (list_elem_of_lookup_2 _ _ _ Hm)) as [Hle Hin]. simpl in *.
  destruct (Hd _ Hin) as [ds Hds]. by exists domain, page_num, ds.
Qed.

Lemma save_debug_inv suffix url content s :
  inv s ->
  exists s',
    save_debug (writes_ok emit_write) (Some "debug_pages") suffix url content s
    = (Ok tt, s')
    /\ inv s' /\ url_metadata s' = url_metadata s.
Proof.
  intros [Hw Hl].
  destruct (save_debug_keeps suffix url content s)
    as (s' & Hs & Hm & Hu & Hd & evs & He).
  exists s'. split; [done|]. split; [|done]. split.
  - unfold well_formed. by rewrite Hm, Hu, Hd.
  - intros d ds p H1 H2. rewrite Hd in H1.
    destruct (Hl d ds p H1 H2) as (l & Hin & Hp). exists l. split; [|done].
    rewrite He. apply elem_of_app. by left.
Qed.

Lemma handle_failure_main i url e content s domain page_num :
  inv s ->
  url_metadata s !! i = Some (url, domain, page_num) ->
  exists r s',
    handle_failure (writes_ok emit_write) (Some "debug_pages") (Some on_error)
      i url e content s = (Ok r, s')
    /\ inv s' /\ url_metadata s' = url_metadata s.
Proof.
  intros Hinv Hm. unfold handle_failure.
  destruct (save_debug_inv "_error.html" url content s Hinv)
    as (s1 & -> & Hinv1 & Hm1).
  destruct Hinv1 as [Hw1 Hl1].
  assert (Hds : is_Some (domain_data s1 !! domain)).
  { destruct Hw1 as (_ & Hf & Hd). rewrite Forall_forall in Hf.
    rewrite <- Hm1 in Hm.
    destruct (Hf _ (list_elem_of_lookup_2 _ _ _ Hm)) as [_ Hin]. by apply Hd. }
  destruct Hds as [ds Hds]. rewrite <- Hm1 in Hm.
  rewrite (on_error_effect url (exn_msg e) content i s1 url domain page_num ds Hm Hds).
  eexists _, _. split; [reflexivity|]. split; [|by rewrite <- Hm1].
  split.
  - eapply well_formed_update; [exact Hw1| | |reflexivity]; simpl; apply Hw1.
  - eapply logged_update; [exact Hl1|exact Hds|reflexivity|].
    left. split; [done|]. exists []. by rewrite app_nil_r.
Qed.

Lemma on_success_main url data i s domain page_num :
  inv s ->
  url_metadata s !! i = Some (url, domain, page_num) ->
  page_num <= MAX_PAGES_PER_DOMAIN ->
  exists r s',
    on_success env hours_ago url data i s = (r, s')
    /\ inv s'
    /\ (url_metadata s' = url_metadata s
        \/ exists next_url,
             page_num < MAX_PAGES_PER_DOMAIN
             /\ url_metadata s' = url_metadata s ++ [(next_url, domain, page_num + 1)]).
Proof.
  intros [Hw Hl] Hm Hle.
  assert (Hin : domain ∈ domains).
  { destruct Hw as (_ & Hf & _). rewrite Forall_forall in Hf.
    by destruct (Hf _ (list_elem_of_lookup_2 _ _ _ Hm)). }
  destruct Hw as (Hu & Hf & Hd). destruct (Hd _ Hin) as [ds Hds].
  destruct (on_success_effect url data i s url domain page_num ds Hm Hds)
    as (r & s' & ds' & Hon & Hdd & _ & Hlog & Hwl).
  exists r, s'. split; [done|].
  assert (Hmd : url_metadata s' = url_metadata s /\ urls s' = urls s
                \/ exists next_url,
                     page_num < MAX_PAGES_PER_DOMAIN
                     /\ url_metadata s' = url_metadata s ++ [(next_url, domain, page_num + 1)]
                     /\ urls s' = urls s ++ [next_url]).
  { destruct Hwl as [[? ?]|(next_url & Hlt & He1 & He2)]; [by left|].
    right. by exists next_url. }
  split; [split|].
  - eapply well_formed_update; [by repeat split| | |exact Hdd].
    + destruct Hmd as [[-> ->]|(next_url & _ & -> & ->)]; [done|].
      rewrite map_app. simpl. by rewrite Hu.
    + destruct Hmd as [[-> _]|(next_url & Hlt & -> & _)]; [done|].
      apply Forall_app. split; [done|]. constructor; [|done]. simpl.
      split; [lia|done].
  - eapply logged_update; [exact Hl|exact Hds|exact Hdd|].
    destruct Hlog as [[Hp Hlg]|[Hp Hlg]].
    + left. split; [done|]. exists []. by rewrite app_nil_r.
    + right. by exists [].
  - destruct Hmd as [[? _]|(next_url & Hlt & ? & _)]; [by left|].
    right. by exists next_url.
Qed.

(** One turn of the main pass: it ends without exception, keeps the
    invariant and lowers the work left. *)
Lemma main_step i s url :
  inv s -> urls s !! i = Some url ->
  exists r s',
    fetch_one (helper env) (browse_main env) (writes_ok emit_write)
      (Some "debug_pages") debug_mode (Some (on_success env hours_ago))
      (Some on_error) i url s
    = (Ok r, s')
    /\ inv s' /\ (work_left (S i) s' < work_left i s)%nat.
Proof.
  intros Hinv Hi.
  destruct (inv_lookup s i url Hinv Hi) as (domain & page_num & ds & Hm & Hle & Hds).
  assert (Hfail : forall e content s1,
            inv s1 ->
            (url_metadata s1 = url_metadata s
             \/ exists next_url,
                  page_num < MAX_PAGES_PER_DOMAIN
                  /\ url_metadata s1
                     = url_metadata s ++ [(next_url, domain, page_num + 1)]) ->
            exists r s',
              handle_failure (writes_ok emit_write) (Some "debug_pages")
                (Some on_error) i url e content s1 = (Ok r, s')
              /\ inv s' /\ (work_left (S i) s' < work_left i s)%nat).
  { intros e content s1 Hinv1 Hmd.
    assert (Hm1 : url_metadata s1 !! i = Some (url, domain, page_num)).
    { destruct Hmd as [->|(next_url & _ & ->)]; [done|].
      rewrite lookup_app_l; [done|]. by apply lookup_lt_Some in Hm. }
    destruct (handle_failure_main i url e content s1 domain page_num Hinv1 Hm1)
      as (r & s' & Hh & Hinv' & Hmd').
    exists r, s'. split; [done|]. split; [done|].
    eapply work_left_step; [exact Hm|exact Hle|]. by rewrite Hmd'. }
  unfold fetch_one.
  destruct (browse_main env i url) as [content|e]; [|apply Hfail; auto].
  destruct (extract_json_from_content (helper env) content) as [data|e];
    [|apply Hfail; auto].
  assert (Hdbg : exists s1,
            (if debug_mode
             then save_debug (writes_ok emit_write) (Some "debug_pages")
                    "_success.html" url (Some content) s
             else (Ok tt, s)) = (Ok tt, s1)
            /\ inv s1 /\ url_metadata s1 = url_metadata s).
  { destruct debug_mode; [by apply save_debug_inv|by exists s]. }
  destruct Hdbg as (s1 & -> & Hinv1 & Hmd1).
  assert (Hm1 : url_metadata s1 !! i = Some (url, domain, page_num))
    by by rewrite Hmd1.
  destruct (on_success_main url data i s1 domain page_num Hinv1 Hm1 Hle)
    as (r & s2 & Hon & Hinv2 & Hmd2).
  rewrite Hon. rewrite Hmd1 in Hmd2.
  destruct r as [[]|e]; [|by apply Hfail].
  eexists _, _. split; [reflexivity|]. split; [done|].
  eapply work_left_step; [exact Hm|exact Hle|exact Hmd2].
Qed.

End MainPass.

Section MainPassTotal.

Variable env : collect_env.
Variable hours_ago : Z.
Variable debug_mode : bool.
Variable domains : list string.

Lemma initial_state_lookup d ds :
  domain_data (initial_state env hours_ago domains) !! d = Some ds ->
  d ∈ domains /\ posts ds = [].
Proof.
  simpl. intros H. apply elem_of_list_to_map_2 in H.
  apply list_elem_of_fmap in H as (d' & [= -> ->] & Hin). done.
Qed.

Lemma initial_state_well_formed :
  well_formed domains (initial_state env hours_ago domains).
Proof.
  repeat split.
  - simpl. unfold build_domain_urls. apply Forall_forall.
    intros item Hin. apply list_elem_of_fmap in Hin as (d & -> & Hd). done.
  - intros d Hd. simpl.
    destruct (list_to_map _ !! d) as [ds|] eqn:Hl; [by eexists|].
    apply not_elem_of_list_to_map_2 in Hl. exfalso. apply Hl.
    rewrite <- list_fmap_compose. simpl.
    apply list_elem_of_fmap. by exists d.
Qed.

Lemma initial_state_logged : logged env (initial_state env hours_ago domains).
Proof.
  intros d ds p Hd Hp. apply initial_state_lookup in Hd as [_ Hposts].
  rewrite Hposts in Hp. by apply elem_of_nil in Hp.
Qed.

Lemma initial_work_left :
  work_left 0 (initial_state env hours_ago domains)
  = (Z.to_nat MAX_PAGES_PER_DOMAIN * length domains)%nat.
Proof.
  unfold work_left, initial_state, build_domain_urls.
  cbn [url_metadata]. rewrite drop_0.
  generalize (after_date_iso env 0 hours_ago). intros after.
  generalize domains. intros l.
  induction l as [|d l IH]; [done|].
  cbn [map sum_list_with length]. rewrite IH.
  unfold item_weight, MAX_PAGES_PER_DOMAIN. simpl. lia.
Qed.

(** The main pass ends: the turns allowed are enough, no exception
    leaves the loop, and the state it ends in has an entry for every
    domain and every stored post in a write of its domain's file. *)
Lemma main_pass_total :
  exists results s,
    main_pass env hours_ago debug_mode domains = Some (Ok results, s)
    /\ well_formed domains s /\ logged env s.
Proof.
  unfold main_pass, fetch_json_from_urls.
  destruct (fetch_loop_total (helper env) (browse_main env) urls
              (writes_ok emit_write) (Some "debug_pages") debug_mode
              (Some (on_success env hours_ago)) (Some on_error)
              (fun _ s => well_formed domains s /\ logged env s) work_left
              (main_step env hours_ago debug_mode domains)
              (S (Z.to_nat MAX_PAGES_PER_DOMAIN * length domains)) 0 []
              (initial_state env hours_ago domains))
    as (results & i' & s' & Hloop & [Hw Hl] & _).
  - split; [apply initial_state_well_formed|apply initial_state_logged].
  - rewrite initial_work_left. lia.
  - exists results, s'. repeat split; try done; try apply Hw.
Qed.

End MainPassTotal.

(** * The final loop and the diagnostic pass *)

Section Finalize.

Variable env : collect_env.
Variable hours_ago : Z.
Variable debug_mode : bool.

Lemma finalize_fold dd l : forall f0,
  (forall d, d ∈ l -> is_Some (dd !! d)) ->
  exists f,
    foldl (fun acc domain => finalize_domain env dd domain acc) (Ok f0) l = Ok f
    /\ sites_needing_testing f
       = sites_needing_testing f0 ++ filter (fun d => needs_testing dd d = true) l
    /\ final_log f = final_log f0 ++ omap (final_write env dd) l
    /\ length (results f) = (length (results f0) + length l)%nat.
Proof.
  induction l as [|d l IH]; intros f0 Hall.
  - exists f0. simpl. rewrite !app_nil_r. repeat split; lia.
  - destruct (Hall d) as [data Hd]; [by left|].
    assert (Hall' : forall d', d' ∈ l -> is_Some (dd !! d'))
      by (intros d' Hin; apply Hall; by right).
    assert (Hn : needs_testing dd d
                 = match posts data with
                   | [] => negb (truthy (option_str (error data)))
                   | _ :: _ => false
                   end) by (unfold needs_testing; by rewrite Hd).
    assert (Hw : final_write env dd d
                 = match posts data with
                   | [] => None
                   | _ :: _ => Some (Write (domain_file (timestamp_dir env) d)
                                           (FJson (PList (posts data))))
                   end) by (unfold final_write; by rewrite Hd).
    cbn [foldl]. rewrite filter_cons. unfold omap. cbn [list_omap].
    rewrite Hw. unfold finalize_domain at 2. cbn [bind]. rewrite Hd.
    destruct (posts data) as [|p ps] eqn:Hp.
    + destruct (negb (truthy (option_str (error data)))) eqn:Ht.
      * match goal with
        | |- context [foldl _ (Ok ?x) l] =>
            destruct (IH x Hall') as (f & -> & H1 & H2 & H3)
        end.
        exists f. rewrite decide_True by done.
        rewrite H1, H2, H3. cbn [sites_needing_testing final_log results].
        rewrite <- app_assoc, length_app. simpl.
        repeat split; try done; lia.
      * match goal with
        | |- context [foldl _ (Ok ?x) l] =>
            destruct (IH x Hall') as (f & -> & H1 & H2 & H3)
        end.
        exists f. rewrite decide_False by (rewrite Hn; done).
        rewrite H1, H2, H3. cbn [sites_needing_testing final_log results].
        rewrite length_app. simpl. repeat split; try done; lia.
    + match goal with
        | |- context [foldl _ (Ok ?x) l] =>
            destruct (IH x Hall') as (f & -> & H1 & H2 & H3)
        end.
      exists f. rewrite decide_False by (rewrite Hn; done).
      rewrite H1, H2, H3. cbn [sites_needing_testing final_log results].
      rewrite <- app_assoc, length_app. simpl.
      repeat split; try done; lia.
Qed.

(** The final loop: it ends without exception, sends to the diagnostic
    pass the entries of the domain list without stored post and without
    error message, and writes the file of every domain with posts. *)
Lemma finalize_spec domains s :
  (forall d, d ∈ domains -> is_Some (domain_data s !! d)) ->
  exists f,
    finalize env domains s = Ok f
    /\ sites_needing_testing f
       = filter (fun d => needs_testing (domain_data s) d = true) domains
    /\ final_log f = fs_log s ++ omap (final_write env (domain_data s)) domains.
Proof.
  intros Hall. unfold finalize.
  destruct (finalize_fold (domain_data s) domains
              {| results := []; sites_needing_testing := [];
                 final_log := fs_log s |} Hall) as (f & Hf & H1 & H2 & _).
  exists f. by repeat split.
Qed.

End Finalize.

Section TestPass.

Variable env : collect_env.
Variable hours_ago : Z.
Variable debug_mode : bool.
Variable sites : list string.
Variable log0 : list fs_event.

(** The invariant of the diagnostic pass at item [i]. *)
Let tinv (i : nat) (t : test_state) : Prop :=
  test_urls t = map test_url sites
  /\ test_metadata t = map (fun domain => (test_url domain, domain)) sites
  /\ test_results t = probe_results env hours_ago sites i
  /\ exists evs, test_log t = log0 ++ evs.

Lemma probe_results_S i d :
  sites !! i = Some d ->
  probe_results env hours_ago sites (S i)
  = dict_set d (probe_note env hours_ago i d) (probe_results env hours_ago sites i).
Proof.
  intros Hi. unfold probe_results.
  erewrite take_S_r; [|rewrite list_lookup_imap, Hi; reflexivity].
  by rewrite foldl_app.
Qed.

Lemma test_save_debug suffix url content t :
  exists t',
    save_debug (writes_ok test_emit) (Some "debug_pages") suffix url content t
    = (Ok tt, t')
    /\ test_urls t' = test_urls t /\ test_metadata t' = test_metadata t
    /\ test_results t' = test_results t
    /\ exists evs, test_log t' = test_log t ++ evs.
Proof.
  unfold save_debug, writes_ok.
  destruct (debug_target _ _) as [[dir text]|]; eexists; (split; [reflexivity|]);
    simpl.
  - repeat split. by eexists.
  - repeat split. exists []. by rewrite app_nil_r.
Qed.

Lemma test_step i t url :
  tinv i t -> test_urls t !! i = Some url ->
  exists r t',
    fetch_one (helper env) (browse_test env) (writes_ok test_emit)
      (Some "debug_pages") debug_mode (Some (on_test_success hours_ago))
      (Some on_test_error) i url t
    = (Ok r, t')
    /\ tinv (S i) t' /\ (length sites - S i < length sites - i)%nat.
Proof.
  intros (Hu & Hm & Hr & evs & Hl) Hi.
  rewrite Hu in Hi. change (map ?f ?l) with (f <$> l) in Hi.
  rewrite list_lookup_fmap in Hi.
  destruct (sites !! i) as [d|] eqn:Hd; [|discriminate].
  simpl in Hi. injection Hi as <-.
  assert (Hlt : (i < length sites)%nat) by (by apply lookup_lt_Some in Hd).
  assert (Hfail : forall e content,
            probe env i d = Raise e ->
            exists r t',
              handle_failure (writes_ok test_emit) (Some "debug_pages")
                (Some on_test_error) i (test_url d) e content t = (Ok r, t')
              /\ tinv (S i) t').
  { intros e content Hp. unfold handle_failure.
    destruct (test_save_debug "_error.html" (test_url d) content t)
      as (t1 & -> & Hu1 & Hm1 & Hr1 & evs1 & Hl1).
    unfold on_test_error. rewrite Hm1, Hm.
    change (map ?f ?l) with (f <$> l). rewrite list_lookup_fmap, Hd. simpl.
    eexists _, _. split; [reflexivity|].
    unfold tinv. simpl. rewrite Hu1, Hm1, Hr1, Hl1, Hu, Hm, Hr, Hl.
    repeat split.
    - rewrite (probe_results_S i d Hd). unfold probe_note. by rewrite Hp.
    - exists (evs ++ evs1). by rewrite app_assoc. }
  unfold fetch_one.
  destruct (browse_test env i (test_url d)) as [content|e] eqn:Hb.
  - destruct (extract_json_from_content (helper env) content) as [data|e] eqn:He.
    + assert (H1 : exists t1,
                (if debug_mode
                 then save_debug (writes_ok test_emit) (Some "debug_pages")
                        "_success.html" (test_url d) (Some content) t
                 else (Ok tt, t)) = (Ok tt, t1)
                /\ test_urls t1 = test_urls t /\ test_metadata t1 = test_metadata t
                /\ test_results t1 = test_results t
                /\ exists evs1, test_log t1 = test_log t ++ evs1).
      { destruct debug_mode; [apply test_save_debug|].
        exists t. repeat split. exists []. by rewrite app_nil_r. }
      destruct H1 as (t1 & -> & Hu1 & Hm1 & Hr1 & evs1 & Hl1).
      unfold on_test_success. rewrite Hm1, Hm.
      change (map ?f ?l) with (f <$> l). rewrite list_lookup_fmap, Hd. simpl.
      eexists _, _. split; [reflexivity|]. split; [|lia].
      unfold tinv. simpl. rewrite Hu1, Hm1, Hr1, Hl1, Hu, Hm, Hr, Hl.
      repeat split.
      * rewrite (probe_results_S i d Hd). unfold probe_note, probe.
        rewrite Hb. simpl. by rewrite He.
      * exists (evs ++ evs1). by rewrite app_assoc.
    + destruct (Hfail e (Some content)) as (r & t' & H & Hinv).
      { unfold probe. rewrite Hb. simpl. by rewrite He. }
      exists r, t'. split; [done|]. split; [done|lia].
  - destruct (Hfail e None) as (r & t' & H & Hinv).
    { unfold probe. by rewrite Hb. }
    exists r, t'. split; [done|]. split; [done|lia].
Qed.

(** The diagnostic pass ends without exception, with the record of
    every request in [test_results]. *)
Lemma test_pass_total :
  exists results t,
    test_pass env hours_ago debug_mode sites log0 = Some (Ok results, t)
    /\ test_results t = probe_results env hours_ago sites (length sites)
    /\ exists evs, test_log t = log0 ++ evs.
Proof.
  unfold test_pass, fetch_json_from_urls.
  destruct (fetch_loop_total (helper env) (browse_test env) test_urls
              (writes_ok test_emit) (Some "debug_pages") debug_mode
              (Some (on_test_success hours_ago)) (Some on_test_error)
              tinv (fun i _ => (length sites - i)%nat) test_step
              (S (length sites)) 0 [] (test_state_of sites log0))
    as (results & i' & t' & Hloop & (Hu & _ & Hr & Hl) & Hend).
  - unfold tinv. simpl. repeat split. exists []. by rewrite app_nil_r.
  - lia.
  - exists results, t'. split; [done|]. split; [|done].
    rewrite Hr. unfold probe_results.
    rewrite Hu in Hend. apply lookup_ge_None in Hend.
    rewrite length_map in Hend.
    rewrite !take_ge; [done|rewrite length_imap; lia..].
Qed.

End TestPass.

(** * The run *)

Section DictFacts.

Lemma dict_lookup_set k k' v d :
  dict_lookup k (dict_set k' v d)
  = if decide (k' = k) then Some v else dict_lookup k d.
Proof.
  induction d as [|[k0 v0] d IH]; simpl.
  - destruct (String.eqb_spec k' k);
      [rewrite decide_True by done|rewrite decide_False by done]; done.
  - destruct (String.eqb_spec k0 k'); simpl.
    + subst k0. destruct (String.eqb_spec k' k);
        [rewrite decide_True by done|rewrite decide_False by done]; done.
    + destruct (String.eqb_spec k0 k); [|done].
      subst k0. by rewrite decide_False.
Qed.

Lemma build_site_notes_lookup results d sites :
  dict_lookup d (build_site_notes sites results)
  = if decide (d ∈ sites)
    then Some (default untested_note (dict_lookup d results)) else None.
Proof.
  unfold build_site_notes.
  assert (H : forall acc,
    dict_lookup d
      (foldl (fun notes domain =>
                dict_set domain
                  (default untested_note (dict_lookup domain results)) notes)
             acc sites)
    = if decide (d ∈ sites)
      then Some (default untested_note (dict_lookup d results))
      else dict_lookup d acc).
  { induction sites as [|x l IH]; intros acc; cbn [foldl].
    - rewrite decide_False; [done|apply not_elem_of_nil].
    - rewrite IH. destruct (decide (d ∈ l)) as [Hin|Hnin].
      + rewrite decide_True; [done|by right].
      + rewrite dict_lookup_set. destruct (decide (x = d)) as [->|Hne].
        * rewrite decide_True; [done|by left].
        * rewrite decide_False; [done|].
          intros [->|?]%elem_of_cons; done. }
  by rewrite H.
Qed.

Lemma probe_results_lookup env hours_ago sites d i : forall n,
  sites !! i = Some d -> (i < n)%nat -> (n <= length sites)%nat ->
  (forall j, (i < j)%nat -> (j < n)%nat -> sites !! j <> Some d) ->
  dict_lookup d (probe_results env hours_ago sites n)
  = Some (probe_note env hours_ago i d).
Proof.
  induction n as [|n IH]; intros Hi Hlt Hle Hlast; [lia|].
  destruct (lookup_lt_is_Some_2 sites n) as [d' Hd']; [lia|].
  rewrite (probe_results_S env hours_ago sites n d' Hd'), dict_lookup_set.
  destruct (decide (i = n)) as [->|Hne].
  - rewrite Hd' in Hi. injection Hi as ->. by rewrite decide_True.
  - destruct (decide (d' = d)) as [->|Hd].
    + exfalso. apply (Hlast n); [lia|lia|done].
    + apply IH; [done|lia|lia|]. intros j H1 H2. apply Hlast; lia.
Qed.

End DictFacts.

Section Run.

Variable env : collect_env.
Variable hours_ago : Z.
Variable debug_mode : bool.

(** A run over an existing domains file ends with a report: no pass
    runs out of turns and no exception leaves it. *)
Lemma collect_completes lines :
  let domains := read_domains lines in
  exists fetched s f log,
    main_pass env hours_ago debug_mode domains = Some (Ok fetched, s)
    /\ well_formed domains s /\ logged env s
    /\ finalize env domains s = Ok f
    /\ (exists evs, log = final_log f ++ evs)
    /\ let sites := sites_needing_testing f in
       let notes := build_site_notes sites
                      (probe_results env hours_ago sites (length sites)) in
       forall summary,
         summary = PDict [("collection_timestamp", PStr (timestamp_str env));
                          ("collection_date", PStr (date_str env));
                          ("hours_ago", PInt hours_ago);
                          ("results", PList (results f))] ->
         collect_wordpress_posts env hours_ago debug_mode (Some lines)
         = Some (Ok (Collected
             {| report_state := s;
                report_tested := sites;
                report_test_urls := map test_url sites;
                report_site_notes := notes;
                report_summary := summary;
                report_log := log ++ [Write (summary_path env) (FJson summary)] |})).
Proof.
  intros domains.
  destruct (main_pass_total env hours_ago debug_mode domains)
    as (fetched & s & Hmain & Hw & Hl).
  destruct (finalize_spec env domains s) as (f & Hf & Hsites & Hlog);
    [apply Hw|].
  unfold collect_wordpress_posts. fold domains. rewrite Hmain, Hf.
  destruct (sites_needing_testing f) as [|d sites'] eqn:Hs.
  - exists fetched, s, f, (final_log f).
    do 4 (split; [done|]). split.
    + exists []. by rewrite app_nil_r.
    + cbv zeta. rewrite ?Hs. intros summary ->. reflexivity.
  - destruct (test_pass_total env hours_ago debug_mode (d :: sites') (final_log f))
      as (tr & t & Ht & Hres & evs & Hlg).
    rewrite Ht, Hres.
    set (notes := build_site_notes _ _).
    exists fetched, s, f,
      (match notes with
       | [] => test_log t
       | _ :: _ => test_log t ++ [Write (notes_path env) (FJson (PDict notes))]
       end).
    do 4 (split; [done|]). split.
    + destruct notes; rewrite Hlg; [by exists evs|].
      eexists. by rewrite <- app_assoc.
    + cbv zeta. rewrite ?Hs. intros summary ->. reflexivity.
Qed.

Lemma replay_last fs log path data :
  replay fs (log ++ [Write path data]) !! path = Some data.
Proof. unfold replay. rewrite foldl_app. simpl. apply lookup_insert_eq. Qed.

(** A run over an existing domains file ends with a report.  After
    the main pass, the entries of the domain list whose domain has no
    stored post and no non-empty error message get one diagnostic
    request each, in the order of the list, to the posts URL of the
    domain with [page=1], [per_page=10], [orderby=date], [order=desc]
    and no [after]; each such domain ends with the diagnostics record
    of its last request: [has_json_api] is true when the page was
    fetched and parsed and false when the fetch or the extraction
    raised, together with [articles_found] and [note]; a domain that
    got no request has no record. *)
Lemma diagnostic_requests lines :
  exists r,
    collect_wordpress_posts env hours_ago debug_mode (Some lines)
    = Some (Ok (Collected r))
    /\ report_tested r
       = filter (fun d => needs_testing (domain_data (report_state r)) d = true)
                (read_domains lines)
    /\ report_test_urls r = map test_url (report_tested r)
    /\ (forall d,
          test_url d
          = posts_url d +:+ "?page=1&per_page=10&orderby=date&order=desc")
    /\ (forall i d,
          report_tested r !! i = Some d ->
          (forall j, (i < j)%nat -> report_tested r !! j <> Some d) ->
          dict_lookup d (report_site_notes r)
          = Some (probe_note env hours_ago i d))
    /\ (forall i d,
          note_field "has_json_api" (probe_note env hours_ago i d)
          = Some (PBool (match probe env i d with Ok _ => true | Raise _ => false end))
          /\ is_Some (note_field "articles_found" (probe_note env hours_ago i d))
          /\ is_Some (note_field "note" (probe_note env hours_ago i d)))
    /\ (forall d, d ∉ report_tested r -> dict_lookup d (report_site_notes r) = None).
Proof.
  destruct (collect_completes lines)
    as (fetched & s & f & log & Hmain & Hw & Hl & Hf & _ & Hrun).
  destruct (finalize_spec env (read_domains lines) s) as (f' & Hf' & Hsites & _);
    [apply Hw|].
  rewrite Hf in Hf'. injection Hf' as <-.
  eexists. split; [apply Hrun; reflexivity|]. simpl.
  split; [exact Hsites|]. split; [done|]. split; [done|]. split; [|split].
  - intros i d Hi Hlast.
    rewrite build_site_notes_lookup, decide_True
      by (eapply list_elem_of_lookup_2; exact Hi).
    rewrite (probe_results_lookup env hours_ago _ d i); [done|done| |lia|].
    + by apply lookup_lt_Some in Hi.
    + intros j H1 _. by apply Hlast.
  - intros i d. unfold probe_note.
    destruct (probe env i d); simpl; repeat split; by eexists.
  - intros d Hd. by rewrite build_site_notes_lookup, decide_False.
Qed.

(** C4 (amended). When the success callback has scanned a page, the
    stored posts of the domain are the posts stored before followed by
    the new posts of the page, among them a post for every truthy
    identifier of the page that was not seen before; if the domain then
    has stored posts, the callback has written the domain's file once,
    with the full list of the stored posts, and the file holds that list
    whatever it held before; if the domain has none, the callback has
    written nothing.  A run ends with a report; its last write is the
    summary, the writes of the main pass come before it, every stored
    post is in a list written to its domain's file during the main pass,
    and the final loop writes the full list of every listed domain with
    posts once more, before the summary. *)
Theorem posts_persisted_incrementally lines :
  (forall url data index s u domain page_num ds items new_posts dup ids,
     url_metadata s !! index = Some (u, domain, page_num) ->
     domain_data s !! domain = Some ds ->
     py_iter data = Ok items ->
     scan_posts items (post_ids ds) [] 0 = (Ok (new_posts, dup), ids) ->
     let s' := (on_success env hours_ago url data index s).2 in
     let file := domain_file (timestamp_dir env) domain in
     exists ds',
       domain_data s' !! domain = Some ds'
       /\ posts ds' = posts ds ++ new_posts
       /\ (forall k, k ∈ page_keys items -> k ∉ post_ids ds ->
             exists p, p ∈ new_posts /\ p ∈ items /\ post_key p = Some k)
       /\ match posts ds' with
          | [] => fs_log s' = fs_log s
          | _ :: _ =>
              fs_log s' = fs_log s ++ [Write file (FJson (PList (posts ds')))]
              /\ forall fs, replay fs (fs_log s') !! file
                            = Some (FJson (PList (posts ds')))
          end)
  /\ exists r evs,
       collect_wordpress_posts env hours_ago debug_mode (Some lines)
       = Some (Ok (Collected r))
       /\ report_log r
          = fs_log (report_state r) ++ evs
            ++ [Write (summary_path env) (FJson (report_summary r))]
       /\ logged env (report_state r)
       /\ forall d ds,
            d ∈ read_domains lines ->
            domain_data (report_state r) !! d = Some ds ->
            posts ds <> [] ->
            Write (domain_file (timestamp_dir env) d) (FJson (PList (posts ds)))
              ∈ evs.
Proof.
  split.
  - intros url data index s u domain page_num ds items new_posts dup ids
      Hm Hd Hi Hs s' file.
    pose proof (on_success_domain env hours_ago url data index s u domain
                  page_num ds items Hm Hd Hi) as H.
    unfold s'. destruct (on_success env hours_ago url data index s) as [r s1].
    destruct H as (ds' & Hdd & _ & H). rewrite Hs in H. simpl in H.
    destruct H as (_ & Hp & Hlog). simpl.
    exists ds'. split; [rewrite Hdd; apply lookup_insert_eq|].
    split; [done|]. split.
    + intros k Hk Hn.
      apply scan_posts_ok in Hs as (_ & fresh & Hf & Hsub & _ & Hall & Hset & _).
      simpl in Hf. subst fresh.
      assert (Hin : k ∈ (list_to_set (omap post_key new_posts) : gset pykey))
        by (rewrite Hset; set_solver).
      apply elem_of_list_to_set, list_elem_of_omap in Hin as (p & Hp1 & Hp2).
      exists p. split; [done|]. split; [|done].
      eapply elem_of_sublist; eauto.
    + destruct (posts ds'); [by rewrite app_nil_r in Hlog|].
      split; [done|]. intros fs. rewrite Hlog. apply replay_last.
  - destruct (collect_completes lines)
      as (fetched & s & f & log & Hmain & Hw & Hl & Hf & [evs ->] & Hrun).
    destruct (finalize_spec env (read_domains lines) s) as (f' & Hf' & _ & Hlog);
      [apply Hw|].
    rewrite Hf in Hf'. injection Hf' as <-.
    eexists _, (omap (final_write env (domain_data s)) (read_domains lines) ++ evs).
    split; [apply Hrun; reflexivity|]. simpl.
    split; [by rewrite Hlog, <- !app_assoc|]. split; [done|].
    intros d ds Hin Hd Hne. apply elem_of_app. left.
    apply list_elem_of_omap. exists d. split; [done|].
    unfold final_write. rewrite Hd. by destruct (posts ds).
Qed.

End Run.

(** C8. The final loop tests [not result.get("error_message")], the
    truth value of the message and not its presence.  A domain whose
    only request failed with an exception without text (a timeout) has
    its error recorded, with status ["error"] and message [""]; the
    final loop takes it for a domain without error: the summary keeps
    the status ["error"] and gets the message of a domain without
    articles, and the domain gets the diagnostic request and a
    diagnostics record.  The same failure with a text is left alone. *)
Theorem empty_error_text_is_probed :
  (exists r ds record,
     collect_wordpress_posts
       (two_pass_env (Raise (Exn "TimeoutError" "")) (Ok "[]")) 48 false
       (Some ["a.com"])
     = Some (Ok (Collected r))
     /\ domain_data (report_state r) !! "a.com" = Some ds
     /\ posts ds = [] /\ status ds = "error" /\ error ds = Some ""
     /\ report_summary r
        = PDict [("collection_timestamp", PStr "1704240000");
                 ("collection_date", PStr "2024-01-03");
                 ("hours_ago", PInt 48);
                 ("results", PList [PDict record])]
     /\ dict_lookup "status" record = Some (PStr "error")
     /\ dict_lookup "error_message" record
        = Some (PStr "No articles found in timeframe")
     /\ report_tested r = ["a.com"]
     /\ report_test_urls r = [test_url "a.com"]
     /\ (dict_lookup "a.com" (report_site_notes r)
         ≫= note_field "has_json_api") = Some (PBool true))
  /\ (exists r ds record,
       collect_wordpress_posts
         (two_pass_env (Raise (Exn "TimeoutError" "timed out")) (Ok "[]")) 48 false
         (Some ["a.com"])
       = Some (Ok (Collected r))
       /\ domain_data (report_state r) !! "a.com" = Some ds
       /\ posts ds = [] /\ status ds = "error" /\ error ds = Some "timed out"
       /\ report_summary r
          = PDict [("collection_timestamp", PStr "1704240000");
                   ("collection_date", PStr "2024-01-03");
                   ("hours_ago", PInt 48);
                   ("results", PList [PDict record])]
       /\ dict_lookup "status" record = Some (PStr "error")
       /\ dict_lookup "error_message" record = Some (PStr "timed out")
       /\ report_tested r = []
       /\ report_test_urls r = []
       /\ report_site_notes r = []).
Proof.
  split.
  - eexists _, _, _. split; [vm_compute; reflexivity|].
    split; [reflexivity|]. cbn [report_summary report_tested report_test_urls
                                 report_site_notes].
    repeat (split; [vm_compute; reflexivity|]). vm_compute. reflexivity.
  - eexists _, _, _. split; [vm_compute; reflexivity|].
    split; [reflexivity|]. cbn [report_summary report_tested report_test_urls
                                 report_site_notes].
    repeat (split; [vm_compute; reflexivity|]). vm_compute. reflexivity.
Qed.

(** A page with the posts 1 and 2 for a domain without stored posts:
    afterwards the file of the domain holds both. *)
Lemma posts_persisted_incrementally_witness :
  replay ∅
    (fs_log (on_success (const_env (Ok "[]")) 48 "u" (PList (numbered_posts 1 2)) 0
               (state_at 1 [])).2)
    !! domain_file (timestamp_dir (const_env (Ok "[]"))) "a.com"
  = Some (FJson (PList (numbered_posts 1 2))).
Proof.
  destruct (posts_persisted_incrementally (const_env (Ok "[]")) 48 false [])
    as [H _].
  edestruct (H "u" (PList (numbered_posts 1 2)) 0%nat (state_at 1 []) "u" "a.com" 1)
    as (ds' & _ & Hp & _ & Hm);
    [reflexivity|reflexivity|reflexivity|vm_compute; reflexivity|].
  simpl in Hp. rewrite Hp in Hm. destruct Hm as [_ Hm]. apply Hm.
Defined.

(** The claim as the specification words it fails on a post without
    identifier: the page parses, the post is in it, and the run writes
    the site notes and the summary and no file for the domain. *)
Lemma posts_persisted_counterexample :
  let page := dq "[{'title': 'x'}]" in
  exists r,
    Json.loads page = Some (PList [PDict [("title", PStr "x")]])
    /\ collect_wordpress_posts (const_env (Ok page)) 48 false (Some ["a.com"])
       = Some (Ok (Collected r))
    /\ map event_path (report_log r)
       = [notes_path (const_env (Ok page)); summary_path (const_env (Ok page))]
    /\ domain_file (timestamp_dir (const_env (Ok page))) "a.com"
       ∉ map event_path (report_log r).
Proof.
  cbv zeta. eexists. split; [vm_compute; reflexivity|].
  split; [vm_compute; reflexivity|].
  match goal with
  | |- ?A /\ _ => assert (HA : A) by (vm_compute; reflexivity)
  end.
  split; [exact HA|]. rewrite HA. intros H.
  repeat (apply elem_of_cons in H as [H|H]; [vm_compute in H; discriminate H|]).
  by apply elem_of_nil in H.
Qed.

(** * The patterns of the extractor *)

Section TagPatterns.

Local Open Scope nat_scope.

Implicit Types (s rest : list ascii) (k : Re.cont).

Lemma rep_not_gt k : forall fuel s bol,
  length s <= fuel ->
  Re.rep (Re.m (Re.NotChr ">")) (fun b s2 => Re.m (Re.Chr ">") b s2 k) fuel 0 bol s
  = match skip_to_gt s with Some rest => k false rest | None => None end.
Proof.
  induction fuel as [|fuel IH]; intros s bol Hlen.
  - destruct s; [done|simpl in Hlen; lia].
  - destruct s as [|c s]; [done|]. simpl in Hlen.
    cbn [Re.rep Re.m skip_to_gt].
    destruct (Ascii.eqb c ">") eqn:Hc.
    + apply Ascii.eqb_eq in Hc. subst c. done.
    + replace (length s <? length (c :: s)) with true
        by (symmetry; apply Nat.ltb_lt; simpl; lia).
      cbn [pred]. rewrite IH by lia.
      by destruct (skip_to_gt s) as [rest|]; [destruct (k false rest)|].
Qed.

Lemma m_seq r1 r2 k bol s :
  Re.m (Re.Seq r1 r2) bol s k = Re.m r1 bol s (fun b' s' => Re.m r2 b' s' k).
Proof. reflexivity. Qed.

Lemma m_rep r n k bol s :
  Re.m (Re.Rep r n) bol s k = Re.rep (Re.m r) k (length s) n bol s.
Proof. reflexivity. Qed.

Lemma m_body_then_gt k bol s :
  Re.m body_then_gt bol s k
  = match body_split s with Some rest => k false rest | None => None end.
Proof.
  unfold body_then_gt, Re.Plus. rewrite m_seq, m_rep.
  destruct s as [|c s]; [done|].
  cbn [length Re.rep body_split].
  change (Re.m (Re.NotChr ">") bol (c :: s))
    with (fun k0 : Re.cont =>
            if Ascii.eqb c ">" then None else k0 (is_newline c) s).
  cbv beta.
  destruct (Ascii.eqb c ">"); [done|].
  replace (length s <? S (length s)) with true
    by (symmetry; apply Nat.ltb_lt; lia).
  cbn [pred]. rewrite rep_not_gt by lia.
  by destruct (skip_to_gt s) as [rest|]; [destruct (k false rest)|].
Qed.

Lemma m_one_tag k bol s :
  Re.m one_tag bol s k
  = match tag_split s with Some rest => k false rest | None => None end.
Proof.
  unfold one_tag. cbn [Re.m]. destruct s as [|c s]; [done|].
  cbn [tag_split]. destruct (Ascii.eqb c "<"); [|done].
  apply m_body_then_gt.
Qed.

Lemma m_one_closing_tag k bol s :
  Re.m one_closing_tag bol s k
  = match close_split s with Some rest => k false rest | None => None end.
Proof.
  unfold one_closing_tag. cbn [Re.m]. destruct s as [|c [|d s]]; [done| |].
  - cbn [close_split]. by destruct (Ascii.eqb c "<").
  - cbn [close_split]. destruct (Ascii.eqb c "<"); [|done].
    destruct (Ascii.eqb d "/"); [|done]. simpl andb. cbv iota.
    apply m_body_then_gt.
Qed.

Lemma skip_to_gt_length s rest : skip_to_gt s = Some rest -> length rest < length s.
Proof.
  revert rest. induction s as [|c s IH]; intros rest; simpl; [done|].
  destruct (Ascii.eqb c ">"); [intros [= <-]; lia|].
  intros H. apply IH in H. lia.
Qed.

Lemma body_split_length s rest : body_split s = Some rest -> length rest < length s.
Proof.
  destruct s as [|c s]; simpl; [done|]. destruct (Ascii.eqb c ">"); [done|].
  intros H. apply skip_to_gt_length in H. lia.
Qed.

Lemma tag_split_length s rest : tag_split s = Some rest -> length rest < length s.
Proof.
  destruct s as [|c s]; simpl; [done|]. destruct (Ascii.eqb c "<"); [|done].
  intros H. apply body_split_length in H. lia.
Qed.

Lemma close_split_length s rest : close_split s = Some rest -> length rest < length s.
Proof.
  destruct s as [|c [|d s]]; simpl; try done.
  destruct (Ascii.eqb c "<" && Ascii.eqb d "/"); [|done].
  intros H. apply body_split_length in H. lia.
Qed.

(** A greedy run of tags with nothing required after it takes every
    tag there is. *)
Lemma rep_tags_accept : forall fuel s bol,
  length s <= fuel ->
  Re.rep (Re.m one_tag) accept fuel 0 bol s = Some (drop_tags fuel s).
Proof.
  induction fuel as [|fuel IH]; intros s bol Hlen; [done|].
  cbn [Re.rep drop_tags]. rewrite m_one_tag.
  destruct (tag_split s) as [rest|] eqn:Ht; [|done].
  apply tag_split_length in Ht.
  replace (length rest <? length s) with true
    by (symmetry; apply Nat.ltb_lt; lia).
  cbn [pred]. by rewrite IH by lia.
Qed.

Lemma drop_tags_fuel : forall f1 f2 s,
  length s <= f1 -> length s <= f2 -> drop_tags f1 s = drop_tags f2 s.
Proof.
  induction f1 as [|f1 IH]; intros f2 s H1 H2.
  - destruct s; [|simpl in H1; lia]. by destruct f2.
  - destruct f2 as [|f2].
    + destruct s; [done|simpl in H2; lia].
    + simpl. destruct (tag_split s) as [rest|] eqn:Ht; [|done].
      apply tag_split_length in Ht. apply IH; lia.
Qed.

(** The pattern of the opening tags at one position. *)
Lemma match_opening_tags bol s :
  Re.match_at opening_tags bol s
  = if bol
    then match tag_split s with
         | Some rest => Some (drop_tags (length rest) rest)
         | None => None
         end
    else None.
Proof.
  unfold Re.match_at, opening_tags, Re.Plus. rewrite m_seq.
  change (Re.m Re.Bol bol s)
    with (fun k0 : Re.cont => if bol then k0 bol s else None).
  cbv beta. destruct bol; [|done]. rewrite m_rep.
  change (Re.Seq (Re.Chr "<") (Re.Seq (Re.Rep (Re.NotChr ">") 1) (Re.Chr ">")))
    with one_tag.
  destruct s as [|c s]; [done|].
  cbn [length Re.rep]. rewrite m_one_tag.
  destruct (tag_split (c :: s)) as [rest|] eqn:Ht; [|done].
  apply tag_split_length in Ht. simpl in Ht.
  rewrite (proj2 (Nat.ltb_lt _ _)) by lia.
  cbn [pred].
  change (fun _ rest0 => Some rest0) with accept.
  rewrite rep_tags_accept by lia.
  f_equal. apply drop_tags_fuel; lia.
Qed.

(** The pattern of the closing tags does not match where no closing
    tag starts. *)
Lemma match_closing_tags_none bol s :
  close_split s = None -> Re.match_at closing_tags bol s = None.
Proof.
  intros Hc. unfold Re.match_at, closing_tags, Re.Plus. rewrite m_seq, m_rep.
  change (Re.Seq (Re.Chr "<")
            (Re.Seq (Re.Chr "/") (Re.Seq (Re.Rep (Re.NotChr ">") 1) (Re.Chr ">"))))
    with one_closing_tag.
  destruct (length s); cbn [Re.rep]; [done|].
  by rewrite m_one_closing_tag, Hc.
Qed.

End TagPatterns.

Section TagRuns.

Local Open Scope nat_scope.

Implicit Types (s rest pre : list ascii) (opens closes : list (list ascii)).

Lemma skip_to_gt_app b rest :
  forallb (fun c => negb (Ascii.eqb c ">")) b = true ->
  skip_to_gt (b ++ ">"%char :: rest) = Some rest.
Proof.
  induction b as [|c b IH]; simpl; [done|].
  intros [Hc Hb]%andb_true_iff. apply negb_true_iff in Hc. rewrite Hc. auto.
Qed.

Lemma body_split_app b rest :
  tag_body b = true -> body_split (b ++ ">"%char :: rest) = Some rest.
Proof.
  destruct b as [|c b]; [done|]. simpl.
  intros [Hc Hb]%andb_true_iff. apply negb_true_iff in Hc. rewrite Hc.
  by apply skip_to_gt_app.
Qed.

Lemma tag_split_open b rest :
  tag_body b = true -> tag_split (open_tag b ++ rest) = Some rest.
Proof.
  intros Hb. unfold open_tag. simpl. rewrite <- app_assoc. simpl.
  by apply body_split_app.
Qed.

Lemma close_split_close b rest :
  tag_body b = true -> close_split (close_tag b ++ rest) = Some rest.
Proof.
  intros Hb. unfold close_tag. simpl. rewrite <- app_assoc. simpl.
  by apply body_split_app.
Qed.

(** Dropping the tags at the start drops a run of tags that is followed
    by something else. *)
Lemma drop_tags_opens opens rest :
  Forall (fun b => tag_body b = true) opens ->
  tag_split rest = None ->
  forall fuel, length (concat (map open_tag opens) ++ rest) <= fuel ->
    drop_tags fuel (concat (map open_tag opens) ++ rest) = rest.
Proof.
  intros Hall Hrest. induction Hall as [|b opens Hb _ IH]; intros fuel Hlen.
  - simpl. destruct fuel; [done|]. simpl. by rewrite Hrest.
  - cbn [map concat] in *. rewrite <- app_assoc in *.
    rewrite length_app in Hlen. unfold open_tag at 1 in Hlen. simpl in Hlen.
    destruct fuel as [|fuel]; [lia|].
    cbn [drop_tags]. rewrite (tag_split_open _ _ Hb).
    apply IH. lia.
Qed.

Lemma space_to_eol_end bol : space_to_eol bol [] = Some [].
Proof. reflexivity. Qed.

(** A run of closing tags that ends the subject is matched to the
    end. *)
Lemma rep_closing_end closes :
  Forall (fun b => tag_body b = true) closes ->
  forall fuel n bol,
    length (concat (map close_tag closes)) <= fuel ->
    n = 0 \/ n = 1 /\ closes <> [] ->
    Re.rep (Re.m one_closing_tag) space_to_eol fuel n bol
      (concat (map close_tag closes))
    = Some [].
Proof.
  induction 1 as [|b closes Hb _ IH]; intros fuel n bol Hlen Hn.
  - destruct Hn as [->|[_ ?]]; [|done]. cbn [map concat].
    destruct fuel; cbn [Re.rep]; [done|]. by rewrite m_one_closing_tag.
  - cbn [map concat] in *.
    assert (Hl : length (close_tag b ++ concat (map close_tag closes))
                 = S (S (length b + 1 + length (concat (map close_tag closes)))))
      by (unfold close_tag; simpl; rewrite !length_app; simpl; lia).
    destruct fuel as [|fuel]; [lia|].
    cbn [Re.rep]. rewrite m_one_closing_tag, (close_split_close _ _ Hb).
    rewrite (proj2 (Nat.ltb_lt _ _)) by lia.
    rewrite IH; [done|lia|left; by destruct Hn as [->|[-> _]]].
Qed.

Lemma match_closing_end closes bol :
  Forall (fun b => tag_body b = true) closes -> closes <> [] ->
  Re.match_at closing_tags bol (concat (map close_tag closes)) = Some [].
Proof.
  intros Hall Hne. unfold Re.match_at, closing_tags, Re.Plus.
  rewrite m_seq, m_rep.
  change (Re.Seq (Re.Chr "<")
            (Re.Seq (Re.Chr "/") (Re.Seq (Re.Rep (Re.NotChr ">") 1) (Re.Chr ">"))))
    with one_closing_tag.
  apply (rep_closing_end closes Hall); [lia|by right].
Qed.

End TagRuns.

(** * Substitution *)

Section SubFacts.

Local Open Scope nat_scope.

Variable r : Re.regex.
Variable repl : list ascii.

Implicit Types (s rest pre : list ascii).

Lemma bol_after_app bol pre s :
  bol_after bol (pre ++ s) = bol_after (bol_after bol pre) s.
Proof. revert bol. induction pre as [|c pre IH]; intros bol; simpl; auto. Qed.

Lemma bol_after_snoc bol pre c : bol_after bol (pre ++ [c]) = is_newline c.
Proof. by rewrite bol_after_app. Qed.

(** The characters of a match are dropped. *)
Lemma sub_from_skip pre : forall bol rest,
  Re.sub_from r repl bol (length pre) (pre ++ rest)
  = Re.sub_from r repl (bol_after bol pre) 0 rest.
Proof.
  induction pre as [|c pre IH]; intros bol rest; [done|].
  simpl. apply IH.
Qed.

(** A match at the current position is replaced, and the scan goes on
    after it. *)
Lemma sub_from_match bol mt rest :
  mt <> [] ->
  Re.match_at r bol (mt ++ rest) = Some rest ->
  Re.sub_from r repl bol 0 (mt ++ rest)
  = repl ++ Re.sub_from r repl (bol_after bol mt) 0 rest.
Proof.
  intros Hne Hm. destruct mt as [|c mt]; [done|].
  change ((c :: mt) ++ rest) with (c :: (mt ++ rest)) in *.
  cbn [Re.sub_from]. rewrite Hm.
  replace (length (c :: mt ++ rest) - length rest) with (S (length mt))
    by (simpl; rewrite length_app; lia).
  cbn [bol_after]. f_equal. apply sub_from_skip.
Qed.

(** Where the pattern matches nowhere, the text is copied. *)
Lemma sub_from_quiet pre : forall bol rest,
  (forall p1 p2, pre = p1 ++ p2 -> p2 <> [] ->
     Re.match_at r (bol_after bol p1) (p2 ++ rest) = None) ->
  Re.sub_from r repl bol 0 (pre ++ rest)
  = pre ++ Re.sub_from r repl (bol_after bol pre) 0 rest.
Proof.
  induction pre as [|c pre IH]; intros bol rest Hq; [done|].
  pose proof (Hq [] (c :: pre) eq_refl) as H0.
  change ((c :: pre) ++ rest) with (c :: (pre ++ rest)) in *.
  cbn [bol_after] in H0.
  cbn [Re.sub_from]. rewrite H0 by done.
  cbn [bol_after app]. f_equal. apply IH. intros p1 p2 -> Hp2.
  apply (Hq (c :: p1) p2); done.
Qed.

Lemma sub_from_end bol :
  Re.match_at r bol [] = None -> Re.sub_from r repl bol 0 [] = [].
Proof. intros H. simpl. by rewrite H. Qed.

End SubFacts.

Section StripWrapped.

Local Open Scope nat_scope.

Implicit Types (s rest pre body : list ascii) (opens closes : list (list ascii)).

Lemma tag_at_line_start_app bol pre s :
  tag_at_line_start bol (pre ++ s)
  = tag_at_line_start bol pre || tag_at_line_start (bol_after bol pre) s.
Proof.
  revert bol. induction pre as [|c pre IH]; intros bol; simpl; [done|].
  by rewrite IH, orb_assoc.
Qed.

Lemma tag_at_line_start_no_newline s :
  forallb wrapper_char s = true -> tag_at_line_start false s = false.
Proof.
  induction s as [|c s IH]; simpl; [done|].
  intros [Hc Hs]%andb_true_iff.
  assert (is_newline c = false).
  { unfold wrapper_char in Hc. apply negb_true_iff in Hc.
    by repeat (apply orb_false_iff in Hc as [Hc ?]). }
  rewrite H. auto.
Qed.

(** The pattern of the opening tags finds nothing in a text without
    ['<'] at the start of a line. *)
Lemma sub_opening_quiet repl s bol :
  tag_at_line_start bol s = false ->
  Re.sub_from opening_tags repl bol 0 s = s.
Proof.
  intros Hq.
  rewrite <- (app_nil_r s) at 1.
  rewrite sub_from_quiet.
  - rewrite sub_from_end; [by rewrite app_nil_r|].
    rewrite match_opening_tags. by destruct (bol_after bol s).
  - intros p1 p2 -> Hp2. rewrite app_nil_r, match_opening_tags.
    rewrite tag_at_line_start_app in Hq. apply orb_false_iff in Hq as [_ Hq].
    destruct p2 as [|c p2]; [done|]. simpl in Hq.
    apply orb_false_iff in Hq as [Hq _].
    destruct (bol_after bol p1); [|done]. simpl in *. by rewrite Hq.
Qed.

(** The pattern of the closing tags finds nothing in a text without
    ["</"] that is not followed by a slash. *)
Lemma sub_closing_quiet repl pre : forall bol rest,
  has_closer pre = false ->
  match rest with c :: _ => Ascii.eqb c "/" = false | [] => True end ->
  Re.sub_from closing_tags repl bol 0 (pre ++ rest)
  = pre ++ Re.sub_from closing_tags repl (bol_after bol pre) 0 rest.
Proof.
  intros bol rest Hc Hrest. apply sub_from_quiet.
  intros p1 p2 -> Hp2. apply match_closing_tags_none.
  assert (Hc2 : has_closer p2 = false).
  { clear -Hc. induction p1 as [|a p1 IH]; [done|].
    simpl in Hc. destruct (p1 ++ p2) eqn:E; [by destruct p1, p2|].
    apply orb_false_iff in Hc as [_ Hc]. by apply IH. }
  destruct p2 as [|a [|b p2]]; [done| |].
  - simpl. destruct rest as [|d rest]; [done|].
    rewrite Hrest. by rewrite andb_false_r.
  - simpl in *. apply orb_false_iff in Hc2 as [-> _]. done.
Qed.

Lemma plain_body_tag_body b : plain_body b = true -> tag_body b = true.
Proof.
  destruct b as [|c b]; [done|]. unfold plain_body, tag_body.
  generalize (c :: b). intros l. induction l as [|x l IH]; simpl; [done|].
  intros [Hx Hl]%andb_true_iff. rewrite IH by done.
  unfold is_plain in Hx. apply negb_true_iff in Hx.
  repeat (apply orb_false_iff in Hx as [Hx ?]).
  apply andb_true_iff. split; [by apply negb_true_iff|done].
Qed.

Lemma plain_body_wrapper_chars b :
  plain_body b = true -> forallb wrapper_char b = true.
Proof.
  destruct b as [|c b]; [done|]. unfold plain_body.
  generalize (c :: b). intros l. induction l as [|x l IH]; simpl; [done|].
  intros [Hx Hl]%andb_true_iff. rewrite IH by done.
  unfold is_plain in Hx. apply negb_true_iff in Hx.
  repeat (apply orb_false_iff in Hx as [Hx ?]).
  unfold wrapper_char. rewrite andb_true_r. apply negb_true_iff.
  repeat (apply orb_false_iff; split); done.
Qed.

Lemma open_tags_wrapper_chars opens :
  Forall (fun b => plain_body b = true) opens ->
  forallb wrapper_char (concat (map open_tag opens)) = true.
Proof.
  induction 1 as [|b opens Hb _ IH]; [done|].
  cbn [map concat]. rewrite forallb_app, IH, andb_true_r.
  unfold open_tag. simpl. rewrite forallb_app. simpl.
  by rewrite (plain_body_wrapper_chars _ Hb).
Qed.

Lemma close_tags_wrapper_chars closes :
  Forall (fun b => plain_body b = true) closes ->
  forallb wrapper_char (concat (map close_tag closes)) = true.
Proof.
  induction 1 as [|b closes Hb _ IH]; [done|].
  cbn [map concat]. rewrite forallb_app, IH, andb_true_r.
  unfold close_tag. simpl. rewrite forallb_app. simpl.
  by rewrite (plain_body_wrapper_chars _ Hb).
Qed.

Lemma open_tags_end opens :
  opens <> [] -> exists p, concat (map open_tag opens) = p ++ [">"%char].
Proof.
  induction opens as [|b opens IH]; [done|]. intros _. cbn [map concat].
  destruct opens as [|b' opens].
  - exists ("<"%char :: b). simpl. by rewrite app_nil_r.
  - destruct IH as [p Hp]; [done|]. rewrite Hp.
    exists (open_tag b ++ p). by rewrite app_assoc.
Qed.

Lemma rstrip_snoc l c : is_space c = false -> rstrip (l ++ [c]) = l ++ [c].
Proof.
  intros Hc. unfold rstrip. rewrite rev_app_distr. cbn [rev app lstrip].
  rewrite Hc. cbn [rev]. by rewrite rev_involutive.
Qed.

Lemma strip_array_text body :
  strip ("["%char :: body ++ ["]"%char]) = "["%char :: body ++ ["]"%char].
Proof.
  unfold strip. cbn [lstrip]. change (is_space "[") with false. cbv iota.
  rewrite app_comm_cons. by apply rstrip_snoc.
Qed.

(** The two substitutions and the trimming give back an array text
    that stands between plain tags. *)
Lemma strip_html_tags_wrap opens closes body :
  opens <> [] ->
  Forall (fun b => plain_body b = true) opens ->
  Forall (fun b => plain_body b = true) closes ->
  let json_text := "["%char :: body ++ ["]"%char] in
  has_closer json_text = false ->
  tag_at_line_start false json_text = false ->
  strip_html_tags (wrap opens closes json_text) = json_text.
Proof.
  intros Hne Hopens Hcloses json_text Hc Ht.
  assert (Ho' : Forall (fun b => tag_body b = true) opens)
    by (eapply Forall_impl; [exact Hopens|apply plain_body_tag_body]).
  assert (Hc' : Forall (fun b => tag_body b = true) closes)
    by (eapply Forall_impl; [exact Hcloses|apply plain_body_tag_body]).
  set (cs := concat (map close_tag closes)).
  assert (Hopen : Re.sub opening_tags [] (wrap opens closes json_text)
                  = json_text ++ cs).
  { unfold Re.sub, wrap. fold cs.
    rewrite sub_from_match.
    - destruct (open_tags_end opens Hne) as [p ->].
      rewrite bol_after_snoc. change (is_newline ">") with false.
      rewrite app_nil_l. apply sub_opening_quiet.
      rewrite tag_at_line_start_app, Ht. simpl orb.
      unfold json_text. cbn [bol_after]. rewrite bol_after_snoc.
      change (is_newline "]") with false.
      apply tag_at_line_start_no_newline, close_tags_wrapper_chars, Hcloses.
    - destruct opens; [done|]. by destruct l.
    - rewrite match_opening_tags.
      destruct opens as [|b opens]; [done|]. cbn [map concat].
      rewrite <- app_assoc. inversion Ho' as [|? ? Hb Hrest]; subst.
      rewrite (tag_split_open _ _ Hb). f_equal.
      by apply drop_tags_opens. }
  assert (Hclose : Re.sub closing_tags [] (json_text ++ cs) = json_text).
  { unfold Re.sub. rewrite sub_closing_quiet; [|exact Hc|].
    - destruct closes as [|b closes].
      + unfold cs. cbn [map concat]. rewrite sub_from_end; [by rewrite app_nil_r|].
        by apply match_closing_tags_none.
      + rewrite <- (app_nil_r cs) at 1. rewrite sub_from_match.
        * rewrite sub_from_end; [by rewrite app_nil_r|].
          by apply match_closing_tags_none.
        * unfold cs. done.
        * rewrite app_nil_r. by apply match_closing_end.
    - unfold cs. by destruct closes. }
  unfold strip_html_tags. rewrite Hopen, Hclose. apply strip_array_text.
Qed.

End StripWrapped.

(** * The fallback of the extractor *)

Section SpanFacts.

Implicit Types (s pre post : list ascii) (c : ascii).

Lemma find_from_notin c s : forall i, c ∉ s -> find_from c s i = -1.
Proof.
  induction s as [|x s IH]; intros i Hn; simpl; [done|].
  destruct (Ascii.eqb_spec x c) as [->|Hne].
  - exfalso. apply Hn. by left.
  - apply IH. intros Hin. apply Hn. by right.
Qed.

Lemma find_from_app c pre s : forall i,
  c ∉ pre -> find_from c (pre ++ s) i = find_from c s (i + Z.of_nat (length pre)).
Proof.
  induction pre as [|x pre IH]; intros i Hn; simpl.
  - f_equal. lia.
  - destruct (Ascii.eqb_spec x c) as [->|Hne].
    + exfalso. apply Hn. by left.
    + rewrite IH by (intros Hin; apply Hn; by right). f_equal. lia.
Qed.

Lemma find_from_head c s i : find_from c (c :: s) i = i.
Proof. simpl. by rewrite Ascii.eqb_refl. Qed.

Lemma find_from_range c s : forall i,
  find_from c s i = -1 \/ i <= find_from c s i.
Proof.
  induction s as [|x s IH]; intros i; simpl; [by left|].
  destruct (Ascii.eqb x c); [right; lia|].
  destruct (IH (i + 1)) as [->|H]; [by left|right; lia].
Qed.

Lemma rfind_from_notin c s : forall i last, c ∉ s -> rfind_from c s i last = last.
Proof.
  induction s as [|x s IH]; intros i last Hn; simpl; [done|].
  destruct (Ascii.eqb_spec x c) as [->|Hne].
  - exfalso. apply Hn. by left.
  - apply IH. intros Hin. apply Hn. by right.
Qed.

Lemma rfind_from_app c pre post : forall i last,
  c ∉ post ->
  rfind_from c (pre ++ c :: post) i last = i + Z.of_nat (length pre).
Proof.
  induction pre as [|x pre IH]; intros i last Hn; simpl.
  - rewrite Ascii.eqb_refl, rfind_from_notin by done. lia.
  - rewrite IH by done. lia.
Qed.

Lemma slice_middle pre mid post :
  slice (pre ++ mid ++ post) (Z.of_nat (length pre))
        (Z.of_nat (length pre) + Z.of_nat (length mid)) = mid.
Proof.
  unfold slice, clamp_index. rewrite !length_app.
  destruct (Z.ltb_spec (Z.of_nat (length pre)) 0); [lia|].
  destruct (Z.ltb_spec (Z.of_nat (length pre) + Z.of_nat (length mid)) 0); [lia|].
  rewrite !Z.min_l by lia.
  replace (Z.to_nat (Z.of_nat (length pre))) with (length pre) by lia.
  replace (Z.to_nat (Z.of_nat (length pre) + Z.of_nat (length mid)
                     - Z.of_nat (length pre))) with (length mid) by lia.
  rewrite drop_app_length. by rewrite take_app_length.
Qed.

Variable env : helper_env.


(** The object span: from the first ['{'], when no ['['] comes before
    it, to the last ['}']. *)
Lemma extract_span_object pre body post :
  "{"%char ∉ pre -> "["%char ∉ pre -> "}"%char ∉ post ->
  extract_span env (pre ++ ("{"%char :: body ++ ["}"%char]) ++ post)
  = loads_or_raise env ("{"%char :: body ++ ["}"%char]).
Proof.
  intros H1 H2 H3. unfold extract_span.
  set (content := pre ++ ("{"%char :: body ++ ["}"%char]) ++ post).
  assert (Ha : find "{" content = Z.of_nat (length pre)).
  { unfold find, content. rewrite find_from_app by done.
    simpl app. rewrite find_from_head. lia. }
  assert (He : rfind "}" content
               = Z.of_nat (length pre) + Z.of_nat (length body) + 1).
  { unfold rfind, content.
    replace (pre ++ ("{"%char :: body ++ ["}"%char]) ++ post)
      with ((pre ++ "{"%char :: body) ++ "}"%char :: post)
      by (rewrite <- !app_assoc; simpl; by rewrite <- app_assoc).
    rewrite rfind_from_app by done. rewrite length_app. simpl. lia. }
  assert (Ho : find "[" content = -1 \/ Z.of_nat (length pre) < find "[" content).
  { unfold find, content. rewrite find_from_app by done. simpl app.
    cbn [find_from]. change (Ascii.eqb "{" "[") with false. cbv iota.
    match goal with
    | |- context [find_from ?c ?l ?i] =>
        destruct (find_from_range c l i) as [->|H]; [by left|right; lia]
    end. }
  rewrite Ha, He.
  assert (Hc : (negb (find "[" content =? -1)
                && ((Z.of_nat (length pre) =? -1)
                    || (find "[" content <? Z.of_nat (length pre)))) = false).
  { destruct Ho as [->|Ho]; [done|].
    apply andb_false_iff. right. apply orb_false_iff. split.
    - apply Z.eqb_neq. lia.
    - apply Z.ltb_ge. lia. }
  rewrite Hc.
  destruct (Z.eqb_spec (Z.of_nat (length pre)) (-1)); [lia|]. simpl negb.
  destruct (Z.gtb_spec (Z.of_nat (length pre) + Z.of_nat (length body) + 1 + 1)
              (Z.of_nat (length pre))); [|lia].
  simpl andb. cbv iota.
  f_equal. unfold content.
  replace (Z.of_nat (length pre) + Z.of_nat (length body) + 1 + 1)
    with (Z.of_nat (length pre)
          + Z.of_nat (length ("{"%char :: body ++ ["}"%char])))
    by (simpl; rewrite length_app; simpl; lia).
  apply slice_middle.
Qed.

(** Without opener there is no span. *)
Lemma extract_span_none s :
  "["%char ∉ s -> "{"%char ∉ s ->
  extract_span env s
  = Raise (ValueError "Could not extract JSON from page content.").
Proof.
  intros H1 H2. unfold extract_span, find.
  by rewrite !find_from_notin by done.
Qed.

End SpanFacts.

(** * The extractor *)

Lemma chars_str_of l : chars (str_of l) = l.
Proof. apply list_ascii_of_string_of_list_ascii. Qed.

Lemma wrapper_chars_notin l c :
  forallb wrapper_char l = true -> wrapper_char c = false -> c ∉ l.
Proof.
  intros Hl Hc Hin. rewrite forallb_forall in Hl.
  apply list_elem_of_In in Hin. apply Hl in Hin. congruence.
Qed.









Section InnerTags.

Local Open Scope nat_scope.

Implicit Types (pre rest : list ascii) (tags : list (list ascii)).

(** The pattern of the opening tags in a text whose only tags are a
    run at the start of a line after the first: the run is deleted. *)
Lemma sub_opening_inner pre tags rest :
  tag_at_line_start true pre = false ->
  Forall (fun b => tag_body b = true) tags -> tags <> [] ->
  tag_split rest = None ->
  tag_at_line_start false rest = false ->
  Re.sub opening_tags []
    (pre ++ newline :: concat (map open_tag tags) ++ rest)
  = pre ++ newline :: rest.
Proof.
  intros Hpre Htags Hne Hrest Hq. unfold Re.sub.
  replace (pre ++ newline :: concat (map open_tag tags) ++ rest)
    with ((pre ++ [newline]) ++ concat (map open_tag tags) ++ rest)
    by (by rewrite <- app_assoc).
  rewrite sub_from_quiet.
  - rewrite bol_after_snoc. change (is_newline newline) with true.
    rewrite sub_from_match.
    + destruct (open_tags_end tags Hne) as [p ->].
      rewrite bol_after_snoc. change (is_newline ">") with false.
      rewrite (sub_opening_quiet [] rest false Hq).
      by rewrite <- app_assoc.
    + destruct tags as [|b tags]; [done|]. by destruct b.
    + rewrite match_opening_tags.
      destruct tags as [|b tags]; [done|]. cbn [map concat].
      rewrite <- app_assoc. inversion Htags as [|? ? Hb Hall]; subst.
      rewrite (tag_split_open _ _ Hb). f_equal.
      by apply drop_tags_opens.
  - intros p1 p2 Heq Hp2. rewrite match_opening_tags.
    assert (Ht : tag_at_line_start true (p1 ++ p2) = false).
    { rewrite <- Heq, tag_at_line_start_app, Hpre. simpl.
      by rewrite andb_false_r. }
    rewrite tag_at_line_start_app in Ht. apply orb_false_iff in Ht as [_ Ht].
    destruct p2 as [|c p2]; [done|]. simpl in Ht.
    apply orb_false_iff in Ht as [Ht _].
    destruct (bol_after true p1); [|done]. simpl in *. by rewrite Ht.
Qed.

End InnerTags.

(** C2. The comments of [extract_json_from_content] say that the
    opening tags are removed from the beginning and the closing tags
    from the end of the content, and its patterns are compiled with
    [re.MULTILINE]: they delete tags at the start and at the end of
    every line.  In a text with no other tag and no closing tag, a run
    of tags at the start of a line after the first is deleted.  For the
    page [<html><body>[1,] newline [<br>2]</body></html>] the marker is
    found, the [<br>] inside the text is deleted with the tags around
    it, and the code returns [[1, 2]]; the text between the tags at the
    beginning and at the end parses in no attempt, and the extractor
    that strips the beginning and the end only fails on this page. *)
Theorem strip_html_tags_inside_text :
  (forall pre tags rest,
     tag_at_line_start true pre = false ->
     Forall (fun b => tag_body b = true) tags -> tags <> [] ->
     tag_split rest = None ->
     tag_at_line_start false rest = false ->
     has_closer (pre ++ newline :: rest) = false ->
     strip_html_tags (pre ++ newline :: concat (map open_tag tags) ++ rest)
     = strip (pre ++ newline :: rest))
  /\ looks_like_html (chars page_in_lines) = true
  /\ Json.loads page_in_lines = None
  /\ str_of (strip_html_tags (chars page_in_lines))
     = String.append "[1," (String newline "2]")
  /\ extract_json_from_content ref_helper page_in_lines
     = Ok (PList [PInt 1; PInt 2])
  /\ str_of (strip (drop_closing_tail
                      (drop_tags (length (chars page_in_lines))
                                 (chars page_in_lines))))
     = String.append "[1," (String newline "<br>2]")
  /\ extract_as_specified ref_helper page_in_lines
     = Raise (JSONDecodeError ref_helper
                (String.append "[1," (String newline "<br>2]"))).
Proof.
  split.
  { intros pre tags rest Hpre Htags Hne Hrest Hq Hc.
    unfold strip_html_tags. rewrite sub_opening_inner by done.
    f_equal. unfold Re.sub.
    rewrite <- (app_nil_r (pre ++ newline :: rest)) at 1.
    rewrite sub_closing_quiet by done.
    rewrite sub_from_end; [by rewrite !app_nil_r|].
    by apply match_closing_tags_none. }
  repeat split; vm_compute; reflexivity.
Qed.

(** The two lines [[1,] and [<br>2]]: the tag is deleted. *)
Lemma strip_html_tags_inside_text_witness :
  strip_html_tags (chars "[1," ++ newline :: concat (map open_tag [chars "br"])
                   ++ chars "2]")
  = chars "[1," ++ newline :: chars "2]".
Proof.
  destruct strip_html_tags_inside_text as [H _].
  rewrite (H (chars "[1,") [chars "br"] (chars "2]")).
  - vm_compute. reflexivity.
  - reflexivity.
  - by repeat constructor.
  - discriminate.
  - reflexivity.
  - reflexivity.
  - reflexivity.
Defined.

(** * File names *)

Lemma str_of_chars s : str_of (chars s) = s.
Proof. apply string_of_list_ascii_of_string. Qed.

Lemma replace_char_lookup a b s i c :
  s !! i = Some c -> c <> a -> replace_char a b s !! i = Some c.
Proof.
  intros Hi Hc. unfold replace_char. rewrite list_lookup_fmap, Hi. simpl.
  destruct (Ascii.eqb_spec c a); [done|done].
Qed.

Lemma replace_char_gone a b s : a <> b -> a ∉ replace_char a b s.
Proof.
  intros Hab Hin. unfold replace_char in Hin.
  apply list_elem_of_fmap in Hin as (c & Hc & _).
  destruct (Ascii.eqb_spec c a); congruence.
Qed.

Lemma replace_char_keeps_out a b x s :
  x <> b -> x ∉ s -> x ∉ replace_char a b s.
Proof.
  intros Hxb Hx Hin. unfold replace_char in Hin.
  apply list_elem_of_fmap in Hin as (c & Hc & Hcs).
  destruct (Ascii.eqb_spec c a); congruence.
Qed.

Lemma replace_char_absent a b s : a ∉ s -> replace_char a b s = s.
Proof.
  induction s as [|c s IH]; intros Hn; [done|]. simpl.
  destruct (Ascii.eqb_spec c a) as [->|_].
  - exfalso. apply Hn. by left.
  - f_equal. apply IH. intros H. apply Hn. by right.
Qed.

(** X1. [sanitize_filename] keeps the length of the text, leaves no
    ['.'], ['/'] or [':'] in it, leaves every other character where it
    is, and changes nothing in a text it has already been through. *)
Theorem sanitize_filename_safe text :
  let name := chars (sanitize_filename text) in
  length name = length (chars text)
  /\ ("."%char ∉ name) /\ ("/"%char ∉ name) /\ (":"%char ∉ name)
  /\ (forall i c, chars text !! i = Some c ->
        c <> "."%char -> c <> "/"%char -> c <> ":"%char -> name !! i = Some c)
  /\ sanitize_filename (sanitize_filename text) = sanitize_filename text.
Proof.
  intros name. unfold name, sanitize_filename. rewrite !chars_str_of.
  assert (H1 : "."%char ∉ replace_char ":" "_" (replace_char "/" "_"
                 (replace_char "." "_" (chars text)))).
  { apply replace_char_keeps_out; [done|].
    apply replace_char_keeps_out; [done|]. by apply replace_char_gone. }
  assert (H2 : "/"%char ∉ replace_char ":" "_" (replace_char "/" "_"
                 (replace_char "." "_" (chars text)))).
  { apply replace_char_keeps_out; [done|]. by apply replace_char_gone. }
  assert (H3 : ":"%char ∉ replace_char ":" "_" (replace_char "/" "_"
                 (replace_char "." "_" (chars text))))
    by by apply replace_char_gone.
  split; [unfold replace_char; by rewrite !length_map|].
  do 3 (split; [done|]). split.
  - intros i c Hi Ha Hb Hc. by do 3 (apply replace_char_lookup; [|done]).
  - f_equal. set (r := replace_char ":" "_" _) in *.
    rewrite (replace_char_absent "." "_" r H1).
    rewrite (replace_char_absent "/" "_" r H2).
    by rewrite (replace_char_absent ":" "_" r H3).
Qed.

(** * Trimming *)

Lemma lstrip_idem s : lstrip (lstrip s) = lstrip s.
Proof.
  induction s as [|c s IH]; [done|]. simpl.
  destruct (is_space c) eqn:E; [done|]. simpl. by rewrite E.
Qed.

Lemma lstrip_head c s : is_space c = false -> lstrip (c :: s) = c :: s.
Proof. intros E. simpl. by rewrite E. Qed.

Lemma lstrip_snoc s c :
  is_space c = false -> lstrip (s ++ [c]) = lstrip s ++ [c].
Proof.
  intros E. induction s as [|x s IH]; simpl; [by rewrite E|].
  by destruct (is_space x).
Qed.

Lemma rstrip_cons c s :
  is_space c = false -> rstrip (c :: s) = c :: rstrip s.
Proof.
  intros E. unfold rstrip. simpl. rewrite lstrip_snoc by done.
  by rewrite rev_unit.
Qed.

Lemma rstrip_idem s : rstrip (rstrip s) = rstrip s.
Proof. unfold rstrip. by rewrite rev_involutive, lstrip_idem. Qed.

(** What [strip] returns is empty or starts with a character that is
    not whitespace. *)
Lemma lstrip_rstrip_lstrip s : lstrip (rstrip (lstrip s)) = rstrip (lstrip s).
Proof.
  induction s as [|c s IH]; [done|]. simpl.
  destruct (is_space c) eqn:E; [done|].
  rewrite rstrip_cons by done. by apply lstrip_head.
Qed.

Lemma strip_idem s : strip (strip s) = strip s.
Proof. unfold strip. by rewrite lstrip_rstrip_lstrip, rstrip_idem. Qed.

Lemma lstrip_ends s :
  match lstrip s with c :: _ => is_space c = false | [] => True end.
Proof.
  induction s as [|c s IH]; [done|]. simpl.
  destruct (is_space c) eqn:E; [done|]. simpl. done.
Qed.

Lemma strip_first s :
  match strip s with c :: _ => is_space c = false | [] => True end.
Proof.
  unfold strip. pose proof (lstrip_ends s) as H.
  destruct (lstrip s) as [|c l]; [done|].
  by rewrite rstrip_cons.
Qed.

Lemma strip_last s :
  match rev (strip s) with c :: _ => is_space c = false | [] => True end.
Proof.
  unfold strip, rstrip. rewrite rev_involutive. apply lstrip_ends.
Qed.

(** * The domains file *)

Lemma read_domains_cons line lines :
  read_domains (line :: lines)
  = (if negb (String.eqb (str_strip line) "")
        && negb (startswith (chars "#") (strip (chars line)))
     then [str_strip line] else [])
    ++ read_domains lines.
Proof.
  unfold read_domains, str_strip. simpl.
  by destruct (negb _ && negb _).
Qed.

(** X2. The domain list read from the domains file holds, in the order
    of the file, the trimmed text of every line that is neither blank
    nor a comment; no domain of the list is empty, starts with ['#'],
    or starts or ends with whitespace, so that trimming a domain again
    (as the URL builders do) gives the same domain. *)
Theorem read_domains_trimmed lines :
  read_domains lines
  = filter (fun d => d <> "" /\ startswith (chars "#") (chars d) = false)
           (map str_strip lines)
  /\ forall d, d ∈ read_domains lines ->
       d <> "" /\ startswith (chars "#") (chars d) = false
       /\ str_strip d = d
       /\ match chars d with c :: _ => is_space c = false | [] => True end
       /\ match rev (chars d) with c :: _ => is_space c = false | [] => True end.
Proof.
  assert (Heq : read_domains lines
    = filter (fun d => d <> "" /\ startswith (chars "#") (chars d) = false)
             (map str_strip lines)).
  { induction lines as [|line lines IH]; [done|].
    rewrite read_domains_cons, IH. cbn [map]. rewrite filter_cons.
    unfold str_strip. rewrite ?chars_str_of.
    destruct (String.eqb_spec (str_of (strip (chars line))) "") as [E|E];
      cbn [negb andb].
    - rewrite decide_False; [reflexivity|]. intros [H _]. by apply H.
    - destruct (startswith (chars "#") (strip (chars line))) eqn:Es;
        cbn [negb andb].
      + rewrite decide_False; [reflexivity|]. intros [_ H]. congruence.
      + rewrite decide_True; [reflexivity|done]. }
  split; [exact Heq|].
  intros d Hd. rewrite Heq in Hd. apply list_elem_of_filter in Hd as [[H1 H2] Hd].
  apply list_elem_of_fmap in Hd as (line & -> & _).
  split; [done|]. split; [done|]. unfold str_strip in *.
  rewrite !chars_str_of. split; [by rewrite strip_idem|].
  split; [apply strip_first|apply strip_last].
Qed.

(** * The latest collection directory *)

Lemma ascii_eqb_nat x y :
  Ascii.eqb x y = Nat.eqb (nat_of_ascii x) (nat_of_ascii y).
Proof.
  destruct (Ascii.eqb_spec x y) as [->|Hne].
  - by rewrite Nat.eqb_refl.
  - symmetry. apply Nat.eqb_neq. intros H. apply Hne.
    by rewrite <- (ascii_nat_embedding x), <- (ascii_nat_embedding y), H.
Qed.

Lemma str_lt_cons x a y b :
  str_lt (x :: a) (y :: b) = true
  <-> (nat_of_ascii x < nat_of_ascii y)%nat
      \/ nat_of_ascii x = nat_of_ascii y /\ str_lt a b = true.
Proof.
  cbn [str_lt]. rewrite ascii_eqb_nat, orb_true_iff, andb_true_iff.
  by rewrite Nat.ltb_lt, Nat.eqb_eq.
Qed.

Lemma str_lt_irrefl a : str_lt a a = false.
Proof.
  induction a as [|x a IH]; [done|]. apply not_true_is_false.
  rewrite str_lt_cons. intros [H|[_ H]]; [lia|congruence].
Qed.

Lemma str_lt_trans a : forall b c,
  str_lt a b = true -> str_lt b c = true -> str_lt a c = true.
Proof.
  induction a as [|x a IH]; intros [|y b] [|z c]; try done.
  rewrite !str_lt_cons. intros [H1|[H1 H1']] [H2|[H2 H2']]; try (left; lia).
  right. split; [lia|]. by apply (IH b).
Qed.

Lemma str_lt_cotrans a : forall b c,
  str_lt a c = true -> str_lt a b = true \/ str_lt b c = true.
Proof.
  induction a as [|x a IH]; intros [|y b] [|z c]; try done; try by auto.
  rewrite !str_lt_cons. intros [H|[H H']].
  - destruct (lt_eq_lt_dec (nat_of_ascii x) (nat_of_ascii y)) as [[?|?]|?];
      [left; left; lia|right; left; lia|right; left; lia].
  - destruct (lt_eq_lt_dec (nat_of_ascii x) (nat_of_ascii y)) as [[?|?]|?];
      [left; left; lia| |right; left; lia].
    destruct (IH b c H') as [?|?]; [left|right]; right; split; auto; lia.
Qed.

(** [max_from] gives an item of the list that no item is greater than. *)
Lemma max_from_greatest l : forall best,
  max_from best l ∈ best :: l
  /\ forall x, x ∈ best :: l ->
       str_lt (chars (max_from best l)) (chars x) = false.
Proof.
  induction l as [|y l IH]; intros best; cbn [max_from].
  - split; [by left|]. intros x ->%list_elem_of_singleton. apply str_lt_irrefl.
  - destruct (IH (if str_lt (chars best) (chars y) then y else best))
      as [Hin Hmax].
    set (r := max_from _ l) in *. split.
    + apply elem_of_cons in Hin as [Hin|Hin].
      * rewrite Hin. destruct (str_lt _ _); [right; by left|by left].
      * right. by right.
    + intros x Hx. apply not_true_is_false. intros Hlt.
      assert (Hb : str_lt (chars r)
                     (chars (if str_lt (chars best) (chars y) then y else best))
                   = false) by (apply Hmax; by left).
      apply elem_of_cons in Hx as [->|Hx].
      * destruct (str_lt (chars best) (chars y)) eqn:E; [|congruence].
        pose proof (str_lt_trans _ _ _ Hlt E). congruence.
      * apply elem_of_cons in Hx as [->|Hx].
        -- destruct (str_lt (chars best) (chars y)) eqn:E; [congruence|].
           destruct (str_lt_cotrans _ (chars best) _ Hlt); congruence.
        -- rewrite Hmax in Hlt; [done|by right].
Qed.

Lemma subdirs_spec dirs p l :
  subdirs dirs p = Ok l ->
  exists names, listdir dirs p = Ok names
    /\ forall d, d ∈ l <-> d ∈ names /\ isdir dirs (os_path_join p d) = true.
Proof.
  unfold subdirs. destruct (listdir dirs p) as [names|e]; [|done].
  intros [= <-]. exists names. split; [done|]. intros d.
  rewrite list_elem_of_filter. tauto.
Qed.

(** X3. When [find_latest_collection_dir] returns a path, the path is
    [base_dir/d/t] where [d] is a directory listed in [base_dir] that
    no directory listed there is greater than (as a string), and [t] is
    such a directory of [base_dir/d].  It returns [None] exactly when
    a listing raises [FileNotFoundError], when [base_dir] lists no
    directory, or when the greatest directory of [base_dir] lists no
    directory (whatever the other ones hold); it never raises
    [FileNotFoundError]. *)
Theorem find_latest_collection_dir_latest dirs base_dir :
  (forall path,
     find_latest_collection_dir dirs base_dir = Ok (Some path) ->
     exists names d names' t,
       listdir dirs base_dir = Ok names
       /\ d ∈ names /\ isdir dirs (os_path_join base_dir d) = true
       /\ (forall d', d' ∈ names -> isdir dirs (os_path_join base_dir d') = true ->
             str_lt (chars d) (chars d') = false)
       /\ listdir dirs (os_path_join base_dir d) = Ok names'
       /\ t ∈ names'
       /\ isdir dirs (os_path_join (os_path_join base_dir d) t) = true
       /\ (forall t', t' ∈ names' ->
             isdir dirs (os_path_join (os_path_join base_dir d) t') = true ->
             str_lt (chars t) (chars t') = false)
       /\ path = os_path_join (os_path_join base_dir d) t)
  /\ (find_latest_collection_dir dirs base_dir = Ok None
      <-> (exists e, listdir dirs base_dir = Raise e
                     /\ exn_type e = "FileNotFoundError")
          \/ subdirs dirs base_dir = Ok []
          \/ exists d rest,
               subdirs dirs base_dir = Ok (d :: rest)
               /\ ((exists e, listdir dirs (os_path_join base_dir (max_from d rest))
                              = Raise e
                              /\ exn_type e = "FileNotFoundError")
                   \/ subdirs dirs (os_path_join base_dir (max_from d rest))
                      = Ok []))
  /\ (forall e, find_latest_collection_dir dirs base_dir = Raise e ->
        exn_type e <> "FileNotFoundError").
Proof.
  assert (Hfnf : forall e, exn_is e "FileNotFoundError" = true
                           <-> exn_type e = "FileNotFoundError").
  { intros e. unfold exn_is. cbn [String.eqb Ascii.eqb Bool.eqb andb].
    rewrite orb_false_r. split; [by intros ?%String.eqb_eq|intros ->; done]. }
  assert (Hsub : forall p e, subdirs dirs p = Raise e <-> listdir dirs p = Raise e).
  { intros p e. unfold subdirs. destruct (listdir dirs p); simpl; split; congruence. }
  unfold find_latest_collection_dir.
  destruct (subdirs dirs base_dir) as [[|d rest]|e] eqn:Hd; cbn [bind].
  - split; [done|]. split; [|done]. split; [intros _; right; by left|done].
  - destruct (max_from_greatest rest d) as [Hin Hmax].
    set (latest := max_from d rest) in *.
    destruct (subdirs_spec _ _ _ Hd) as (names & Hn & Hnames).
    destruct (subdirs dirs (os_path_join base_dir latest))
      as [[|t rest']|e] eqn:Ht; cbn [bind].
    + split; [done|]. split; [|done]. split; [|done].
      intros _. right. right. exists d, rest. split; [done|by right].
    + destruct (max_from_greatest rest' t) as [Hin' Hmax'].
      destruct (subdirs_spec _ _ _ Ht) as (names' & Hn' & Hnames').
      split; [|split; [|done]].
      * intros path [= <-]. exists names, latest, names', (max_from t rest').
        apply Hnames in Hin as [? ?]. apply Hnames' in Hin' as [? ?].
        repeat split; try done.
        -- intros d' ? ?. apply Hmax, Hnames. by split.
        -- intros t' ? ?. apply Hmax', Hnames'. by split.
      * split; [done|]. intros [(e & He & _)|[?|(d0 & rest0 & [= <- <-] & H)]].
        -- apply Hsub in He. congruence.
        -- congruence.
        -- fold latest in H. destruct H as [(e & He & _)|?]; [|congruence].
           apply Hsub in He. congruence.
    + apply Hsub in Ht as Hl.
      destruct (exn_is e "FileNotFoundError") eqn:Ee.
      * split; [done|]. split; [|done]. split; [|done]. intros _. right. right.
        exists d, rest. split; [done|]. left. exists e. split; [done|].
        by apply Hfnf.
      * split; [done|]. split.
        -- split; [done|].
           intros [(e' & He & _)|[?|(d0 & rest0 & [= <- <-] & H)]].
           ++ apply Hsub in He. congruence.
           ++ congruence.
           ++ fold latest in H. destruct H as [(e' & He & He')|H].
              ** rewrite Hl in He. injection He as <-.
                 apply Hfnf in He'. congruence.
              ** congruence.
        -- intros e' [= <-] He. apply Hfnf in He. congruence.
  - apply Hsub in Hd as Hl. destruct (exn_is e "FileNotFoundError") eqn:Ee.
    + split; [done|]. split; [|done]. split; [|done]. intros _. left.
      exists e. split; [done|]. by apply Hfnf.
    + split; [done|]. split.
      * split; [done|].
        intros [(e' & He & He')|[?|(d0 & rest0 & ? & _)]]; try congruence.
        rewrite Hl in He. injection He as <-. apply Hfnf in He'. congruence.
      * intros e' [= <-] He. apply Hfnf in He. congruence.
Qed.

(** The runs of a day are compared as strings, like the days. *)
Lemma find_latest_collection_dir_latest_witness :
  find_latest_collection_dir ref_dirs "wordpress_posts"
  = Ok (Some "wordpress_posts/2024-01-03/999")
  /\ exists names d names' t,
       listdir ref_dirs "wordpress_posts" = Ok names
       /\ listdir ref_dirs (os_path_join "wordpress_posts" d) = Ok names'
       /\ t ∈ names'
       /\ "wordpress_posts/2024-01-03/999"
          = os_path_join (os_path_join "wordpress_posts" d) t.
Proof.
  split; [reflexivity|].
  destruct (find_latest_collection_dir_latest ref_dirs "wordpress_posts")
    as (H & _).
  destruct (H "wordpress_posts/2024-01-03/999" eq_refl)
    as (names & d & names' & t & H1 & _ & _ & _ & H2 & H3 & _ & _ & H4).
  by exists names, d, names', t.
Defined.

(** * The extractor: edges *)

Lemma rfind_from_app_notin c pre post : forall i last,
  c ∉ post -> rfind_from c (pre ++ post) i last = rfind_from c pre i last.
Proof.
  induction pre as [|x pre IH]; intros i last Hn; simpl.
  - by apply rfind_from_notin.
  - by apply IH.
Qed.

Lemma rfind_from_bound c s : forall i last,
  last < i -> rfind_from c s i last < i + Z.of_nat (length s).
Proof.
  induction s as [|x s IH]; intros i last Hl; simpl; [lia|].
  destruct (Ascii.eqb x c).
  - pose proof (IH (i + 1) i ltac:(lia)). lia.
  - pose proof (IH (i + 1) last ltac:(lia)). lia.
Qed.

Lemma extract_span_unclosed env pre post :
  "["%char ∉ pre -> "{"%char ∉ pre -> "]"%char ∉ post ->
  extract_span env (pre ++ "["%char :: post)
  = Raise (ValueError "Could not extract JSON from page content.").
Proof.
  intros H1 H2 H3. unfold extract_span.
  set (content := pre ++ "["%char :: post).
  assert (Ha : find "[" content = Z.of_nat (length pre)).
  { unfold find, content. rewrite find_from_app by done.
    rewrite find_from_head. lia. }
  assert (He : rfind "]" content < Z.of_nat (length pre)).
  { unfold rfind, content.
    replace (pre ++ "["%char :: post) with ((pre ++ ["["%char]) ++ post)
      by by rewrite <- app_assoc.
    rewrite rfind_from_app_notin by done.
    rewrite rfind_from_app_notin
      by (intros H; apply list_elem_of_singleton in H; discriminate H).
    pose proof (rfind_from_bound "]" pre 0 (-1) ltac:(lia)). lia. }
  assert (Ho : find "{" content = -1 \/ Z.of_nat (length pre) < find "{" content).
  { unfold find, content. rewrite find_from_app by done.
    cbn [find_from]. change (Ascii.eqb "[" "{") with false. cbv iota.
    match goal with
    | |- context [find_from ?c ?l ?i] =>
        destruct (find_from_range c l i) as [->|H]; [by left|right; lia]
    end. }
  rewrite Ha.
  destruct (Z.eqb_spec (Z.of_nat (length pre)) (-1)); [lia|]. simpl negb.
  assert (Hc : ((find "{" content =? -1)
                || (Z.of_nat (length pre) <? find "{" content)) = true).
  { destruct Ho as [->|Ho]; [done|].
    apply orb_true_iff. right. by apply Z.ltb_lt. }
  rewrite Hc. simpl andb. cbv iota.
  destruct (Z.gtb_spec (rfind "]" content + 1) (Z.of_nat (length pre))); [lia|done].
Qed.

(** X4. When a ['['] comes before any ['{'] and no [']'] follows it,
    the fallback fails with [ValueError]: the object span is not tried,
    whatever follows the ['[']. *)
Theorem extract_unclosed_array env content pre post :
  json_loads env content = None ->
  looks_like_html (chars content) = false
  \/ json_loads env (str_of (strip_html_tags (chars content))) = None ->
  chars content = pre ++ "["%char :: post ->
  "["%char ∉ pre -> "{"%char ∉ pre -> "]"%char ∉ post ->
  extract_json_from_content env content
  = Raise (ValueError "Could not extract JSON from page content.").
Proof.
  intros H0 Hretry Hc H1 H2 H3. unfold extract_json_from_content. rewrite H0.
  assert (Hr : (if looks_like_html (chars content)
                then json_loads env (str_of (strip_html_tags (chars content)))
                else None) = None)
    by (destruct Hretry as [->| ->]; [done|by destruct (looks_like_html _)]).
  rewrite Hr, Hc. by apply extract_span_unclosed.
Qed.

Ltac not_in_text :=
  vm_compute; intros H;
  repeat (apply elem_of_cons in H as [H|H]; [discriminate H|]);
  by apply elem_of_nil in H.

(** The object after the bracket would parse, and is not tried. *)
Lemma extract_unclosed_array_witness :
  extract_json_from_content ref_helper "] before [ and {}"
  = Raise (ValueError "Could not extract JSON from page content.")
  /\ Json.loads "{}" = Some (PDict []).
Proof.
  split; [|reflexivity].
  apply (extract_unclosed_array ref_helper "] before [ and {}"
           (chars "] before ") (chars " and {}")).
  - reflexivity.
  - by left.
  - reflexivity.
  - not_in_text.
  - not_in_text.
  - not_in_text.
Defined.

(** X5. Content without a ['<'] at the start of a line and without
    ["</"] goes through the tag stripping untouched: only the
    whitespace around it is removed. *)
Theorem strip_html_tags_plain content :
  tag_at_line_start true content = false ->
  has_closer content = false ->
  strip_html_tags content = strip content.
Proof.
  intros Ht Hc. unfold strip_html_tags, Re.sub.
  rewrite sub_opening_quiet by done.
  rewrite <- (app_nil_r content) at 1.
  rewrite sub_closing_quiet; [|done|done].
  rewrite sub_from_end; [by rewrite app_nil_r|].
  by apply match_closing_tags_none.
Qed.

Lemma strip_html_tags_plain_witness :
  strip_html_tags (chars "  [1, 2] > 0 ") = chars "[1, 2] > 0".
Proof.
  rewrite (strip_html_tags_plain (chars "  [1, 2] > 0 ")); reflexivity.
Defined.

(** * The fetch driver: results *)

Section DriverTurn.

Context {St : Type}.
Variable env : helper_env.
Variable browse : nat -> string -> res string.
Variable emit : fs_event -> St -> res unit * St.
Variable debug_dir : option string.
Variable debug_mode : bool.
Variable on_success : option (string -> pyval -> nat -> St -> res unit * St).
Variable on_error :
  option (string -> string -> option string -> nat -> St -> res unit * St).

(** A turn is its [try] block, and the [except] branch when that
    raised. *)
Lemma fetch_one_try_block i url s :
  fetch_one env browse emit debug_dir debug_mode on_success on_error i url s
  = match try_block env browse emit debug_dir debug_mode on_success i url s with
    | (Ok data, _, s1) => (Ok (RSuccess url data), s1)
    | (Raise e, content, s1) =>
        handle_failure emit debug_dir on_error i url e content s1
    end.
Proof.
  unfold fetch_one, try_block.
  destruct (browse i url) as [content|e]; [|done].
  destruct (extract_json_from_content env content) as [data|e]; [|done].
  destruct (if debug_mode then _ else _) as [[[]|e] s1]; [|done].
  destruct on_success as [f|]; [|done].
  by destruct (f url data i s1) as [[[]|e] s2].
Qed.

(** X6. A failure inside a turn of the driver -- an exception of the
    browser, of the extractor, of the debug write of a parsed page or
    of the success callback -- is contained when the page of the
    failure can be saved for debugging and the error callback returns:
    the turn then returns an error result for its URL that carries the
    text of the exception.  It is not contained otherwise: what the
    debug write of the failed page raises, or what the error callback
    raises after it, leaves the turn. *)
Theorem fetch_one_contains_failures i url s e content s1 :
  try_block env browse emit debug_dir debug_mode on_success i url s
  = (Raise e, content, s1) ->
  let turn :=
    fetch_one env browse emit debug_dir debug_mode on_success on_error i url s in
  (forall s2,
     save_debug emit debug_dir "_error.html" url content s1 = (Ok tt, s2) ->
     match on_error with
     | Some f =>
         (forall s3, f url (exn_msg e) content i s2 = (Ok tt, s3) ->
            turn = (Ok (RError url (exn_msg e) (kept_content content)), s3))
         /\ (forall e' s3, f url (exn_msg e) content i s2 = (Raise e', s3) ->
               turn = (Raise e', s3))
     | None => turn = (Ok (RError url (exn_msg e) (kept_content content)), s2)
     end)
  /\ (forall e' s2,
        save_debug emit debug_dir "_error.html" url content s1 = (Raise e', s2) ->
        turn = (Raise e', s2)).
Proof.
  intros Ht turn. unfold turn. rewrite fetch_one_try_block, Ht.
  unfold handle_failure. fold (kept_content content). split.
  - intros s2 ->. destruct on_error as [f|]; [|done]. split.
    + by intros s3 ->.
    + by intros e' s3 ->.
  - by intros e' s2 ->.
Qed.

End DriverTurn.

Section DriverResults.

Context {St : Type}.
Variable env : helper_env.
Variable browse : nat -> string -> res string.
Variable urls : St -> list string.
Variable emit : fs_event -> St -> res unit * St.
Variable debug_dir : option string.
Variable debug_mode : bool.
Variable on_success : option (string -> pyval -> nat -> St -> res unit * St).
Variable on_error :
  option (string -> string -> option string -> nat -> St -> res unit * St).

Let one := fetch_one env browse emit debug_dir debug_mode on_success on_error.
Let loop := fetch_loop env browse urls emit debug_dir debug_mode on_success on_error.

Lemma save_debug_urls suffix url content s :
  (forall e s, urls (emit e s).2 = urls s) ->
  urls (save_debug emit debug_dir suffix url content s).2 = urls s.
Proof.
  intros He. unfold save_debug.
  by destruct (debug_target debug_dir content) as [[dir text]|].
Qed.

Lemma handle_failure_urls i url e content s r s' :
  urls_only_grow urls emit on_success on_error ->
  handle_failure emit debug_dir on_error i url e content s = (Ok r, s') ->
  result_url r = url /\ exists more, urls s' = urls s ++ more.
Proof.
  intros (He & _ & Herr). unfold handle_failure.
  pose proof (save_debug_urls "_error.html" url content s He) as Hsd.
  destruct (save_debug emit debug_dir "_error.html" url content s)
    as [[[]|e0] s1]; [|done].
  simpl in Hsd.
  destruct on_error as [f|] eqn:Hf.
  - destruct (Herr f url (exn_msg e) content i s1 eq_refl) as [more Hmore].
    rewrite Hsd in Hmore.
    destruct (f url (exn_msg e) content i _) as [[[]|e'] s2]; [|done].
    intros [= <- <-]. split; [done|]. by exists more.
  - intros [= <- <-]. split; [done|]. exists [].
    by rewrite Hsd, app_nil_r.
Qed.

Lemma fetch_one_urls i url s r s' :
  urls_only_grow urls emit on_success on_error ->
  one i url s = (Ok r, s') ->
  result_url r = url /\ exists more, urls s' = urls s ++ more.
Proof.
  intros Hg. pose proof Hg as (He & Hs & _). unfold one, fetch_one.
  assert (Hfail : forall e content s0 r0 s0',
            handle_failure emit debug_dir on_error i url e content s0
            = (Ok r0, s0') ->
            result_url r0 = url /\ exists more, urls s0' = urls s0 ++ more)
    by (intros; by eapply handle_failure_urls).
  clear Hg.
  destruct (browse i url) as [content|e]; [|by apply Hfail].
  destruct (extract_json_from_content env content) as [data|e];
    [|by apply Hfail].
  assert (H1 : urls (if debug_mode
                     then save_debug emit debug_dir "_success.html" url
                            (Some content) s
                     else (Ok tt, s)).2 = urls s)
    by (destruct debug_mode; [by apply save_debug_urls|done]).
  destruct (if debug_mode then _ else _) as [[[]|e] s1]; simpl in H1.
  - destruct on_success as [f|] eqn:Hf.
    + destruct (Hs f url data i s1 eq_refl) as [more Hmore].
      destruct (f url data i s1) as [[[]|e] s2]; simpl in Hmore.
      * intros [= <- <-]. split; [done|]. exists more. by rewrite Hmore, H1.
      * intros H. apply Hfail in H as [Hu [more' Hm']].
        split; [done|]. exists (more ++ more').
        by rewrite Hm', Hmore, H1, app_assoc.
    + intros [= <- <-]. split; [done|]. exists []. by rewrite H1, app_nil_r.
  - intros H. apply Hfail in H as [Hu [more' Hm']].
    split; [done|]. exists more'. by rewrite Hm', H1.
Qed.

Lemma fetch_loop_urls fuel : forall i results s results' s',
  urls_only_grow urls emit on_success on_error ->
  loop fuel i results s = Some (Ok results', s') ->
  map result_url results = take i (urls s) ->
  length results = i ->
  map result_url results' = urls s'
  /\ exists more, urls s' = urls s ++ more.
Proof.
  induction fuel as [|fuel IH]; intros i results s results' s' Hg; [done|].
  unfold loop. cbn [fetch_loop]. fold loop.
  destruct (urls s !! i) as [url|] eqn:Hi.
  - fold one. destruct (one i url s) as [[r|e] s1] eqn:H1; [|done].
    apply fetch_one_urls in H1 as [Hu [more Hmore]]; [|done].
    intros Hl Hm Hlen.
    apply IH in Hl as [Hres [more' Hm']]; [|done| |].
    + split; [done|]. exists (more ++ more'). by rewrite Hm', Hmore, app_assoc.
    + rewrite map_app, Hm, Hmore. cbn [map]. rewrite Hu.
      rewrite take_app_le by (apply lookup_lt_Some in Hi; lia).
      by rewrite (take_S_r _ _ _ Hi).
    + rewrite length_app. simpl. lia.
  - intros [= <- <-] Hm _. split; [|exists []; by rewrite app_nil_r].
    rewrite Hm. apply take_ge. by apply lookup_ge_None.
Qed.

(** X7. When the callbacks and the writes only add entries at the end
    of the URL list, the results the driver returns are one per entry
    of the list as it is at the end, the entries added by the callbacks
    included, in the order of the list. *)
Theorem fetch_results_follow_urls fuel s results s' :
  urls_only_grow urls emit on_success on_error ->
  fetch_json_from_urls env browse urls emit debug_dir debug_mode
    on_success on_error fuel s = Some (Ok results, s') ->
  map result_url results = urls s'
  /\ exists more, urls s' = urls s ++ more.
Proof.
  intros Hg H. unfold fetch_json_from_urls in H.
  by apply (fetch_loop_urls fuel 0 [] s results s' Hg H).
Qed.

End DriverResults.

(** A page whose success callback raises, with an error callback that
    notes the failure in the state: the turn returns the error result
    when the debug page is written, and the [OSError] of the debug
    write leaves the turn when it is not. *)
Lemma fetch_one_contains_failures_witness :
  fetch_one ref_helper (fun _ _ => Ok "[1]")
    (writes_ok (fun e (s : list string) => s ++ [event_path e]))
    (Some "debug_pages") false
    (Some (fun _ _ _ s => (Raise (ValueError "no"), s)))
    (Some (fun url msg _ _ s => (Ok tt, s ++ [msg])))
    0%nat "u" []
  = (Ok (RError "u" "no" (Some "[1]")), ["debug_pages/u_error.html"; "no"])
  /\ fetch_one ref_helper (fun _ _ => Ok "[1]")
       (fun _ (s : list string) => (Raise (Exn "OSError" "File name too long"), s))
       (Some "debug_pages") false
       (Some (fun _ _ _ s => (Raise (ValueError "no"), s)))
       (Some (fun url msg _ _ s => (Ok tt, s ++ [msg])))
       0%nat "u" []
     = (Raise (Exn "OSError" "File name too long"), []).
Proof.
  split.
  - destruct (fetch_one_contains_failures ref_helper (fun _ _ => Ok "[1]")
                (writes_ok (fun e (s : list string) => s ++ [event_path e]))
                (Some "debug_pages") false
                (Some (fun _ _ _ s => (Raise (ValueError "no"), s)))
                (Some (fun url msg _ _ s => (Ok tt, s ++ [msg])))
                0%nat "u" [] (ValueError "no") (Some "[1]") [])
      as [H _]; [reflexivity|].
    destruct (H ["debug_pages/u_error.html"]) as [H1 _]; [reflexivity|].
    apply (H1 ["debug_pages/u_error.html"; "no"]). reflexivity.
  - destruct (fetch_one_contains_failures ref_helper (fun _ _ => Ok "[1]")
                (fun _ (s : list string) =>
                   (Raise (Exn "OSError" "File name too long"), s))
                (Some "debug_pages") false
                (Some (fun _ _ _ s => (Raise (ValueError "no"), s)))
                (Some (fun url msg _ _ s => (Ok tt, s ++ [msg])))
                0%nat "u" [] (ValueError "no") (Some "[1]") [])
      as [_ H]; [reflexivity|].
    apply H. reflexivity.
Defined.

(** A list of one URL whose page makes the callback add a second one. *)
Lemma fetch_results_follow_urls_witness :
  exists results s',
    fetch_json_from_urls ref_helper (fun _ _ => Ok "[]") (fun s => s)
      (fun _ s => (Ok tt, s)) None false
      (Some (fun _ _ i s =>
               (Ok tt, if Nat.eqb i 0 then s ++ ["page2"] else s)))
      None 5 ["page1"] = Some (Ok results, s')
    /\ map result_url results = ["page1"; "page2"].
Proof.
  destruct (fetch_json_from_urls ref_helper (fun _ _ => Ok "[]") (fun s => s)
              (fun _ s => (Ok tt, s)) None false
              (Some (fun _ _ i s =>
                       (Ok tt, if Nat.eqb i 0 then s ++ ["page2"] else s)))
              None 5 ["page1"]) as [[[results|e] s']|] eqn:H;
    try (vm_compute in H; discriminate).
  exists results, s'. split; [done|].
  destruct (fetch_results_follow_urls ref_helper (fun _ _ => Ok "[]")
              (fun s => s) (fun _ s => (Ok tt, s)) None false
              (Some (fun _ _ i s =>
                       (Ok tt, if Nat.eqb i 0 then s ++ ["page2"] else s)))
              None 5 ["page1"] results s') as [Hr _].
  - split; [done|]. split.
    + intros f url data i s [= <-]. simpl. destruct (Nat.eqb i 0).
      * by eexists.
      * exists []. by rewrite app_nil_r.
    + intros f url msg content i s Hf. discriminate Hf.
  - exact H.
  - rewrite Hr. vm_compute in H. by injection H as _ <-.
Defined.

(** * The main pass: what a turn does *)

Section MainTurn.

Variable env : collect_env.
Variable hours_ago : Z.
Variable debug_mode : bool.
Variable domains : list string.

Implicit Types (s : collect_state) (ds : domain_state).

Lemma well_formed_lookup s i url :
  well_formed domains s -> urls s !! i = Some url ->
  exists domain page_num ds,
    url_metadata s !! i = Some (url, domain, page_num)
    /\ page_num <= MAX_PAGES_PER_DOMAIN
    /\ domain ∈ domains
    /\ domain_data s !! domain = Some ds.
Proof.
  intros (Hu & Hf & Hd) Hi. rewrite Hu, list_lookup_fmap in Hi.
  destruct (url_metadata s !! i) as [[[u domain] page_num]|] eqn:Hm; [|done].
  injection Hi as ->.
  rewrite Forall_forall in Hf.
  destruct (Hf _ (list_elem_of_lookup_2 _ _ _ Hm)) as [Hle Hin].
  destruct (Hd domain Hin) as [ds Hds]. by exists domain, page_num, ds.
Qed.

Lemma save_debug_writes suffix url content s :
  exists evs,
    fs_log (save_debug (writes_ok emit_write) (Some "debug_pages") suffix url
              content s).2
    = fs_log s ++ evs
    /\ Forall (main_pass_write env domains) evs.
Proof.
  unfold save_debug, debug_target, writes_ok.
  destruct content as [text|]; [|exists []; by rewrite app_nil_r].
  change (negb (String.eqb "debug_pages" "")) with true. cbn [andb].
  destruct (String.eqb_spec text "") as [->|Hne]; cbn [negb];
    [exists []; by rewrite app_nil_r|].
  eexists [_]. split; [reflexivity|]. constructor; [|done].
  left. by eexists _, text.
Qed.

(** The failure branch of a turn of the main pass. *)
Lemma handle_failure_turn i url e content s domain page_num ds :
  url_metadata s !! i = Some (url, domain, page_num) ->
  domain_data s !! domain = Some ds ->
  exists s',
    handle_failure (writes_ok emit_write) (Some "debug_pages") (Some on_error)
      i url e content s
    = (Ok (RError url (exn_msg e) (kept_content content)), s')
    /\ same_worklist s s'
    /\ domain_data s'
       = <[domain := {| posts := posts ds; pages_fetched := pages_fetched ds;
                        status := "error"; error := Some (exn_msg e);
                        post_ids := post_ids ds |}]> (domain_data s)
    /\ exists evs, fs_log s' = fs_log s ++ evs
                   /\ Forall (main_pass_write env domains) evs.
Proof.
  intros Hm Hd. unfold handle_failure. fold (kept_content content).
  destruct (save_debug_writes "_error.html" url content s) as (evs & H4 & H5).
  destruct (save_debug_keeps "_error.html" url content s)
    as (s1 & Hs1 & H1 & H2 & H3 & _).
  rewrite Hs1 in H4 |- *. cbn [snd] in H4.
  rewrite (on_error_effect url (exn_msg e) content i s1 url domain page_num ds)
    by (by rewrite ?H1, ?H3).
  eexists. split; [reflexivity|]. split; [by split|].
  split; [simpl; by rewrite H3|]. by exists evs.
Qed.

Lemma on_success_not_iterable url data index s u domain page_num e :
  url_metadata s !! index = Some (u, domain, page_num) ->
  py_iter data = Raise e ->
  on_success env hours_ago url data index s = (Raise e, s).
Proof. intros Hm Hi. unfold on_success. by rewrite Hm, Hi. Qed.

Lemma main_turn i s url :
  well_formed domains s -> urls s !! i = Some url ->
  exists r s' domain page_num ds ds',
    fetch_one (helper env) (browse_main env) (writes_ok emit_write)
      (Some "debug_pages") debug_mode (Some (on_success env hours_ago))
      (Some on_error) i url s
    = (Ok r, s')
    /\ result_url r = url
    /\ url_metadata s !! i = Some (url, domain, page_num)
    /\ page_num <= MAX_PAGES_PER_DOMAIN
    /\ domain ∈ domains
    /\ domain_data s !! domain = Some ds
    /\ domain_data s' = <[domain := ds']> (domain_data s)
    /\ (same_worklist s s'
        \/ page_num < MAX_PAGES_PER_DOMAIN
           /\ enqueued s s'
                (page_url domain (after_date_iso env (S i) hours_ago)
                   (page_num + 1), domain, page_num + 1))
    /\ (exists fresh,
          posts ds' = posts ds ++ fresh
          /\ NoDup (omap post_key fresh)
          /\ Forall (fun p => exists k, post_key p = Some k
                                /\ (k ∉ post_ids ds) /\ k ∈ post_ids ds') fresh)
    /\ post_ids ds ⊆ post_ids ds'
    /\ (status ds' = status ds /\ error ds' = error ds
        \/ status ds' = "error" /\ is_Some (error ds'))
    /\ exists evs, fs_log s' = fs_log s ++ evs
                   /\ Forall (main_pass_write env domains) evs.
Proof.
  intros Hwf Hi.
  destruct (well_formed_lookup s i url Hwf Hi)
    as (domain & page_num & ds & Hm & Hle & Hin & Hd).
  assert (Hfail : forall e content s1 ids,
    same_worklist s s1 ->
    domain_data s1
    = <[domain := {| posts := posts ds; pages_fetched := pages_fetched ds;
                     status := status ds; error := error ds;
                     post_ids := ids |}]> (domain_data s) ->
    post_ids ds ⊆ ids ->
    (exists evs, fs_log s1 = fs_log s ++ evs
                 /\ Forall (main_pass_write env domains) evs) ->
    exists r s' domain page_num ds ds',
      handle_failure (writes_ok emit_write) (Some "debug_pages")
        (Some on_error) i url e content s1 = (Ok r, s')
      /\ result_url r = url
      /\ url_metadata s !! i = Some (url, domain, page_num)
      /\ page_num <= MAX_PAGES_PER_DOMAIN
      /\ domain ∈ domains
      /\ domain_data s !! domain = Some ds
      /\ domain_data s' = <[domain := ds']> (domain_data s)
      /\ (same_worklist s s'
          \/ page_num < MAX_PAGES_PER_DOMAIN
             /\ enqueued s s'
                  (page_url domain (after_date_iso env (S i) hours_ago)
                     (page_num + 1), domain, page_num + 1))
      /\ (exists fresh,
            posts ds' = posts ds ++ fresh
            /\ NoDup (omap post_key fresh)
            /\ Forall (fun p => exists k, post_key p = Some k
                                  /\ (k ∉ post_ids ds) /\ k ∈ post_ids ds') fresh)
      /\ post_ids ds ⊆ post_ids ds'
      /\ (status ds' = status ds /\ error ds' = error ds
          \/ status ds' = "error" /\ is_Some (error ds'))
      /\ exists evs, fs_log s' = fs_log s ++ evs
                     /\ Forall (main_pass_write env domains) evs).
  { intros e content s1 ids [Hw1 Hw2] Hdd Hsub (evs1 & Hl1 & Hf1).
    destruct (handle_failure_turn i url e content s1 domain page_num
                {| posts := posts ds; pages_fetched := pages_fetched ds;
                   status := status ds; error := error ds; post_ids := ids |})
      as (s' & Hh & [Hw3 Hw4] & Hdd' & evs2 & Hl2 & Hf2).
    { by rewrite Hw1. }
    { by rewrite Hdd, lookup_insert_eq. }
    eexists _, s', domain, page_num, ds, _.
    split; [exact Hh|]. do 5 (split; [done|]).
    split; [by rewrite Hdd', Hdd, insert_insert_eq|].
    split; [left; split; congruence|].
    split; [exists []; rewrite app_nil_r; by repeat split; constructor|].
    split; [done|]. split; [right; by split|].
    exists (evs1 ++ evs2). split; [by rewrite Hl2, Hl1, app_assoc|].
    by apply Forall_app. }
  assert (Hnone : exists evs, fs_log s = fs_log s ++ evs
                              /\ Forall (main_pass_write env domains) evs)
    by (exists []; by rewrite app_nil_r).
  assert (Hsame : domain_data s
    = <[domain := {| posts := posts ds; pages_fetched := pages_fetched ds;
                     status := status ds; error := error ds;
                     post_ids := post_ids ds |}]> (domain_data s))
    by (symmetry; apply insert_id; rewrite Hd; by destruct ds).
  unfold fetch_one.
  destruct (browse_main env i url) as [content|e];
    [|by apply (Hfail e None s (post_ids ds))].
  destruct (extract_json_from_content (helper env) content) as [data|e];
    [|by apply (Hfail e (Some content) s (post_ids ds))].
  assert (H1 : exists s1,
            (if debug_mode
             then save_debug (writes_ok emit_write) (Some "debug_pages")
                    "_success.html" url (Some content) s
             else (Ok tt, s)) = (Ok tt, s1)
            /\ url_metadata s1 = url_metadata s /\ urls s1 = urls s
            /\ domain_data s1 = domain_data s
            /\ exists evs, fs_log s1 = fs_log s ++ evs
                           /\ Forall (main_pass_write env domains) evs).
  { destruct debug_mode; [|by exists s].
    destruct (save_debug_writes "_success.html" url (Some content) s)
      as (evs & Hl & Hf).
    destruct (save_debug_keeps "_success.html" url (Some content) s)
      as (s1 & Hs1 & ? & ? & ? & _).
    rewrite Hs1 in Hl. exists s1. by eauto 8. }
  destruct H1 as (s1 & -> & Hm1 & Hu1 & Hd1 & evs1 & Hl1 & Hf1).
  destruct (py_iter data) as [items|e] eqn:Hit.
  - destruct (scan_posts items (post_ids ds) [] 0)
      as [[[new_posts dup]|e] ids] eqn:Hs.
    + rewrite (on_success_scanned env hours_ago url data i s1 url domain
                 page_num ds items new_posts dup ids)
        by (by rewrite ?Hm1, ?Hd1).
      destruct (scan_posts_ok _ _ _ _ _ _ _ Hs)
        as (Hids & fresh & Hnew & _ & Hnd & Hfresh & Hset & _).
      simpl in Hnew. subst new_posts.
      pose proof (stored_worklist env s1 domain ds page_num fresh ids)
        as [Hw1 Hw2].
      pose proof (stored_domain_data env s1 domain ds page_num fresh ids) as Hsd.
      rewrite Hd1 in Hsd.
      eexists _, _, domain, page_num, ds, _.
      split; [reflexivity|]. do 5 (split; [done|]).
      split; [by destruct (should_paginate _ _ _)|].
      split.
      { destruct (should_paginate _ _ _) eqn:Hp.
        - right. apply should_paginate_iff in Hp as (_ & _ & Hp).
          split; [done|]. unfold enqueued. simpl. by rewrite Hw1, Hw2, Hm1, Hu1.
        - left. split; congruence. }
      split.
      { exists fresh. split; [done|]. split; [done|]. simpl.
        rewrite Forall_forall in Hfresh. apply Forall_forall.
        intros p Hp. destruct (Hfresh p Hp) as (k & Hk & Hnk).
        exists k. split; [done|]. split; [done|].
        rewrite Hids. apply elem_of_union_r.
        assert (Hk' : k ∈ (list_to_set (omap post_key fresh) : gset pykey)).
        { apply elem_of_list_to_set, list_elem_of_omap. by exists p. }
        rewrite Hset in Hk'. set_solver. }
      split; [simpl; rewrite Hids; set_solver|]. split; [left; by split|].
      pose proof (stored_log env s1 domain ds page_num fresh ids) as Hsl.
      eexists (evs1 ++ _). split.
      * rewrite app_assoc, <- Hl1, <- Hsl. by destruct (should_paginate _ _ _).
      * apply Forall_app. split; [done|].
        destruct (posts ds ++ fresh) as [|post more]; constructor; [|done].
        right. by exists domain, post, more.
    + rewrite (on_success_raised env hours_ago url data i s1 url domain
                 page_num ds items e ids)
        by (by rewrite ?Hm1, ?Hd1).
      apply (Hfail e (Some content) _ ids).
      * split; simpl; congruence.
      * simpl. by rewrite Hd1.
      * pose proof (scan_posts_grows items (post_ids ds) [] 0) as Hg.
        by rewrite Hs in Hg.
      * by exists evs1.
  - rewrite (on_success_not_iterable url data i s1 url domain page_num e)
      by (by rewrite ?Hm1).
    apply (Hfail e (Some content) s1 (post_ids ds));
      [split; congruence| |done|by exists evs1]. by rewrite Hd1.
Qed.

End MainTurn.

(** * The main pass: what it keeps *)

Section MainPassKeeps.

Variable env : collect_env.
Variable hours_ago : Z.
Variable debug_mode : bool.
Variable domains : list string.

Implicit Types (s : collect_state) (ds : domain_state).

Lemma on_success_urls url data i s :
  exists more, urls (on_success env hours_ago url data i s).2 = urls s ++ more.
Proof.
  unfold on_success.
  destruct (url_metadata s !! i) as [[[u domain] page_num]|];
    [|exists []; by rewrite app_nil_r].
  destruct (py_iter data) as [items|e]; [|exists []; by rewrite app_nil_r].
  destruct (domain_data s !! domain) as [ds|]; [|exists []; by rewrite app_nil_r].
  destruct (scan_posts items (post_ids ds) [] 0) as [[[new_posts dup]|e] ids];
    [|exists []; by rewrite app_nil_r].
  cbv zeta.
  destruct (should_paginate _ _ _); cbn [snd];
    [eexists [_]|exists []; rewrite app_nil_r];
    by destruct (posts ds ++ new_posts).
Qed.

Lemma on_error_urls url msg content i s :
  exists more, urls (on_error url msg content i s).2 = urls s ++ more.
Proof.
  unfold on_error. exists []. rewrite app_nil_r.
  destruct (url_metadata s !! i) as [[[u domain] page_num]|]; [|done].
  by destruct (domain_data s !! domain).
Qed.

Lemma main_urls_only_grow :
  urls_only_grow urls (writes_ok emit_write)
    (Some (on_success env hours_ago)) (Some on_error).
Proof.
  split; [done|]. split.
  - intros f url data i s [= <-]. apply on_success_urls.
  - intros f url msg content i s [= <-]. apply on_error_urls.
Qed.

Lemma slack_same i s s' item :
  url_metadata s !! i = Some item ->
  url_metadata s' = url_metadata s ->
  (length (url_metadata s') + slack (S i) s'
   <= length (url_metadata s) + slack i s)%nat.
Proof.
  intros Hi Hm. unfold slack. rewrite Hm.
  rewrite (drop_S _ _ _ Hi). cbn [sum_list_with]. lia.
Qed.

Lemma slack_enqueued i s s' item next :
  url_metadata s !! i = Some item ->
  item.2 < MAX_PAGES_PER_DOMAIN ->
  next.2 = item.2 + 1 ->
  url_metadata s' = url_metadata s ++ [next] ->
  (length (url_metadata s') + slack (S i) s'
   = length (url_metadata s) + slack i s)%nat.
Proof.
  intros Hi Hlt Hn Hm. unfold slack. rewrite Hm.
  rewrite (drop_S _ _ _ Hi), length_app.
  rewrite drop_app_le by (apply lookup_lt_Some in Hi; lia).
  rewrite sum_list_with_app. cbn [sum_list_with length].
  unfold item_slack. rewrite Hn. lia.
Qed.

Lemma initial_slack :
  (length (url_metadata (initial_state env hours_ago domains))
   + slack 0 (initial_state env hours_ago domains)
   = Z.to_nat MAX_PAGES_PER_DOMAIN * length domains)%nat.
Proof.
  unfold slack, initial_state, build_domain_urls. cbn [url_metadata].
  rewrite drop_0, length_map.
  generalize domains. intros l. induction l as [|d l IH]; [done|].
  cbn [map sum_list_with length]. unfold item_slack at 1. cbn [snd].
  change (Z.to_nat (MAX_PAGES_PER_DOMAIN - 1)) with 19%nat.
  change (Z.to_nat MAX_PAGES_PER_DOMAIN) with 20%nat in *. lia.
Qed.

Lemma initial_state_entry d ds :
  domain_data (initial_state env hours_ago domains) !! d = Some ds ->
  ds = {| posts := []; pages_fetched := 0; status := "pending";
          error := None; post_ids := ∅ |}.
Proof.
  unfold initial_state. cbn [domain_data]. intros H.
  apply elem_of_list_to_map_2, list_elem_of_fmap in H as (d' & [= _ ->] & _).
  done.
Qed.

Lemma posts_distinct_turn ds ds' fresh :
  posts_distinct ds ->
  posts ds' = posts ds ++ fresh ->
  NoDup (omap post_key fresh) ->
  Forall (fun p => exists k, post_key p = Some k
                     /\ (k ∉ post_ids ds) /\ k ∈ post_ids ds') fresh ->
  post_ids ds ⊆ post_ids ds' ->
  posts_distinct ds'.
Proof.
  intros [Hnd Hall] Hp Hndf Hfresh Hsub. unfold posts_distinct.
  rewrite Hp, omap_app. split.
  - apply NoDup_app. split; [done|]. split; [|done].
    intros k Hk Hk'.
    apply list_elem_of_omap in Hk as (p & Hp1 & Hp2).
    apply list_elem_of_omap in Hk' as (p' & Hp1' & Hp2').
    rewrite Forall_forall in Hall. destruct (Hall p Hp1) as (k1 & Hk1 & Hin).
    rewrite Forall_forall in Hfresh.
    destruct (Hfresh p' Hp1') as (k2 & Hk2 & Hnin & _).
    congruence.
  - apply Forall_app. split.
    + eapply Forall_impl; [exact Hall|]. intros p (k & Hk & Hin).
      exists k. split; [done|]. by apply Hsub.
    + eapply Forall_impl; [exact Hfresh|]. intros p (k & Hk & _ & Hin).
      by exists k.
Qed.

Lemma status_recorded_turn ds ds' :
  status_recorded ds ->
  status ds' = status ds /\ error ds' = error ds
  \/ status ds' = "error" /\ is_Some (error ds') ->
  status_recorded ds'.
Proof.
  intros H [[H1 H2]|H']; [|by right].
  unfold status_recorded. rewrite H1, H2. exact H.
Qed.

(** The main pass ends, and the state it ends in. *)
Lemma main_pass_end :
  exists results s,
    main_pass env hours_ago debug_mode domains = Some (Ok results, s)
    /\ well_formed domains s
    /\ map result_url results = urls s
    /\ (length (url_metadata s)
        <= Z.to_nat MAX_PAGES_PER_DOMAIN * length domains)%nat
    /\ Forall (fun item => 1 <= item.2) (url_metadata s)
    /\ (forall d ds, domain_data s !! d = Some ds ->
          status_recorded ds /\ posts_distinct ds)
    /\ Forall (main_pass_write env domains) (fs_log s).
Proof.
  set (P := fun (i : nat) s =>
    well_formed domains s
    /\ (length (url_metadata s) + slack i s
        <= Z.to_nat MAX_PAGES_PER_DOMAIN * length domains)%nat
    /\ Forall (fun item : string * string * Z => 1 <= item.2) (url_metadata s)
    /\ (forall d ds, domain_data s !! d = Some ds ->
          status_recorded ds /\ posts_distinct ds)
    /\ Forall (main_pass_write env domains) (fs_log s)).
  unfold main_pass, fetch_json_from_urls.
  destruct (fetch_loop_total (helper env) (browse_main env) urls (writes_ok emit_write)
              (Some "debug_pages") debug_mode
              (Some (on_success env hours_ago)) (Some on_error)
              P work_left) with
      (fuel := S (Z.to_nat MAX_PAGES_PER_DOMAIN * length domains))
      (i := 0%nat) (results := @nil fetch_result)
      (s := initial_state env hours_ago domains)
    as (results & i' & s' & Hloop & (Hwf & Hb & Hp & Hd & Hlog) & _).
  - intros i s url (Hwf & Hb & Hp & Hds & Hlog) Hi.
    destruct (main_turn env hours_ago debug_mode domains i s url Hwf Hi)
      as (r & s' & domain & page_num & ds & ds' & Hone & _ & Hm & Hle & Hin
          & Hd & Hdd & Hw & (fresh & Hf1 & Hf2 & Hf3) & Hsub & Hst
          & evs & Hevs & Hfevs).
    exists r, s'. split; [exact Hone|].
    assert (Hge : 1 <= page_num).
    { rewrite Forall_forall in Hp.
      apply (Hp _ (list_elem_of_lookup_2 _ _ _ Hm)). }
    assert (Hwf' : well_formed domains s').
    { destruct Hwf as (Hu & Hf & Hdom).
      eapply well_formed_update; [by repeat split| | |exact Hdd].
      - destruct Hw as [[-> ->]|[_ [-> ->]]]; [done|].
        by rewrite map_app, Hu.
      - destruct Hw as [[-> _]|[Hlt [-> _]]]; [done|].
        apply Forall_app. split; [done|]. constructor; [|done].
        simpl. split; [lia|done]. }
    split; [|destruct Hw as [[Hw _]|[Hlt [Hw _]]];
             (eapply work_left_step; [exact Hm|exact Hle|]);
             [by left|right; eexists; by split]].
    split; [done|]. split; [|split; [|split]].
    4:{ rewrite Hevs. by apply Forall_app. }
    + destruct Hw as [[Hw _]|[Hlt [Hw _]]].
      * pose proof (slack_same i s s' _ Hm Hw). lia.
      * assert (Hq := fun Hn => slack_enqueued i s s' _ _ Hm Hlt Hn Hw).
        specialize (Hq eq_refl). lia.
    + destruct Hw as [[-> _]|[Hlt [-> _]]]; [done|].
      apply Forall_app. split; [done|]. constructor; [simpl; lia|done].
    + intros d ds0. rewrite Hdd.
      destruct (decide (domain = d)) as [<-|Hne].
      * rewrite lookup_insert_eq. intros [= <-].
        destruct (Hds domain ds Hd) as [Hs1 Hs2]. split.
        -- by apply (status_recorded_turn ds).
        -- by apply (posts_distinct_turn ds ds' fresh).
      * rewrite lookup_insert_ne by done. apply Hds.
  - split; [apply initial_state_well_formed|].
    split; [rewrite initial_slack; lia|]. split.
    + unfold initial_state, build_domain_urls. cbn [url_metadata].
      apply Forall_fmap, Forall_true. simpl. lia.
    + split; [|constructor].
      intros d ds ->%initial_state_entry. split.
      * by left.
      * split; [constructor|constructor].
  - rewrite initial_work_left. lia.
  - exists results, s'. split; [exact Hloop|]. split; [done|].
    split.
    { apply (fetch_loop_urls (helper env) (browse_main env) urls (writes_ok emit_write)
               (Some "debug_pages") debug_mode
               (Some (on_success env hours_ago)) (Some on_error)
               _ 0%nat [] _ _ _ main_urls_only_grow Hloop); done. }
    split; [lia|]. split; [done|]. split; done.
Qed.

End MainPassKeeps.

(** * The summary *)

Section Summary.

Variable env : collect_env.
Variable hours_ago : Z.
Variable debug_mode : bool.

Lemma finalize_raised dd l e :
  foldl (fun acc domain => finalize_domain env dd domain acc) (Raise e) l
  = Raise e.
Proof. induction l as [|d l IH]; [done|]. simpl. exact IH. Qed.

Lemma finalize_domain_entry dd d f0 f :
  finalize_domain env dd d (Ok f0) = Ok f ->
  exists data r,
    dd !! d = Some data /\ results f = results f0 ++ [r]
    /\ entry_of env d data r.
Proof.
  unfold finalize_domain. cbn [bind].
  destruct (dd !! d) as [data|]; [|done].
  unfold result_of.
  destruct (posts data) as [|p l] eqn:Hp.
  - destruct (error data) as [msg|] eqn:He; cbn [option_str truthy].
    + destruct (String.eqb_spec msg "") as [->|Hne]; cbn [negb];
        intros [= <-]; eexists data, _; (split; [done|]); (split; [done|]);
        unfold entry_of; rewrite Hp, He; cbn; repeat split; try done.
      by destruct (String.eqb_spec msg "").
    + intros [= <-]. eexists data, _. split; [done|]. split; [done|].
      unfold entry_of. rewrite Hp, He. cbn. by repeat split.
  - intros [= <-]. eexists data, _. split; [done|]. split; [done|].
    unfold entry_of. rewrite Hp. cbn. by repeat split.
Qed.

Lemma finalize_entries dd l : forall f0 f,
  foldl (fun acc domain => finalize_domain env dd domain acc) (Ok f0) l = Ok f ->
  exists rs,
    results f = results f0 ++ rs
    /\ Forall2 (fun d r => exists data, dd !! d = Some data
                                        /\ entry_of env d data r) l rs.
Proof.
  induction l as [|d l IH]; intros f0 f.
  - intros [= <-]. exists []. by rewrite app_nil_r.
  - cbn [foldl].
    destruct (finalize_domain env dd d (Ok f0)) as [f1|e] eqn:H1;
      [|by rewrite finalize_raised].
    intros H. apply IH in H as (rs & Hrs & Hall).
    apply finalize_domain_entry in H1 as (data & r & Hd & Hr & He).
    exists (r :: rs). split; [by rewrite Hrs, Hr, <- app_assoc|].
    constructor; [by exists data|done].
Qed.

(** X8. The main pass ends with one result per request, in the order
    of the work list.  It makes at most 20 requests for every entry of
    the domain list, and every request is for a page from 1 to 20 of a
    listed domain. *)
Theorem main_pass_bounded domains :
  exists fetched s,
    main_pass env hours_ago debug_mode domains = Some (Ok fetched, s)
    /\ map result_url fetched = urls s
    /\ urls s = map (fun item => item.1.1) (url_metadata s)
    /\ (length fetched <= 20 * length domains)%nat
    /\ Forall (fun item => 1 <= item.2 <= 20 /\ item.1.2 ∈ domains)
              (url_metadata s).
Proof.
  destruct (main_pass_end env hours_ago debug_mode domains)
    as (fetched & s & Hmain & (Hu & Hf & _) & Hres & Hlen & Hp & _ & _).
  exists fetched, s. split; [done|]. split; [done|]. split; [done|]. split.
  - rewrite <- (length_map result_url), Hres, Hu, length_map.
    exact Hlen.
  - rewrite Forall_forall in Hf, Hp. apply Forall_forall. intros item Hin.
    destruct (Hf item Hin) as [Hle Hd]. specialize (Hp item Hin).
    unfold MAX_PAGES_PER_DOMAIN in Hle. split; [lia|done].
Qed.

(** X9. When the main pass has ended, the posts stored for a domain
    have identifiers that are all different, and every one of them is
    among the seen identifiers of the domain. *)
Theorem main_pass_distinct_posts domains :
  exists fetched s,
    main_pass env hours_ago debug_mode domains = Some (Ok fetched, s)
    /\ forall d ds, domain_data s !! d = Some ds ->
         NoDup (omap post_key (posts ds))
         /\ Forall (fun p => exists k, post_key p = Some k /\ k ∈ post_ids ds)
                   (posts ds).
Proof.
  destruct (main_pass_end env hours_ago debug_mode domains)
    as (fetched & s & Hmain & _ & _ & _ & _ & Hd & _).
  exists fetched, s. split; [done|]. intros d ds Hds.
  by destruct (Hd d ds Hds) as [_ ?].
Qed.

(** X23. Every file the main pass writes is a page saved under
    [debug_pages], with a text that is not empty, or the file of a
    listed domain with the posts stored for it, of which there is at
    least one: the main pass writes no empty list of posts and no other
    file. *)
Theorem main_pass_writes domains :
  exists fetched s,
    main_pass env hours_ago debug_mode domains = Some (Ok fetched, s)
    /\ forall e, e ∈ fs_log s ->
         (exists name text,
            e = Write (path_join "debug_pages" name) (FText text)
            /\ text <> "")
         \/ (exists d post more,
               d ∈ domains
               /\ e = Write (domain_file (timestamp_dir env) d)
                         (FJson (PList (post :: more)))).
Proof.
  destruct (main_pass_end env hours_ago debug_mode domains)
    as (fetched & s & Hmain & _ & _ & _ & _ & _ & Hlog).
  exists fetched, s. split; [done|]. intros e He.
  rewrite Forall_forall in Hlog. exact (Hlog e He).
Qed.

(** X10. A run over an existing domains file ends with a summary
    that has one record per entry of the domain list, in the order of
    the list.  The record of a domain with stored posts has the status
    ["success"], the path of the domain's file and the number of the
    posts, and keeps the message of a failed request, if there was one;
    the record of a domain without posts has no file path, and the
    status ["error"] with the message of the last failed request, or
    the status ["pending"] with the message that no article was found.
    No record has the status ["failed"]. *)
Theorem summary_entries lines :
  let domains := read_domains lines in
  exists r rs,
    collect_wordpress_posts env hours_ago debug_mode (Some lines)
    = Some (Ok (Collected r))
    /\ report_summary r
       = PDict [("collection_timestamp", PStr (timestamp_str env));
                ("collection_date", PStr (date_str env));
                ("hours_ago", PInt hours_ago);
                ("results", PList rs)]
    /\ Forall2
         (fun d entry =>
            exists data,
              domain_data (report_state r) !! d = Some data
              /\ entry_of env d data entry
              /\ (posts data <> []
                  /\ note_field "status" entry = Some (PStr "success")
                  \/ posts data = [] /\ is_Some (error data)
                     /\ note_field "status" entry = Some (PStr "error")
                  \/ posts data = [] /\ error data = None
                     /\ note_field "status" entry = Some (PStr "pending")))
         domains rs.
Proof.
  intros domains.
  destruct (collect_completes env hours_ago debug_mode lines)
    as (fetched & s & f & log & Hmain & _ & _ & Hfin & _ & Hrun).
  fold domains in Hmain, Hfin. cbv zeta in Hrun.
  destruct (main_pass_end env hours_ago debug_mode domains)
    as (fetched' & s' & Hmain' & _ & _ & _ & _ & Hd & _).
  rewrite Hmain in Hmain'. injection Hmain' as _ <-.
  unfold finalize in Hfin.
  apply finalize_entries in Hfin as (rs & Hrs & Hall). simpl in Hrs.
  eexists _, rs. split; [by apply Hrun|]. cbn [report_summary report_state].
  split; [by rewrite Hrs|].
  eapply Forall2_impl; [exact Hall|]. intros d entry (data & Hdata & He).
  exists data. split; [done|]. split; [done|].
  destruct (Hd d data Hdata) as [Hst _].
  destruct He as (_ & _ & _ & He).
  destruct (posts data) as [|p l].
  - right. destruct He as (Hs & _ & _).
    destruct Hst as [[Hp Hn]|[Hp Hs']]; rewrite Hp in Hs; [right|left]; done.
  - left. by destruct He as (Hs & _ & _).
Qed.

End Summary.

(** * A page with an item that is no post *)

Lemma scan_posts_bad_item items item : forall ids acc dup,
  item ∈ items -> (forall d, item <> PDict d) ->
  exists e ids',
    scan_posts items ids acc dup = (Raise e, ids')
    /\ (exn_type e = "AttributeError" \/ exn_type e = "TypeError").
Proof.
  induction items as [|post rest IH]; intros ids acc dup Hin Hnd.
  - by apply elem_of_nil in Hin.
  - cbn [scan_posts].
    destruct (py_get post "id" PNone) as [post_id|e] eqn:Hg.
    + assert (Hrest : item ∈ rest).
      { apply elem_of_cons in Hin as [->|Hin]; [|done].
        destruct post; try discriminate Hg. by destruct (Hnd d). }
      destruct (truthy post_id); [|by apply IH].
      destruct (hash_key post_id) as [k|]; [|eexists _, _; split; [done|by right]].
      destruct (decide (k ∈ ids)); by apply IH.
    + exists e, ids. split; [done|]. left.
      destruct post; try (injection Hg as <-; reflexivity). discriminate Hg.
Qed.

(** X11. A page that parses to items of which one is not an object (a
    string, a number, or the keys of an object page, as the body of an
    error answer is) is a failed request of its domain: the success
    callback raises, the driver records an error result, and the entry
    of the domain gets the status ["error"] and the text of the
    exception.  None of the posts of the page is stored and the work
    list is left as it is. *)
Theorem bad_item_fails_page env hours_ago debug_mode i url s domain page_num ds
  content data items item :
  url_metadata s !! i = Some (url, domain, page_num) ->
  domain_data s !! domain = Some ds ->
  browse_main env i url = Ok content ->
  extract_json_from_content (helper env) content = Ok data ->
  py_iter data = Ok items ->
  item ∈ items -> (forall d, item <> PDict d) ->
  exists e s' ds',
    fetch_one (helper env) (browse_main env) (writes_ok emit_write)
      (Some "debug_pages") debug_mode (Some (on_success env hours_ago))
      (Some on_error) i url s
    = (Ok (RError url (exn_msg e) (kept_content (Some content))), s')
    /\ (exn_type e = "AttributeError" \/ exn_type e = "TypeError")
    /\ same_worklist s s'
    /\ domain_data s' = <[domain := ds']> (domain_data s)
    /\ posts ds' = posts ds /\ pages_fetched ds' = pages_fetched ds
    /\ status ds' = "error" /\ error ds' = Some (exn_msg e)
    /\ post_ids ds ⊆ post_ids ds'.
Proof.
  intros Hm Hd Hb Hx Hit Hin Hnd. unfold fetch_one. rewrite Hb, Hx.
  assert (H1 : exists s1,
            (if debug_mode
             then save_debug (writes_ok emit_write) (Some "debug_pages")
                    "_success.html" url (Some content) s
             else (Ok tt, s)) = (Ok tt, s1)
            /\ url_metadata s1 = url_metadata s /\ urls s1 = urls s
            /\ domain_data s1 = domain_data s).
  { destruct debug_mode; [|by exists s].
    destruct (save_debug_keeps "_success.html" url (Some content) s)
      as (s1 & ? & ? & ? & ? & _). by exists s1. }
  destruct H1 as (s1 & -> & Hm1 & Hu1 & Hd1).
  destruct (scan_posts_bad_item items item (post_ids ds) [] 0 Hin Hnd)
    as (e & ids & Hs & He).
  rewrite (on_success_raised env hours_ago url data i s1 url domain
             page_num ds items e ids) by (by rewrite ?Hm1, ?Hd1).
  destruct (handle_failure_turn env [] i url e (Some content)
              (set_domain domain
                 {| posts := posts ds; pages_fetched := pages_fetched ds;
                    status := status ds; error := error ds; post_ids := ids |}
                 s1) domain page_num
              {| posts := posts ds; pages_fetched := pages_fetched ds;
                 status := status ds; error := error ds; post_ids := ids |})
    as (s' & Hh & [Hw1 Hw2] & Hdd & _).
  { simpl. by rewrite Hm1. }
  { simpl. by rewrite lookup_insert_eq. }
  rewrite Hh. eexists e, s', _. split; [reflexivity|]. split; [done|].
  split; [split; simpl in *; congruence|].
  split; [simpl in Hdd; by rewrite Hdd, Hd1, insert_insert_eq|].
  simpl. do 4 (split; [done|]).
  pose proof (scan_posts_grows items (post_ids ds) [] 0) as Hg.
  by rewrite Hs in Hg.
Qed.

(** The body of an error answer: an object, whose keys are strings. *)
Lemma bad_item_fails_page_witness :
  exists s',
    fetch_one ref_helper (fun _ _ => Ok (dq "{'code': 'rest_no_route'}"))
      (writes_ok emit_write) (Some "debug_pages") false
      (Some (on_success (const_env (Ok (dq "{'code': 'rest_no_route'}"))) 48))
      (Some on_error) 0 "u" (state_at 1 [])
    = (Ok (RError "u" "'str' object has no attribute 'get'"
             (Some (dq "{'code': 'rest_no_route'}"))), s').
Proof.
  destruct (bad_item_fails_page
              (const_env (Ok (dq "{'code': 'rest_no_route'}"))) 48 false
              0 "u" (state_at 1 []) "a.com" 1
              {| posts := []; pages_fetched := 0; status := "pending";
                 error := None; post_ids := ∅ |}
              (dq "{'code': 'rest_no_route'}")
              (PDict [("code", PStr "rest_no_route")])
              [PStr "code"] (PStr "code"))
    as (e & s' & ds' & H & _); try reflexivity.
  - by left.
  - discriminate.
  - exists s'. cbn [helper browse_main const_env] in H.
    assert (Hmsg : "'str' object has no attribute 'get'" = exn_msg e)
      by (vm_compute in H; by injection H as Hm _).
    by rewrite H, <- Hmsg.
Defined.

(** * The batch of the normaliser: what it counts and writes *)

Section Batch.

Variable env : normalize_env.
Variable output_dir : string.

Lemma batch_rel_refl acc : batch_rel env output_dir 0 0 acc acc.
Proof.
  unfold batch_rel. repeat split; try lia; try done.
  - exists 0. repeat split; lia.
  - intros p v Hn Hv. congruence.
  - exists []. by rewrite app_nil_r.
Qed.

Lemma batch_rel_trans f1 n1 f2 n2 a b c :
  batch_rel env output_dir f1 n1 a b ->
  batch_rel env output_dir f2 n2 b c ->
  batch_rel env output_dir (f1 + f2) (n1 + n2) a c.
Proof.
  intros (A1 & A2 & A3 & A4 & (l1 & A5 & A5' & A5'') & A8 & A6 & m1 & A7)
         (B1 & B2 & B3 & B4 & (l2 & B5 & B5' & B5'') & B8 & B6 & m2 & B7).
  unfold batch_rel. repeat split; try lia.
  - by etrans.
  - exists (l1 + l2). split; [lia|]. split; [lia|].
    intros H. rewrite A5'', B5'' by done. lia.
  - intros p v Hn Hv. destruct (b.2 !! p) as [v'|] eqn:Hb.
    + apply A6; [done|]. rewrite Hb. f_equal.
      pose proof (lookup_weaken _ _ _ _ Hb B4). congruence.
    + by apply B6.
  - exists (m1 ++ m2). by rewrite B7, A7, app_assoc.
Qed.

Lemma batch_rel_error msg st out :
  batch_rel env output_dir 0 1 (st, out) (add_error msg st, out).
Proof.
  unfold batch_rel, counted. simpl. rewrite length_app. simpl.
  repeat split; try lia; try done.
  - exists 0. repeat split; lia.
  - intros p v Hn Hv. congruence.
  - by eexists.
Qed.

Lemma process_article_batch filename ts article acc acc' :
  process_article env filename output_dir ts article acc = Ok acc' ->
  batch_rel env output_dir 0 1 acc acc'.
Proof.
  destruct acc as [st out]. unfold process_article.
  destruct article as [| | | | | |d];
    try (intros [= <-]; apply batch_rel_error).
  destruct (normalize_article env d ts) as [[na err]|e]; simpl; [|done].
  destruct err as [msg|]; [intros [= <-]; apply batch_rel_error|].
  destruct na as [[| | | | | |fields]|]; try done.
  destruct (dict_lookup "url" fields) as [[| | | |url| |]|] eqn:Hu; try done.
  destruct (dict_lookup "source_domain" fields) as [[| | | |sd| |]|] eqn:Hsd;
    try done.
  destruct (makedirs env _) as [[]|e]; simpl; [|done].
  destruct (out !! _) eqn:Hout.
  { intros [= <-]. unfold batch_rel, counted. simpl.
    repeat split; try lia; try done.
    - exists 0. repeat split; lia.
    - intros p v Hn Hv. congruence.
    - exists []. by rewrite app_nil_r. }
  destruct (can_write env _) eqn:Hcw; intros [= <-].
  - unfold batch_rel, counted. simpl. rewrite map_size_insert_None by done.
    repeat split; try lia.
    + by apply insert_subseteq.
    + exists 0. repeat split; lia.
    + intros p v Hn Hv.
      destruct (decide (article_path env output_dir sd url = p)) as [<-|Hne].
      * rewrite lookup_insert_eq in Hv. injection Hv as <-.
        exists url, sd. split; [done|]. left. split; [done|]. by exists fields.
      * rewrite lookup_insert_ne in Hv by done. congruence.
    + exists []. by rewrite app_nil_r.
  - unfold failed_write.
    destruct (write_leaves env _) as [part|] eqn:Hwl; [|apply batch_rel_error].
    unfold batch_rel, counted. simpl. rewrite map_size_insert_None by done.
    rewrite length_app. simpl.
    repeat split; try lia.
    + by apply insert_subseteq.
    + exists 1. split; [lia|]. split; [lia|].
      intros H. rewrite (H _ Hcw) in Hwl. discriminate Hwl.
    + intros p v Hn Hv.
      destruct (decide (article_path env output_dir sd url = p)) as [<-|Hne].
      * rewrite lookup_insert_eq in Hv. injection Hv as <-.
        exists url, sd. split; [done|]. by right.
      * rewrite lookup_insert_ne in Hv by done. congruence.
    + by eexists.
Qed.

Lemma process_articles_batch filename ts articles : forall acc acc',
  process_articles env filename output_dir ts articles acc = Ok acc' ->
  batch_rel env output_dir 0 (Z.of_nat (length articles)) acc acc'.
Proof.
  induction articles as [|a rest IH]; intros acc acc'.
  - intros [= <-]. apply batch_rel_refl.
  - rewrite process_articles_cons.
    destruct (process_article env filename output_dir ts a acc) as [acc1|e] eqn:H1;
      [|done].
    intros H2. apply process_article_batch in H1. apply IH in H2.
    replace (Z.of_nat (length (a :: rest)))
      with (1 + Z.of_nat (length rest)) by (simpl; lia).
    by apply (batch_rel_trans 0 1 0 _ acc acc1 acc').
Qed.

Lemma process_file_batch ts entry acc acc' :
  process_file env output_dir ts entry acc = Ok acc' ->
  batch_rel env output_dir (if is_raw_file entry.1 then 1 else 0)
    (file_items env entry) acc acc'.
Proof.
  destruct entry as [filename text]. destruct acc as [st out].
  unfold process_file, file_items. simpl.
  destruct (is_raw_file filename); simpl; [|intros [= <-]; apply batch_rel_refl].
  assert (Hfile : batch_rel env output_dir 1 0 (st, out) (add_file st, out)).
  { unfold batch_rel, counted. simpl. repeat split; try lia; try done.
    - exists 0. repeat split; lia.
    - intros p v Hn Hv. congruence.
    - exists []. by rewrite app_nil_r. }
  assert (Hbad : batch_rel env output_dir 1 1 (st, out)
                   (add_error ("Error decoding JSON or file is not a list of articles: "
                               +:+ filename) (add_file st), out))
    by apply (batch_rel_trans 1 0 0 1 _ _ _ Hfile (batch_rel_error _ _ _)).
  destruct (load_json env text) as [[| | | | |articles|]|];
    try (intros [= <-]; exact Hbad).
  intros H. apply process_articles_batch in H.
  by apply (batch_rel_trans 1 0 0 _ _ _ _ Hfile).
Qed.

Lemma process_files_batch ts listing : forall acc acc',
  process_files env output_dir ts listing acc = Ok acc' ->
  batch_rel env output_dir (Z.of_nat (length (raw_files listing)))
    (total_items env listing) acc acc'.
Proof.
  induction listing as [|entry rest IH]; intros acc acc'.
  - intros [= <-]. apply batch_rel_refl.
  - rewrite process_files_cons.
    destruct (process_file env output_dir ts entry acc) as [acc1|e] eqn:H1; [|done].
    intros H2. apply process_file_batch in H1. apply IH in H2.
    pose proof (batch_rel_trans _ _ _ _ _ _ _ H1 H2) as H.
    unfold raw_files. rewrite filter_cons. cbn [total_items foldr].
    fold (total_items env rest). fold (raw_files rest).
    destruct (is_raw_file entry.1) eqn:Er.
    + rewrite decide_True by done.
      replace (Z.of_nat (length (entry :: raw_files rest)))
        with (1 + Z.of_nat (length (raw_files rest))) by (simpl; lia).
      exact H.
    + rewrite decide_False by congruence. exact H.
Qed.

Lemma normalized_batch listing (out : gmap string file_data) st out' summary :
  process_collection_directory env (Some listing) output_dir out
  = Ok (Normalized st out' summary) ->
  batch_rel env output_dir (Z.of_nat (length (raw_files listing)))
    (total_items env listing)
    ({| files_processed := 0; articles_new := 0; articles_skipped := 0;
        errors := 0; errors_list := [] |}, out) (st, out')
  /\ summary = PDict [("timestamp", PStr (now_iso env));
                      ("source", PStr "wordpress");
                      ("statistics", stats_value st)].
Proof.
  unfold process_collection_directory.
  destruct (list_find _ listing) as [[i [name text]]|]; [|done].
  destruct (load_json env text) as [collection_summary|]; [|done].
  destruct (py_getitem_str collection_summary "collection_timestamp")
    as [ts|e]; simpl; [|done].
  destruct (process_files env output_dir ts listing _) as [[st1 out1]|e] eqn:Hp;
    simpl; [|done].
  intros [= <- <- <-]. split; [|done]. by apply process_files_batch in Hp.
Qed.

Lemma process_files_bad_file ts listing name text : forall acc acc',
  process_files env output_dir ts listing acc = Ok acc' ->
  (name, text) ∈ listing ->
  is_raw_file name = true ->
  (forall articles, load_json env text <> Some (PList articles)) ->
  ("Error decoding JSON or file is not a list of articles: " +:+ name)
  ∈ errors_list acc'.1.
Proof.
  induction listing as [|entry rest IH]; intros acc acc' H Hin Hraw Hbad.
  - by apply elem_of_nil in Hin.
  - rewrite process_files_cons in H.
    destruct (process_file env output_dir ts entry acc) as [acc1|e] eqn:H1; [|done].
    apply elem_of_cons in Hin as [<-|Hin]; [|by apply (IH acc1)].
    apply process_files_batch in H as (_ & _ & _ & _ & _ & _ & _ & msgs & ->).
    apply elem_of_app. left.
    destruct acc as [st out]. unfold process_file in H1. rewrite Hraw in H1.
    simpl in H1.
    destruct (load_json env text) as [[| | | | |articles|]|];
      try (injection H1 as <-; simpl; apply elem_of_app; right; by left).
    by destruct (Hbad articles).
Qed.

End Batch.

(** X12. When a batch of the normaliser has completed, [files_processed]
    is the number of raw files of the source directory, every item of
    a raw file that holds a list has been counted once as new, skipped
    or an error, every other raw file has been counted as one error,
    and [errors] is the length of [errors_list].  The summary holds
    these statistics. *)
Theorem normalization_counts env listing output_dir out st out' summary :
  process_collection_directory env (Some listing) output_dir out
  = Ok (Normalized st out' summary) ->
  files_processed st = Z.of_nat (length (raw_files listing))
  /\ articles_new st + articles_skipped st + errors st
     = total_items env listing
  /\ errors st = Z.of_nat (length (errors_list st))
  /\ note_field "statistics" summary = Some (stats_value st).
Proof.
  intros H. apply normalized_batch in H as [(H1 & H2 & H3 & _) ->].
  unfold counted in *. simpl in *.
  split; [lia|]. split; [lia|]. split; [lia|done].
Qed.


(** Two posts with one URL: one new article, one skipped. *)
Lemma normalization_counts_witness :
  exists st out' summary,
    process_collection_directory ref_normalize
      (Some (two_posts (post_plain "1") (post_plain "1"))) "out" ∅
    = Ok (Normalized st out' summary)
    /\ articles_new st + articles_skipped st + errors st = 2
    /\ files_processed st = 1.
Proof.
  destruct (process_collection_directory ref_normalize
              (Some (two_posts (post_plain "1") (post_plain "1"))) "out" ∅)
    as [[| |st out' summary]|e] eqn:H1;
    try (vm_compute in H1; discriminate).
  exists st, out', summary. split; [done|].
  destruct (normalization_counts _ _ _ _ _ _ _ H1) as (Hf & Hn & _).
  rewrite Hf, Hn. split; reflexivity.
Defined.


(** * The normalised article *)

Section Article.

Variable env : normalize_env.

Lemma required_fields_ok article ident ts url title text domain seen :
  required_fields env article ident ts = Ok (inl (url, title, text, domain, seen)) ->
  dict_lookup "link" article = Some url
  /\ rendered (default (PDict []) (dict_lookup "title" article)) = Ok title
  /\ (exists html,
        rendered (default (PDict []) (dict_lookup "content" article)) = Ok html
        /\ exists md, markdownify env html = Ok md /\ text = tidy md)
  /\ netloc env url = Ok domain
  /\ py_int env ts = Ok seen
  /\ truthy url = true /\ truthy title = true
  /\ text <> "" /\ domain <> "" /\ seen <> 0.
Proof.
  unfold required_fields. cbn [py_getitem_str].
  destruct (dict_lookup "link" article) as [link|]; [|done]. cbn [bind].
  destruct (rendered (default (PDict []) (dict_lookup "title" article)))
    as [t|e] eqn:Ht; [|done]. cbn [bind].
  destruct (rendered (default (PDict []) (dict_lookup "content" article)))
    as [html|e] eqn:Hc; [|done]. cbn [bind].
  destruct (markdownify env html) as [md|e] eqn:Hmd; [|done]. cbn [bind].
  destruct (netloc env link) as [sd|e] eqn:Hn; [|done]. cbn [bind].
  destruct (py_int env ts) as [z|e] eqn:Hz; [|done]. cbn [bind].
  destruct (truthy link && truthy t && truthy (PStr (tidy md))
            && truthy (PStr sd) && truthy (PInt z)) eqn:Hall; [|done].
  intros [= <- <- <- <- <-].
  repeat (apply andb_true_iff in Hall as [Hall ?]).
  split; [done|]. split; [done|]. split; [by eexists _; split; [|eexists]|].
  do 4 (split; [done|]). cbn [truthy] in *.
  repeat split.
  - intros E. rewrite E in *. done.
  - intros E. rewrite E in *. done.
  - intros E. rewrite E in *. done.
Qed.

(** X14. [normalize_article] answers with an article or with a message,
    never with both or with neither.  An article has the twelve keys of
    the standard format, in their order; its URL is the ["link"] of the
    post, and its URL, title, text, source domain and first-seen
    timestamp are all truthy: the text and the domain are not empty and
    the timestamp is not 0.  Its author is [None] and its keywords are
    the empty list. *)
Theorem normalize_article_result article collection_timestamp data err :
  normalize_article env article collection_timestamp = Ok (data, err) ->
  data = None /\ is_Some err
  \/ err = None
     /\ exists fields url title text domain seen,
          data = Some (PDict fields)
          /\ map fst fields
             = ["url"; "title"; "article_text"; "source_domain";
                "first_seen_timestamp_gmt"; "publication_date";
                "publication_timestamp_gmt"; "author"; "keywords";
                "image_url"; "excerpt"; "metadata"]
          /\ dict_lookup "link" article = Some url
          /\ dict_lookup "url" fields = Some url /\ truthy url = true
          /\ dict_lookup "title" fields = Some title /\ truthy title = true
          /\ dict_lookup "article_text" fields = Some (PStr text) /\ text <> ""
          /\ dict_lookup "source_domain" fields = Some (PStr domain)
          /\ domain <> "" /\ netloc env url = Ok domain
          /\ dict_lookup "first_seen_timestamp_gmt" fields = Some (PInt seen)
          /\ seen <> 0 /\ py_int env collection_timestamp = Ok seen
          /\ dict_lookup "author" fields = Some PNone
          /\ dict_lookup "keywords" fields = Some (PList []).
Proof.
  unfold normalize_article.
  destruct (required_fields env article _ collection_timestamp)
    as [[[[[[url title] text] domain] seen]|msg]|e] eqn:Hr.
  - apply required_fields_ok in Hr
      as (H1 & H2 & H3 & H4 & H5 & H6 & H7 & H8 & H9 & H10).
    destruct (publication_date_of article) as [pd|e]; [|done]. cbn [bind].
    destruct (match pd with Some d => _ | None => _ end) as [pt|e]; [|done].
    cbn [bind].
    destruct (image_url_of article) as [img|e]; [|done]. cbn [bind].
    destruct (excerpt_of env article) as [ex|e]; [|done]. cbn [bind].
    intros [= <- <-]. right. split; [done|].
    eexists _, url, title, text, domain, seen. split; [reflexivity|].
    by repeat split.
  - intros [= <- <-]. left. by split.
  - destruct (exn_is e "KeyError" || exn_is e "TypeError"); [|done].
    intros [= <- <-]. left. by split.
Qed.

End Article.

Lemma normalize_article_result_witness :
  exists fields,
    normalize_article ref_normalize
      [("link", PStr "https://a.com/p"); ("title", PStr "T");
       ("content", PStr "text")] (PStr "1704240000")
    = Ok (Some (PDict fields), None)
    /\ dict_lookup "source_domain" fields = Some (PStr "a.com").
Proof.
  destruct (normalize_article ref_normalize
              [("link", PStr "https://a.com/p"); ("title", PStr "T");
               ("content", PStr "text")] (PStr "1704240000"))
    as [[data err]|e] eqn:H; [|vm_compute in H; discriminate].
  destruct (normalize_article_result _ _ _ _ _ H)
    as [[-> _]|(-> & fields & url & title & text & domain & seen & -> & _ & Hl
                & _ & _ & _ & _ & _ & _ & Hd & _ & Hn & _)].
  - vm_compute in H. discriminate.
  - exists fields. split; [done|]. rewrite Hd. f_equal. f_equal.
    injection Hl as <-. vm_compute in Hn. by injection Hn as <-.
Defined.

Section ArticleFields.

Variable env : normalize_env.

Lemma rendered_plain v : (forall d, v <> PDict d) -> rendered v = Ok v.
Proof. intros H. destruct v; try done. by destruct (H d). Qed.

Lemma rendered_object v : rendered (PDict [("rendered", v)]) = Ok v.
Proof. reflexivity. Qed.

(** X15. The title, the content and the excerpt of a post may be given
    as a plain value instead of an object with the key ["rendered"]:
    [normalize_article] gives the same answer for a post with the plain
    value [v] (which is not an object) under one of these keys and for
    the post with [{"rendered": v}] in its place. *)
Theorem rendered_or_plain article collection_timestamp key v :
  key = "title" \/ key = "content" \/ key = "excerpt" ->
  (forall d, v <> PDict d) ->
  normalize_article env (dict_set key v article) collection_timestamp
  = normalize_article env (dict_set key (PDict [("rendered", v)]) article)
      collection_timestamp.
Proof.
  intros Hkey Hv.
  unfold normalize_article, required_fields, publication_date_of,
    image_url_of, excerpt_of. cbn [py_getitem_str].
  rewrite !dict_lookup_set.
  destruct Hkey as [->|[->| ->]];
    repeat (rewrite decide_False by done);
    repeat (rewrite decide_True by done);
    cbn [default]; rewrite ?rendered_object, ?(rendered_plain v Hv);
    try reflexivity.
  all: destruct v; try reflexivity; try by destruct (Hv d).
Qed.

(** X16. A post with a link whose title, or whose content when the
    title is there, is missing or is an object without ["rendered"],
    is refused with a message that names the post by its link and the
    [KeyError] of the key ['rendered']; no exception leaves
    [normalize_article]. *)
Theorem normalize_article_missing_rendered article collection_timestamp link :
  dict_lookup "link" article = Some link ->
  (exists d, default (PDict []) (dict_lookup "title" article) = PDict d
             /\ dict_lookup "rendered" d = None)
  \/ (exists title d,
        rendered (default (PDict []) (dict_lookup "title" article)) = Ok title
        /\ default (PDict []) (dict_lookup "content" article) = PDict d
        /\ dict_lookup "rendered" d = None) ->
  normalize_article env article collection_timestamp
  = Ok (None,
        Some ("Error processing required fields for article "
              +:+ py_str env link +:+ ": KeyError - 'rendered'")).
Proof.
  intros Hl H. unfold normalize_article, required_fields.
  cbn [py_getitem_str]. rewrite Hl. cbn [bind default].
  destruct H as [(d & -> & Hd)|(title & d & -> & -> & Hd)];
    cbn [rendered py_getitem_str bind]; by rewrite Hd.
Qed.

(** X17. In a normalised article, [publication_date] is the
    ["date_gmt"] of the post followed by ["Z"] and
    [publication_timestamp_gmt] is its timestamp, or [None] when the
    date cannot be parsed; both are [None] when the post has no
    ["date_gmt"] or a falsy one. *)
Theorem publication_fields article collection_timestamp fields :
  normalize_article env article collection_timestamp
  = Ok (Some (PDict fields), None) ->
  let date_gmt := default PNone (dict_lookup "date_gmt" article) in
  if truthy date_gmt then
    exists d,
      date_gmt = PStr d
      /\ dict_lookup "publication_date" fields = Some (PStr (d +:+ "Z"))
      /\ dict_lookup "publication_timestamp_gmt" fields
         = Some (match date_timestamp env (d +:+ "Z") with
                 | Ok t => PInt t
                 | Raise _ => PNone
                 end)
  else
    dict_lookup "publication_date" fields = Some PNone
    /\ dict_lookup "publication_timestamp_gmt" fields = Some PNone.
Proof.
  unfold normalize_article, publication_date_of.
  destruct (required_fields env article _ collection_timestamp)
    as [[[[[[url title] text] domain] seen]|msg]|e]; [|done|].
  2:{ by destruct (exn_is e "KeyError" || exn_is e "TypeError"). }
  cbv zeta.
  destruct (truthy (default PNone (dict_lookup "date_gmt" article))) eqn:Ht.
  - destruct (default PNone (dict_lookup "date_gmt" article))
      as [| | | |d| |]; try done. cbn [bind].
    destruct (date_timestamp env (d +:+ "Z")) as [t|e] eqn:Hd.
    + cbn [bind].
      destruct (image_url_of article) as [img|e]; [|done]. cbn [bind].
      destruct (excerpt_of env article) as [ex|e]; [|done]. cbn [bind].
      intros [= <-]. exists d. rewrite ?Hd. split; [done|]. split; reflexivity.
    + destruct (exn_is e "ValueError" || exn_is e "TypeError"); [|done].
      cbn [bind].
      destruct (image_url_of article) as [img|e']; [|done]. cbn [bind].
      destruct (excerpt_of env article) as [ex|e']; [|done]. cbn [bind].
      intros [= <-]. exists d. rewrite ?Hd. split; [done|]. split; reflexivity.
  - cbn [bind].
    destruct (image_url_of article) as [img|e]; [|done]. cbn [bind].
    destruct (excerpt_of env article) as [ex|e]; [|done]. cbn [bind].
    intros [= <-]. split; reflexivity.
Qed.

End ArticleFields.

Lemma rendered_or_plain_witness :
  normalize_article ref_normalize
    (dict_set "title" (PStr "T") post_dated) (PStr "1704240000")
  = normalize_article ref_normalize
      (dict_set "title" (PDict [("rendered", PStr "T")]) post_dated)
      (PStr "1704240000").
Proof.
  apply (rendered_or_plain ref_normalize post_dated (PStr "1704240000")
           "title" (PStr "T")).
  - by left.
  - discriminate.
Defined.

(** A post without title. *)
Lemma normalize_article_missing_rendered_witness :
  normalize_article ref_normalize
    [("id", PInt 3); ("link", PStr "https://a.com/p3");
     ("content", PStr "text")] (PStr "1704240000")
  = Ok (None,
        Some ("Error processing required fields for article https://a.com/p3"
              +:+ ": KeyError - 'rendered'")).
Proof.
  apply (normalize_article_missing_rendered ref_normalize
           [("id", PInt 3); ("link", PStr "https://a.com/p3");
            ("content", PStr "text")] (PStr "1704240000")
           (PStr "https://a.com/p3")).
  - reflexivity.
  - left. by exists [].
Defined.

Lemma publication_fields_witness :
  exists fields,
    normalize_article ref_normalize post_dated (PStr "1704240000")
    = Ok (Some (PDict fields), None)
    /\ dict_lookup "publication_date" fields
       = Some (PStr "2024-01-02T03:04:05Z")
    /\ dict_lookup "publication_timestamp_gmt" fields = Some PNone.
Proof.
  destruct (normalize_article ref_normalize post_dated (PStr "1704240000"))
    as [[[[| | | | | |fields]|] [msg|]]|e] eqn:H;
    try (vm_compute in H; discriminate).
  exists fields. split; [done|].
  pose proof (publication_fields ref_normalize post_dated (PStr "1704240000")
                fields H) as Hp.
  cbv zeta in Hp. change (truthy _) with true in Hp. cbv iota in Hp.
  destruct Hp as (d & [= <-] & Hd & Ht). split; [exact Hd|exact Ht].
Defined.

(** X18. In a completed batch of the normaliser, every raw file that
    does not hold a list is counted as an error and named in
    [errors_list].  The file of the site notes that the collector
    leaves in the directory of a run is such a file: it holds an
    object. *)
Theorem bad_raw_file_reported env listing output_dir out st out' summary
  name text :
  process_collection_directory env (Some listing) output_dir out
  = Ok (Normalized st out' summary) ->
  (name, text) ∈ listing ->
  is_raw_file name = true ->
  (forall articles, load_json env text <> Some (PList articles)) ->
  ("Error decoding JSON or file is not a list of articles: " +:+ name)
  ∈ errors_list st
  /\ 1 <= errors st.
Proof.
  intros H Hin Hraw Hbad.
  assert (Hmsg : ("Error decoding JSON or file is not a list of articles: "
                  +:+ name) ∈ errors_list st).
  { unfold process_collection_directory in H.
    destruct (list_find _ listing) as [[i [name' text']]|]; [|done].
    destruct (load_json env text') as [collection_summary|]; [|done].
    destruct (py_getitem_str collection_summary "collection_timestamp")
      as [ts|e]; simpl in H; [|done].
    destruct (process_files env output_dir ts listing _) as [[st1 out1]|e] eqn:Hp;
      simpl in H; [|done].
    injection H as <- _ _.
    by apply (process_files_bad_file env output_dir ts listing name text _ _ Hp). }
  split; [done|].
  apply normalized_batch in H as [(_ & _ & H3 & _) _]. simpl in H3.
  destruct (errors_list st); [by apply elem_of_nil in Hmsg|]. simpl in H3. lia.
Qed.

Lemma bad_raw_file_reported_witness :
  exists st out' summary,
    process_collection_directory ref_normalize (Some noted_listing) "out" ∅
    = Ok (Normalized st out' summary)
    /\ 1 <= errors st /\ notes_path (const_env (Ok "[]"))
       = "wordpress_posts/2024-01-03/1704240000/wordpress-site-notes.json".
Proof.
  destruct (process_collection_directory ref_normalize (Some noted_listing)
              "out" ∅)
    as [[| |st out' summary]|e] eqn:H1;
    try (vm_compute in H1; discriminate).
  exists st, out', summary. split; [done|]. split; [|reflexivity].
  apply (bad_raw_file_reported ref_normalize noted_listing "out" ∅ st out'
           summary "wordpress-site-notes.json"
           (dq "{'b.com': {'articles_found': 0}}") H1).
  - by left.
  - reflexivity.
  - intros articles. vm_compute. discriminate.
Defined.

(** * The cleanup of the text *)

Section Tidy.

Local Open Scope nat_scope.

Implicit Types (s t : list ascii).

Lemma has_blank_line_tail c s :
  has_blank_line (c :: s) = false -> has_blank_line s = false.
Proof.
  simpl. destruct s as [|b s]; [done|]. by intros [_ ?]%orb_false_iff.
Qed.

Lemma has_blank_line_suffix p s :
  has_blank_line (p ++ s) = false -> has_blank_line s = false.
Proof.
  induction p as [|c p IH]; [done|]. intros H. apply IH.
  by apply (has_blank_line_tail c).
Qed.

(** [\n{2,}] needs two newlines. *)
Lemma rep_newlines_none k : forall fuel bol s,
  has_blank_line s = false ->
  Re.rep (Re.m (Re.Chr newline)) k fuel 2 bol s = None.
Proof.
  intros fuel bol s H. destruct fuel as [|fuel]; [done|].
  cbn [Re.rep]. destruct s as [|a s]; [done|].
  cbn [Re.m]. destruct (Ascii.eqb a newline) eqn:Ea; [|done].
  destruct (length s <? length (a :: s)); [|done]. cbn [pred].
  destruct fuel as [|fuel]; [done|]. cbn [Re.rep].
  destruct s as [|b s]; [done|]. cbn [Re.m].
  destruct (Ascii.eqb b newline) eqn:Eb; [|done].
  simpl in H. unfold is_newline in H. by rewrite Ea, Eb in H.
Qed.

Lemma rep_spaces_none k : forall fuel bol s,
  (forall b t, has_blank_line t = false -> k b t = None) ->
  has_blank_line s = false ->
  Re.rep (Re.m Re.Space) k fuel 0 bol s = None.
Proof.
  induction fuel as [|fuel IH]; intros bol s Hk H; cbn [Re.rep].
  - by apply Hk.
  - destruct s as [|a s]; cbn [Re.m]; [by apply Hk|].
    destruct (is_space a); [|by apply Hk].
    destruct (length s <? length (a :: s)); [|by apply Hk]. cbn [pred].
    rewrite IH; [by apply Hk|done|]. by apply (has_blank_line_tail a).
Qed.

Lemma match_blank_lines_none bol s :
  has_blank_line s = false -> Re.match_at blank_lines bol s = None.
Proof.
  intros H. unfold Re.match_at, blank_lines, Re.Star.
  rewrite m_seq, m_rep. apply rep_spaces_none; [|done].
  intros b t Ht. rewrite m_seq, m_rep. by apply rep_newlines_none.
Qed.

Lemma sub_blank_lines_quiet repl s :
  has_blank_line s = false -> Re.sub blank_lines repl s = s.
Proof.
  intros H. unfold Re.sub. rewrite <- (app_nil_r s) at 1.
  rewrite sub_from_quiet.
  - rewrite sub_from_end; [by rewrite app_nil_r|].
    by apply match_blank_lines_none.
  - intros p1 p2 -> _. rewrite app_nil_r. apply match_blank_lines_none.
    by apply (has_blank_line_suffix p1).
Qed.

End Tidy.

(** X19. The cleaned text has no whitespace at its start or at its
    end, and cleaning a text in which no two newlines follow each other
    only removes the whitespace around it. *)
Theorem tidy_trimmed text :
  str_strip (tidy text) = tidy text
  /\ match chars (tidy text) with c :: _ => is_space c = false | [] => True end
  /\ match rev (chars (tidy text)) with
     | c :: _ => is_space c = false
     | [] => True
     end
  /\ (has_blank_line (chars text) = false -> tidy text = str_strip text).
Proof.
  unfold tidy, str_strip. rewrite !chars_str_of. split; [by rewrite strip_idem|].
  split; [apply strip_first|]. split; [apply strip_last|].
  intros H. by rewrite sub_blank_lines_quiet.
Qed.

Lemma tidy_trimmed_witness :
  tidy "  one line  " = "one line".
Proof.
  destruct (tidy_trimmed "  one line  ") as (_ & _ & _ & H).
  rewrite H; reflexivity.
Defined.

(** * A run without domains *)

(** X20. A domains file that names no domain (it is empty, or holds only
    blank lines and comments) gives a run that makes no request and
    writes one file: the summary, with an empty list of results. *)
Theorem collect_nothing_listed env hours_ago debug_mode lines :
  read_domains lines = [] ->
  exists r,
    collect_wordpress_posts env hours_ago debug_mode (Some lines)
    = Some (Ok (Collected r))
    /\ report_summary r
       = PDict [("collection_timestamp", PStr (timestamp_str env));
                ("collection_date", PStr (date_str env));
                ("hours_ago", PInt hours_ago);
                ("results", PList [])]
    /\ report_log r = [Write (summary_path env) (FJson (report_summary r))]
    /\ urls (report_state r) = []
    /\ report_test_urls r = [] /\ report_site_notes r = [].
Proof.
  intros H. unfold collect_wordpress_posts. rewrite H.
  eexists. split; [reflexivity|]. by repeat split.
Qed.

Lemma collect_nothing_listed_witness :
  exists r,
    collect_wordpress_posts (const_env (Ok "[]")) 48 false
      (Some ["# sites"; ""; "   "])
    = Some (Ok (Collected r))
    /\ length (report_log r) = 1%nat.
Proof.
  destruct (collect_nothing_listed (const_env (Ok "[]")) 48 false
              ["# sites"; ""; "   "]) as (r & Hr & _ & Hl & _).
  - reflexivity.
  - exists r. split; [exact Hr|]. by rewrite Hl.
Defined.

(** * Paragraph breaks *)

Section Breaks.

Local Open Scope nat_scope.

Implicit Types (s t w v : list ascii).

Lemma is_newline_space c : is_newline c = true -> is_space c = true.
Proof. intros H. apply Ascii.eqb_eq in H. by subst c. Qed.

Lemma solid_not_newline c : is_space c = false -> is_newline c = false.
Proof.
  intros H. destruct (is_newline c) eqn:E; [|done].
  apply is_newline_space in E. congruence.
Qed.

Lemma span_space_app s : s = (span_space s).1 ++ (span_space s).2.
Proof.
  induction s as [|c s IH]; [done|]. cbn [span_space].
  destruct (is_space c); [|done]. cbn [fst snd app]. by f_equal.
Qed.

Lemma span_space_spaces s : forallb is_space (span_space s).1 = true.
Proof.
  induction s as [|c s IH]; [done|]. cbn [span_space].
  destruct (is_space c) eqn:E; [|done]. cbn [fst forallb]. by rewrite E.
Qed.

Lemma span_space_rest s : starts_solid (span_space s).2.
Proof.
  induction s as [|c s IH]; [done|]. cbn [span_space].
  destruct (is_space c) eqn:E; [done|]. exact E.
Qed.

Lemma span_space_of w t :
  forallb is_space w = true -> starts_solid t -> span_space (w ++ t) = (w, t).
Proof.
  intros Hw Ht. induction w as [|c w IH]; cbn [app span_space].
  - destruct t as [|c t]; [done|]. cbn [span_space]. simpl in Ht. by rewrite Ht.
  - cbn [forallb] in Hw. apply andb_true_iff in Hw as [Hc Hw]. rewrite Hc.
    by rewrite (IH Hw).
Qed.

Lemma has_blank_line_cons c w :
  has_blank_line (c :: w) = leading_newlines 2 (c :: w) || has_blank_line w.
Proof. destruct w as [|b w]; simpl; [by rewrite andb_false_r|by rewrite andb_true_r]. Qed.

(** [\s*] at the end of the pattern takes all the whitespace. *)
Lemma rep_spaces_accept w : forall fuel b t,
  forallb is_space w = true -> starts_solid t -> length w <= fuel ->
  Re.rep (Re.m Re.Space) accept fuel 0 b (w ++ t) = Some t.
Proof.
  induction w as [|x w IH]; intros fuel b t Hw Ht Hlen.
  - cbn [app]. destruct fuel as [|fuel]; [done|]. cbn [Re.rep].
    destruct t as [|c t]; [done|]. cbn [Re.m]. simpl in Ht. by rewrite Ht.
  - destruct fuel as [|fuel]; [simpl in Hlen; lia|].
    simpl in Hw. apply andb_true_iff in Hw as [Hx Hw].
    cbn [Re.rep app Re.m]. rewrite Hx.
    rewrite (proj2 (Nat.ltb_lt _ _)) by (simpl; lia).
    cbn [pred]. rewrite IH; [done|done|done|simpl in Hlen; lia].
Qed.

Lemma star_space_accept w b t :
  forallb is_space w = true -> starts_solid t ->
  Re.m (Re.Star Re.Space) b (w ++ t) accept = Some t.
Proof.
  intros Hw Ht. unfold Re.Star. rewrite m_rep.
  apply rep_spaces_accept; [done|done|]. rewrite length_app. lia.
Qed.

(** [\n{n,}\s*] on whitespace that starts with [n] newlines. *)
Lemma rep_newlines_accept v : forall fuel n b t,
  forallb is_space v = true -> starts_solid t -> length v <= fuel ->
  leading_newlines n v = true ->
  Re.rep (Re.m (Re.Chr newline))
    (fun b2 s2 => Re.m (Re.Star Re.Space) b2 s2 accept) fuel n b (v ++ t)
  = Some t.
Proof.
  induction v as [|x v IH]; intros fuel n b t Hv Ht Hlen Hn.
  - destruct n as [|n]; [|done]. cbn [app].
    assert (Hstop : Re.m (Re.Star Re.Space) b t accept = Some t)
      by apply (star_space_accept [] b t eq_refl Ht).
    destruct fuel as [|fuel]; cbn [Re.rep]; [done|].
    destruct t as [|c t]; [done|]. cbn [Re.m].
    simpl in Ht. apply solid_not_newline in Ht. unfold is_newline in Ht.
    by rewrite Ht.
  - destruct fuel as [|fuel]; [simpl in Hlen; lia|].
    pose proof Hv as Hv'. simpl in Hv'. apply andb_true_iff in Hv' as [Hx Hv'].
    cbn [Re.rep app Re.m].
    destruct (Ascii.eqb x newline) eqn:Ex.
    + rewrite (proj2 (Nat.ltb_lt _ _)) by (simpl; lia).
      rewrite IH; [done|done|done|simpl in Hlen; lia|].
      destruct n as [|n]; [done|]. simpl in Hn.
      by apply andb_true_iff in Hn as [_ ?].
    + destruct n as [|n].
      * apply (star_space_accept (x :: v) b t Hv Ht).
      * simpl in Hn. unfold is_newline in Hn. by rewrite Ex in Hn.
Qed.

Lemma rep_newlines_fail k : forall fuel bol s,
  leading_newlines 2 s = false ->
  Re.rep (Re.m (Re.Chr newline)) k fuel 2 bol s = None.
Proof.
  intros fuel bol s H. destruct fuel as [|fuel]; [done|].
  cbn [Re.rep]. destruct s as [|a s]; [done|].
  cbn [Re.m]. destruct (Ascii.eqb a newline) eqn:Ea; [|done].
  destruct (length s <? length (a :: s)); [|done]. cbn [pred].
  destruct fuel as [|fuel]; [done|]. cbn [Re.rep].
  destruct s as [|b s]; [done|]. cbn [Re.m].
  destruct (Ascii.eqb b newline) eqn:Eb; [|done].
  simpl in H. unfold is_newline in H. by rewrite Ea, Eb in H.
Qed.

(** What follows [\s*] in the pattern. *)
Lemma breaks_tail b v t :
  forallb is_space v = true -> starts_solid t ->
  Re.m (Re.Seq (Re.Rep (Re.Chr newline) 2) (Re.Star Re.Space)) b (v ++ t) accept
  = if leading_newlines 2 v then Some t else None.
Proof.
  intros Hv Ht. rewrite m_seq, m_rep.
  destruct (leading_newlines 2 v) eqn:E.
  - apply rep_newlines_accept; [done|done| |done]. rewrite length_app. lia.
  - apply rep_newlines_fail.
    destruct v as [|x [|y v]]; simpl in *.
    + destruct t as [|c [|d t]]; simpl; try done; simpl in Ht;
        apply solid_not_newline in Ht; by rewrite Ht.
    + destruct t as [|c t]; simpl; [by rewrite andb_false_r|].
      simpl in Ht. apply solid_not_newline in Ht.
      by rewrite Ht, andb_false_r.
    + exact E.
Qed.

Lemma rep_spaces_blank w : forall fuel b t,
  forallb is_space w = true -> starts_solid t -> length w <= fuel ->
  Re.rep (Re.m Re.Space)
    (fun b' s' =>
       Re.m (Re.Seq (Re.Rep (Re.Chr newline) 2) (Re.Star Re.Space)) b' s' accept)
    fuel 0 b (w ++ t)
  = if has_blank_line w then Some t else None.
Proof.
  induction w as [|x w IH]; intros fuel b t Hw Ht Hlen.
  - cbn [app has_blank_line].
    pose proof (breaks_tail b [] t eq_refl Ht) as Hstop. cbn [app] in Hstop.
    change (leading_newlines 2 []) with false in Hstop. cbv iota in Hstop.
    destruct fuel as [|fuel]; cbn [Re.rep]; [done|].
    destruct t as [|c t]; [done|]. cbn [Re.m]. simpl in Ht. by rewrite Ht.
  - destruct fuel as [|fuel]; [simpl in Hlen; lia|].
    pose proof Hw as Hw'. simpl in Hw'. apply andb_true_iff in Hw' as [Hx Hw'].
    cbn [Re.rep app Re.m]. rewrite Hx.
    rewrite (proj2 (Nat.ltb_lt _ _)) by (simpl; lia).
    cbn [pred]. rewrite IH; [|done|done|simpl in Hlen; lia].
    rewrite has_blank_line_cons.
    destruct (has_blank_line w); [by rewrite orb_true_r|].
    rewrite orb_false_r.
    apply (breaks_tail b (x :: w) t Hw Ht).
Qed.

Lemma match_blank_lines bol s :
  Re.match_at blank_lines bol s
  = if has_blank_line (span_space s).1 then Some (span_space s).2 else None.
Proof.
  unfold Re.match_at, blank_lines, Re.Star. rewrite m_seq, m_rep.
  pose proof (span_space_app s) as Hs.
  pose proof (span_space_spaces s) as Hw.
  pose proof (span_space_rest s) as Ht.
  destruct (span_space s) as [w t]. cbn [fst snd] in *. subst s.
  apply rep_spaces_blank; [done|done|]. rewrite length_app. lia.
Qed.

Lemma has_blank_line_spaces_suffix p w :
  has_blank_line (p ++ w) = false -> has_blank_line w = false.
Proof.
  induction p as [|c p IH]; [done|]. intros H. apply IH.
  change ((c :: p) ++ w) with (c :: (p ++ w)) in H.
  rewrite has_blank_line_cons in H. by apply orb_false_iff in H as [_ ?].
Qed.

(** The substitution over the whitespace a text starts with. *)
Lemma sub_blank_block repl w t bol :
  forallb is_space w = true -> starts_solid t ->
  Re.sub_from blank_lines repl bol 0 (w ++ t)
  = (if has_blank_line w then repl else w)
    ++ Re.sub_from blank_lines repl (bol_after bol w) 0 t.
Proof.
  intros Hw Ht. destruct (has_blank_line w) eqn:Hb.
  - apply sub_from_match; [by destruct w|].
    rewrite match_blank_lines, (span_space_of w t Hw Ht). cbn [fst snd].
    by rewrite Hb.
  - apply sub_from_quiet. intros p1 p2 -> Hp2.
    rewrite forallb_app in Hw. apply andb_true_iff in Hw as [_ Hw].
    rewrite match_blank_lines, (span_space_of p2 t Hw Ht). cbn [fst snd].
    by rewrite (has_blank_line_spaces_suffix p1 p2 Hb).
Qed.

Lemma sub_blank_solid repl c t bol :
  is_space c = false ->
  Re.sub_from blank_lines repl bol 0 (c :: t)
  = c :: Re.sub_from blank_lines repl (is_newline c) 0 t.
Proof.
  intros Hc. cbn [Re.sub_from]. rewrite match_blank_lines.
  cbn [span_space]. by rewrite Hc.
Qed.

Lemma sub_blank_end repl bol : Re.sub_from blank_lines repl bol 0 [] = [].
Proof. apply sub_from_end. by rewrite match_blank_lines. Qed.

Lemma has_long_break_short s : length s <= 2 -> has_long_break s = false.
Proof. destruct s as [|a [|b [|c s]]]; simpl; try done. lia. Qed.

Lemma has_long_break_cons x s :
  has_long_break (x :: s) = leading_newlines 3 (x :: s) || has_long_break s.
Proof.
  destruct s as [|b [|c s]]; cbn [has_long_break leading_newlines];
    rewrite ?andb_false_r, ?andb_true_r; try done.
  by rewrite andb_assoc.
Qed.

Lemma has_long_break_solid c s :
  is_newline c = false -> has_long_break (c :: s) = has_long_break s.
Proof.
  intros Hc. rewrite has_long_break_cons. cbn [leading_newlines]. by rewrite Hc.
Qed.

Lemma leading_newlines_app n a : forall c b,
  is_newline c = false ->
  leading_newlines n (a ++ c :: b) = leading_newlines n a.
Proof.
  revert n. induction a as [|x a IH]; intros n c b Hc.
  - destruct n as [|n]; [done|]. cbn [app leading_newlines]. by rewrite Hc.
  - destruct n as [|n]; [done|]. cbn [app leading_newlines]. by rewrite IH.
Qed.

(** A character that is no newline separates the breaks. *)
Lemma has_long_break_app a c b :
  is_newline c = false ->
  has_long_break (a ++ c :: b) = has_long_break a || has_long_break b.
Proof.
  intros Hc. induction a as [|x a IH].
  - cbn [app]. by rewrite has_long_break_solid.
  - change ((x :: a) ++ c :: b) with (x :: (a ++ c :: b)).
    rewrite !has_long_break_cons, IH.
    change (x :: (a ++ c :: b)) with ((x :: a) ++ c :: b).
    by rewrite leading_newlines_app, orb_assoc.
Qed.

Lemma blank_line_free_break w :
  has_blank_line w = false -> has_long_break w = false.
Proof.
  induction w as [|x w IH]; [done|].
  rewrite has_blank_line_cons, has_long_break_cons.
  intros [H1 H2]%orb_false_iff. rewrite (IH H2), orb_false_r.
  destruct w as [|y w]; cbn [leading_newlines] in *;
    [by rewrite andb_false_r|].
  rewrite andb_true_r in H1.
  destruct (is_newline x); [|done]. cbn [andb] in *. by rewrite H1.
Qed.

Lemma sub_blank_no_long_break : forall n s bol,
  length s <= n ->
  has_long_break (Re.sub_from blank_lines [newline; newline] bol 0 s) = false.
Proof.
  induction n as [|n IH]; intros s bol Hlen.
  - destruct s; [|simpl in Hlen; lia]. by rewrite sub_blank_end.
  - pose proof (span_space_app s) as Hs.
    pose proof (span_space_spaces s) as Hw.
    pose proof (span_space_rest s) as Ht.
    destruct (span_space s) as [w t]. cbn [fst snd] in *. subst s.
    rewrite sub_blank_block by done.
    assert (Hpre : has_long_break
                     (if has_blank_line w then [newline; newline] else w)
                   = false).
    { destruct (has_blank_line w) eqn:Hb; [done|].
      by apply blank_line_free_break. }
    destruct t as [|c t].
    + by rewrite sub_blank_end, app_nil_r.
    + simpl in Ht. rewrite sub_blank_solid by done.
      rewrite has_long_break_app by (by apply solid_not_newline).
      rewrite Hpre, IH; [done|].
      rewrite length_app in Hlen. simpl in Hlen. lia.
Qed.

Lemma has_long_break_suffix p s :
  has_long_break (p ++ s) = false -> has_long_break s = false.
Proof.
  induction p as [|x p IH]; [done|]. intros H. apply IH.
  change ((x :: p) ++ s) with (x :: (p ++ s)) in H.
  rewrite has_long_break_cons in H. by apply orb_false_iff in H as [_ ?].
Qed.

Lemma leading_newlines_prefix n s : forall q,
  leading_newlines n s = true -> leading_newlines n (s ++ q) = true.
Proof.
  revert n. induction s as [|x s IH]; intros n q.
  - by destruct n.
  - destruct n as [|n]; [done|]. cbn [app leading_newlines].
    intros [H1 H2]%andb_true_iff. by rewrite H1, IH.
Qed.

Lemma has_long_break_prefix s q :
  has_long_break (s ++ q) = false -> has_long_break s = false.
Proof.
  induction s as [|x s IH]; [done|].
  change ((x :: s) ++ q) with (x :: (s ++ q)).
  rewrite !has_long_break_cons. intros [H1 H2]%orb_false_iff.
  rewrite (IH H2), orb_false_r.
  destruct (leading_newlines 3 (x :: s)) eqn:E; [|done].
  apply (leading_newlines_prefix 3 (x :: s) q) in E.
  change ((x :: s) ++ q) with (x :: (s ++ q)) in E. congruence.
Qed.

Lemma lstrip_suffix s : exists p, s = p ++ lstrip s.
Proof.
  induction s as [|c s [p IH]]; [by exists []|]. simpl.
  destruct (is_space c); [|by exists []].
  exists (c :: p). simpl. by f_equal.
Qed.

Lemma rstrip_prefix s : exists q, s = rstrip s ++ q.
Proof.
  unfold rstrip. destruct (lstrip_suffix (rev s)) as [p Hp].
  exists (rev p). rewrite <- rev_app_distr, <- Hp. by rewrite rev_involutive.
Qed.

Lemma strip_no_long_break s :
  has_long_break s = false -> has_long_break (strip s) = false.
Proof.
  intros H. unfold strip.
  destruct (lstrip_suffix s) as [p Hp]. rewrite Hp in H.
  apply has_long_break_suffix in H.
  destruct (rstrip_prefix (lstrip s)) as [q Hq]. rewrite Hq in H.
  by apply has_long_break_prefix in H.
Qed.

End Breaks.

(** X21. The cleaned text never has three newlines in a row: every
    run of whitespace that holds a blank line has been replaced by
    exactly two newlines. *)
Theorem tidy_paragraph_breaks text :
  has_long_break (chars (tidy text)) = false.
Proof.
  unfold tidy. rewrite chars_str_of. apply strip_no_long_break.
  unfold Re.sub. by apply (sub_blank_no_long_break (length (chars text))).
Qed.

(** * The optional fields of an article *)

(** X22. In a normalised article, [image_url] is the ["href"] of the
    first featured-media link of the post, and [None] when the post has
    no ["_links"], no ["wp:featuredmedia"] among them, or no ["href"]
    in the first one; [excerpt] is the cleaned Markdown of the excerpt
    of the post, and the empty string when the post has none or a
    falsy one; the metadata hold the ["id"] and the ["type"] of the
    post, [None] where the post has none. *)
Theorem optional_fields env article collection_timestamp fields :
  normalize_article env article collection_timestamp
  = Ok (Some (PDict fields), None) ->
  (exists image_url,
     dict_lookup "image_url" fields = Some image_url
     /\ (dict_lookup "_links" article = None -> image_url = PNone)
     /\ (forall links,
           dict_lookup "_links" article = Some (PDict links) ->
           match dict_lookup "wp:featuredmedia" links with
           | None => image_url = PNone
           | Some media =>
               exists first rest,
                 media = PList (PDict first :: rest)
                 /\ image_url = default PNone (dict_lookup "href" first)
           end))
  /\ (exists excerpt,
        dict_lookup "excerpt" fields = Some (PStr excerpt)
        /\ let excerpt_obj :=
             default (PDict []) (dict_lookup "excerpt" article) in
           let raw :=
             match excerpt_obj with
             | PDict d => default PNone (dict_lookup "rendered" d)
             | _ => excerpt_obj
             end in
           if truthy raw
           then exists md, markdownify env raw = Ok md /\ excerpt = tidy md
           else excerpt = "")
  /\ dict_lookup "metadata" fields
     = Some (PDict [("wp_post_id", default PNone (dict_lookup "id" article));
                    ("wp_post_type",
                     default PNone (dict_lookup "type" article))]).
Proof.
  unfold normalize_article.
  destruct (required_fields env article _ collection_timestamp)
    as [[[[[[url title] text] domain] seen]|msg]|e]; [|done|].
  2:{ by destruct (exn_is e "KeyError" || exn_is e "TypeError"). }
  destruct (publication_date_of article) as [pd|e]; [|done]. cbn [bind].
  destruct (match pd with Some d => _ | None => _ end) as [pt|e]; [|done].
  cbn [bind].
  destruct (image_url_of article) as [img|e] eqn:Himg; [|done]. cbn [bind].
  destruct (excerpt_of env article) as [ex|e] eqn:Hex; [|done]. cbn [bind].
  intros [= <-]. split; [|split; [|reflexivity]].
  - exists img. split; [reflexivity|]. unfold image_url_of in Himg. split.
    + intros Hn. rewrite Hn in Himg. cbn in Himg. by injection Himg as <-.
    + intros links Hl. rewrite Hl in Himg.
      cbn [default from_option id py_get bind] in Himg.
      destruct (dict_lookup "wp:featuredmedia" links) as [media|];
        cbn [default from_option id bind] in Himg.
      * destruct media as [|b|z|f|str|[|first rest]|d]; try done;
          try by destruct str.
        cbn [py_getitem_0 bind] in Himg.
        destruct first as [| | | | | |first]; try done.
        cbn [py_get] in Himg. injection Himg as <-. by exists first, rest.
      * cbn [py_getitem_0 bind py_get dict_lookup default from_option id] in Himg.
        by injection Himg as <-.
  - exists ex. split; [reflexivity|]. unfold excerpt_of in Hex.
    cbv zeta in *.
    destruct (truthy _) eqn:Ht.
    + match type of Hex with
      | context [markdownify env ?x] =>
          destruct (markdownify env x) as [md|e] eqn:Hm; [|done]
      end.
      cbn [bind] in Hex. injection Hex as <-. by exists md.
    + by injection Hex as <-.
Qed.

(** A post with a featured-media link and an excerpt. *)
Lemma optional_fields_witness :
  exists fields,
    normalize_article ref_normalize
      (("_links",
        PDict [("wp:featuredmedia", PList [PDict [("href", PStr "h")]])])
       :: ("excerpt", PDict [("rendered", PStr " short ")]) :: post_dated)
      (PStr "1704240000")
    = Ok (Some (PDict fields), None)
    /\ dict_lookup "image_url" fields = Some (PStr "h")
    /\ dict_lookup "excerpt" fields = Some (PStr "short").
Proof.
  destruct (normalize_article ref_normalize _ (PStr "1704240000"))
    as [[[[| | | | | |fields]|] [msg|]]|e] eqn:H;
    try (vm_compute in H; discriminate).
  exists fields. split; [done|].
  destruct (optional_fields ref_normalize _ _ fields H)
    as ((img & Hi & _ & Hl) & (ex & He & Hx) & _).
  specialize (Hl _ eq_refl). cbn in Hl.
  destruct Hl as (first & rest & [= <- <-] & ->).
  split; [exact Hi|]. rewrite He. cbv zeta in Hx.
  change (truthy _) with true in Hx. cbv iota in Hx.
  destruct Hx as (md & [= <-] & ->). reflexivity.
Defined.

(** * The fallback of [markdownify] *)

Section Fallback.

Local Open Scope nat_scope.

Implicit Types (s rest body p : list ascii).

Lemma rep_lazy_body body : forall fuel n b rest,
  ">"%char ∉ body -> "<"%char ∉ body ->
  length body <= fuel ->
  n = 0 \/ n = 1 /\ body <> [] ->
  rep_lazy (Re.m (Re.NotChr "<"))
    (fun b2 s2 => Re.m (Re.Chr ">") b2 s2 (fun _ r => Some r))
    fuel n b (body ++ ">"%char :: rest)
  = Some rest.
Proof.
  induction body as [|c body IH]; intros fuel n b rest Hgt Hlt Hlen Hn.
  - destruct Hn as [->|[_ ?]]; [|done]. destruct fuel; done.
  - assert (Hc1 : Ascii.eqb c ">" = false).
    { apply Ascii.eqb_neq. intros ->. apply Hgt. by left. }
    assert (Hc2 : Ascii.eqb c "<" = false).
    { apply Ascii.eqb_neq. intros ->. apply Hlt. by left. }
    destruct fuel as [|fuel]; [simpl in Hlen; lia|].
    assert (Hmore : Re.m (Re.NotChr "<") b ((c :: body) ++ ">"%char :: rest)
              (fun b' s' =>
                 if length s' <? length ((c :: body) ++ ">"%char :: rest)
                 then rep_lazy (Re.m (Re.NotChr "<"))
                        (fun b2 s2 => Re.m (Re.Chr ">") b2 s2 (fun _ r => Some r))
                        fuel (pred n) b' s'
                 else None) = Some rest).
    { cbn [app Re.m]. rewrite Hc2.
      rewrite (proj2 (Nat.ltb_lt _ _)) by (simpl; lia).
      apply IH.
      - intros H. apply Hgt. by right.
      - intros H. apply Hlt. by right.
      - simpl in Hlen. lia.
      - left. by destruct Hn as [->|[-> _]]. }
    cbn [rep_lazy]. destruct n as [|n]; [|exact Hmore].
    cbn [app Re.m]. rewrite Hc1. exact Hmore.
Qed.

Lemma match_tag_tag bol body rest :
  body <> [] -> "<"%char ∉ body -> ">"%char ∉ body ->
  match_tag bol (("<"%char :: body ++ [">"%char]) ++ rest) = Some rest.
Proof.
  intros Hne Hlt Hgt. unfold match_tag. cbn [app Re.m].
  change (Ascii.eqb "<" "<") with true. cbv iota.
  rewrite <- app_assoc. cbn [app].
  apply rep_lazy_body; [done|done| |by right].
  rewrite length_app. lia.
Qed.

Lemma match_tag_text bol c s :
  c <> "<"%char -> match_tag bol (c :: s) = None.
Proof.
  intros Hc. unfold match_tag. cbn [Re.m].
  by destruct (Ascii.eqb_spec c "<").
Qed.

Lemma match_tag_end bol : match_tag bol [] = None.
Proof. reflexivity. Qed.

Lemma sub_by_skip mt repl pre : forall bol rest,
  sub_by mt repl bol (length pre) (pre ++ rest)
  = sub_by mt repl (bol_after bol pre) 0 rest.
Proof.
  induction pre as [|c pre IH]; intros bol rest; [done|].
  simpl. apply IH.
Qed.

Lemma sub_by_text p : forall bol rest,
  "<"%char ∉ p ->
  sub_by match_tag [] bol 0 (p ++ rest)
  = p ++ sub_by match_tag [] (bol_after bol p) 0 rest.
Proof.
  induction p as [|c p IH]; intros bol rest Hp; [done|].
  cbn [app sub_by]. rewrite match_tag_text
    by (intros ->; apply Hp; by left).
  cbn [bol_after]. f_equal. apply IH. intros H. apply Hp. by right.
Qed.

Lemma sub_by_tag bol body rest :
  body <> [] -> "<"%char ∉ body -> ">"%char ∉ body ->
  sub_by match_tag [] bol 0 (("<"%char :: body ++ [">"%char]) ++ rest)
  = sub_by match_tag [] (bol_after bol ("<"%char :: body ++ [">"%char])) 0 rest.
Proof.
  intros Hne Hlt Hgt.
  pose proof (match_tag_tag bol body rest Hne Hlt Hgt) as Hm.
  change (("<"%char :: body ++ [">"%char]) ++ rest)
    with ("<"%char :: ((body ++ [">"%char]) ++ rest)) in *.
  cbn [sub_by]. rewrite Hm.
  replace (length ("<"%char :: (body ++ [">"%char]) ++ rest) - length rest)
    with (S (length (body ++ [">"%char])))
    by (simpl; rewrite !length_app; simpl; lia).
  cbn [app bol_after]. apply sub_by_skip.
Qed.

Lemma sub_by_render pieces : forall bol,
  Forall well_marked pieces ->
  sub_by match_tag [] bol 0 (render pieces) = text_of pieces.
Proof.
  induction pieces as [|x pieces IH]; intros bol Hall.
  - reflexivity.
  - inversion Hall as [|? ? Hx Hrest]; subst.
    unfold render, text_of in *. cbn [map concat].
    destruct x as [p|body]; cbn [render_piece well_marked] in *.
    + rewrite sub_by_text by done. f_equal. by apply IH.
    + destruct Hx as (Hne & Hlt & Hgt).
      rewrite sub_by_tag by done. by apply IH.
Qed.

End Fallback.

(** X24. The fallback used when the [markdownify] library is missing
    removes the tags of a marked-up text and keeps the text between
    them: for text without ['<'] between tags whose bodies are not empty
    and hold no angle bracket, it returns the text pieces joined; a
    text without ['<'] is returned as it is. *)
Theorem fallback_markdownify_strips_tags pieces :
  Forall well_marked pieces ->
  fallback_markdownify (str_of (render pieces)) = str_of (text_of pieces).
Proof.
  intros H. unfold fallback_markdownify. rewrite chars_str_of.
  by rewrite sub_by_render.
Qed.

Lemma fallback_markdownify_strips_tags_witness :
  fallback_markdownify "<p>a > b</p><br/>c" = "a > bc".
Proof.
  apply (fallback_markdownify_strips_tags
           [Tag (chars "p"); Text (chars "a > b"); Tag (chars "/p");
            Tag (chars "br/"); Text (chars "c")]).
  repeat constructor; try done; try not_in_text.
Defined.
